(** * Holio application-generation orchestrator: a shallow embedding

    The development follows the Python sources of the backend
    ([backend/app/libs] and [backend/app/apis]).  The definitions of the
    first part transcribe the source functions; the function, or the
    statement, is named in the comment that precedes each of them, and
    the file in the heading of its module.  The second part states and
    proves the properties.

    Conventions.
    - A Python [str] is a list of characters.  A character is a code point
      below 256 (Latin-1); the character classes of [re] and of [str.strip]
      are the ones CPython uses on that range.
    - A Python [dict] whose iteration order matters is an association list
      in insertion order; a dict that is only looked up is a [gmap].
    - [list(set(l))] has no specified order in Python.  It is modelled by
      [remove_dups]; statements about it speak of membership and of the
      absence of duplicates only.
    - Code that can raise returns a sum; external collaborators (the
      language model, the database driver, the file system) are parameters
      of the functions that call them. *)

From Stdlib Require Import ZArith List Ascii String DecimalString.
From stdpp Require Import base option list gmap strings sorting.

Abbreviation str := (list ascii).

(** A literal of the source text. *)
Definition lit (s : string) : str := list_ascii_of_string s.
Global Arguments lit : simpl never.

(** ** Python string primitives *)

Module Py.

(** [s.startswith(prefix)] *)
Fixpoint startswith (prefix s : str) : bool :=
  match prefix, s with
  | [], _ => true
  | _ :: _, [] => false
  | p :: prefix', c :: s' => Ascii.eqb p c && startswith prefix' s'
  end.

(** [s.endswith(suffix)] *)
Definition endswith (suffix s : str) : bool :=
  startswith (rev suffix) (rev s).

(** [s.count(c)] for a one-character [c]. *)
Fixpoint count (c : ascii) (s : str) : nat :=
  match s with
  | [] => 0
  | x :: s' => (if Ascii.eqb x c then 1 else 0) + count c s'
  end.

(** [s.split(sep)] for a one-character separator: never empty. *)
Fixpoint split (sep : ascii) (s : str) : list str :=
  match s with
  | [] => [[]]
  | c :: s' =>
      if Ascii.eqb c sep then [] :: split sep s'
      else match split sep s' with
           | w :: ws => (c :: w) :: ws
           | [] => [[c]]
           end
  end.

(** [s.split(sep, 1)]: at most one cut, at the first separator. *)
Fixpoint split1 (sep : ascii) (s : str) : list str :=
  match s with
  | [] => [[]]
  | c :: s' =>
      if Ascii.eqb c sep then [[]; s']
      else match split1 sep s' with
           | w :: ws => (c :: w) :: ws
           | [] => [[c]]
           end
  end.

(** [sep.join(l)] *)
Fixpoint join (sep : str) (l : list str) : str :=
  match l with
  | [] => []
  | x :: xs =>
      match xs with
      | [] => x
      | _ :: _ => x ++ sep ++ join sep xs
      end
  end.

Definition in_range (lo hi : N) (c : ascii) : bool :=
  let n := N_of_ascii c in (lo <=? n)%N && (n <=? hi)%N.

(** [c.isspace()], which is also [\s] of [re], on code points below 256:
    9-13, 28-32, 133 and 160. *)
Definition isspace (c : ascii) : bool :=
  in_range 9 13 c || in_range 28 32 c || in_range 133 133 c
  || in_range 160 160 c.

(** [\w] of [re] on code points below 256: the alphanumeric characters
    of Unicode in that range, and the underscore. *)
Definition isword (c : ascii) : bool :=
  in_range 48 57 c || in_range 65 90 c || in_range 95 95 c
  || in_range 97 122 c || in_range 170 170 c || in_range 178 179 c
  || in_range 181 181 c || in_range 185 186 c || in_range 188 190 c
  || in_range 192 214 c || in_range 216 246 c || in_range 248 255 c.

(** The longest prefix of [s] whose characters satisfy [p], and the rest. *)
Fixpoint span (p : ascii -> bool) (s : str) : str * str :=
  match s with
  | [] => ([], [])
  | c :: s' =>
      if p c then let '(a, r) := span p s' in (c :: a, r)
      else ([], s)
  end.

Definition lstrip (s : str) : str := snd (span isspace s).
Definition rstrip (s : str) : str := rev (lstrip (rev s)).
(** [s.strip()] *)
Definition strip (s : str) : str := rstrip (lstrip s).

(** [str(n)] for a non-negative integer. *)
Definition str_of_nat (n : nat) : str :=
  lit (NilEmpty.string_of_uint (Nat.to_uint n)).

(** [sorted(l)] on strings compares code points lexicographically. *)
Definition str_le (a b : str) : Prop :=
  String.le (string_of_list_ascii a) (string_of_list_ascii b).

Definition sorted (l : list str) : list str := merge_sort str_le l.

(** *** Exceptions

    The classes the sources tell apart have a constructor of their own.
    [OtherError] carries the text [str(e)] of any other instance of
    [Exception].  [BaseOnly] is an exception that derives from
    [BaseException] without being an [Exception]: [SystemExit],
    [KeyboardInterrupt], [GeneratorExit], the cancellation of a task. *)
Inductive exn :=
| HTTPException (status_code : nat) (detail : str)
| JSONDecodeError (msg : str)
| OtherError (msg : str)
| BaseOnly (class : string).

(** [isinstance(e, Exception)] *)
Definition is_Exception (e : exn) : bool :=
  match e with
  | BaseOnly _ => false
  | _ => true
  end.

(** The message an exception was built with. *)
Definition exn_message (e : exn) : str :=
  match e with
  | HTTPException _ d => d
  | JSONDecodeError m => m
  | OtherError m => m
  | BaseOnly _ => []
  end.

(** The outcome of a call that returns or raises. *)
Inductive result (A : Type) :=
| Ok (a : A)
| Raise (e : exn).
Global Arguments Ok {A} a.
Global Arguments Raise {A} e.

Definition bind {A B} (r : result A) (k : A -> result B) : result B :=
  match r with
  | Ok a => k a
  | Raise e => Raise e
  end.

(** [try: body  except Exception as e: handler(e)]: an exception that
    is not an [Exception] passes through. *)
Definition try_except {A} (body : result A) (handler : exn -> result A)
  : result A :=
  match body with
  | Ok a => Ok a
  | Raise e => if is_Exception e then handler e else Raise e
  end.

(** *** JSON values and dicts with string keys *)
Unset Elimination Schemes.
Inductive json :=
| JNull
| JBool (b : bool)
| JNum (z : Z)
| JStr (s : str)
| JList (l : list json)
| JObj (fields : list (string * json)).
Set Elimination Schemes.

(** [d.get(k)] on the fields of a dict. *)
Fixpoint assoc {V} (k : string) (d : list (string * V)) : option V :=
  match d with
  | [] => None
  | (k', v) :: d' => if String.eqb k k' then Some v else assoc k d'
  end.

(** What an awaited endpoint function hands back. *)
Inductive response :=
| Obj (attrs : list (string * json))        (** a model with attributes *)
| Items (l : list (list (string * json)))   (** a list of models *)
| Plain (v : json).                         (** a dict or another value *)

End Py.

Notation "x <-! r ; k" := (Py.bind r (fun x => k))
  (at level 100, r at next level, right associativity, only parsing).

(** ** Code validator ([backend/app/libs/code_validator.py]) *)

Module CodeValidator.

(** [class ValidationError] *)
Record ValidationError := {
  error_type : str;
  message : str;
  line_number : option Z;
  column : option Z;
  suggestion : option str
}.

(** [class ValidationResult] *)
Record ValidationResult := {
  is_valid : bool;
  errors : list ValidationError;
  warnings : list str;
  imports : list str
}.

(** *** The import pattern

    [import\s+(?:{[^}]+}|\w+|\*\s+as\s+\w+)\s+from\s+Q([^Q]+)Q]
    where [Q] stands for the class of the two quote characters (the
    double quote, code 34, and the apostrophe, code 39).

    Each repetition of the pattern is followed by a character outside the
    repeated class, and the three alternatives start with different
    characters, so a match that starts at a given position is unique and
    the matcher below needs no backtracking. *)

(** A literal piece of the pattern. *)
Definition eat (p : str) (s : str) : option str :=
  if Py.startswith p s then Some (drop (length p) s) else None.

(** [c+] for a character class [c]: the longest run, at least one. *)
Definition eat_plus (p : ascii -> bool) (s : str) : option (str * str) :=
  match Py.span p s with
  | ([], _) => None
  | (c :: run, rest) => Some (c :: run, rest)
  end.

Definition dquote : ascii := "034"%char.
Definition squote : ascii := "039"%char.

Definition is_quote (c : ascii) : bool :=
  Ascii.eqb c dquote || Ascii.eqb c squote.

(** [{[^}]+}|\w+|\*\s+as\s+\w+] *)
Definition import_clause (s : str) : option str :=
  match s with
  | [] => None
  | c :: s' =>
      if Ascii.eqb c "{"%char then
        '(_, s1) ← eat_plus (λ x, negb (Ascii.eqb x "}"%char)) s';
        eat (lit "}") s1
      else if Py.isword c then
        snd <$> eat_plus Py.isword s
      else if Ascii.eqb c "*"%char then
        '(_, s1) ← eat_plus Py.isspace s';
        s2 ← eat (lit "as") s1;
        '(_, s3) ← eat_plus Py.isspace s2;
        snd <$> eat_plus Py.isword s3
      else None
  end.

(** A match of the whole pattern at the start of [s]: the text of group 1
    and what follows the match. *)
Definition match_import (s : str) : option (str * str) :=
  s1 ← eat (lit "import") s;
  '(_, s2) ← eat_plus Py.isspace s1;
  s3 ← import_clause s2;
  '(_, s4) ← eat_plus Py.isspace s3;
  s5 ← eat (lit "from") s4;
  '(_, s6) ← eat_plus Py.isspace s5;
  match s6 with
  | q :: s7 =>
      if is_quote q then
        '(spec, s8) ← eat_plus (λ x, negb (is_quote x)) s7;
        match s8 with
        | q' :: rest => if is_quote q' then Some (spec, rest) else None
        | [] => None
        end
      else None
  | [] => None
  end.

(** [re.finditer(import_pattern, code)], group 1 of every match: the
    scan tries each position from the left and resumes after a match.
    [skip] counts the characters of the current match still to pass. *)
Fixpoint finditer_from (skip : nat) (s : str) : list str :=
  match s with
  | [] => []
  | _ :: s' =>
      match skip with
      | S k => finditer_from k s'
      | O =>
          match match_import s with
          | Some (spec, rest) =>
              spec :: finditer_from (length s - length rest - 1) s'
          | None => finditer_from 0 s'
          end
      end
  end.

Definition import_specifiers (code : str) : list str :=
  finditer_from 0 code.

(** The body of the [for match in ...] loop: the package of one
    specifier, or nothing for a relative one. *)
Definition package_name (import_path : str) : str :=
  let package := hd [] (Py.split "/"%char import_path) in
  if Py.startswith (lit "@") package
  then Py.join (lit "/") (take 2 (Py.split "/"%char import_path))
  else package.

Definition is_relative (import_path : str) : bool :=
  Py.startswith (lit ".") import_path.

Definition collect_packages (specs : list str) : list str :=
  package_name <$> filter (λ p, is_relative p = false) specs.

Definition syntax_error (msg sugg : str) : ValidationError :=
  {| error_type := lit "syntax"; message := msg; line_number := None;
     column := None; suggestion := Some sugg |}.

(** One of the three bracket checks: the error to append, if any. *)
Definition unmatched (kind : string) (o c : ascii) (code : str)
  : list ValidationError :=
  let n_open := Py.count o code in
  let n_close := Py.count c code in
  if decide (n_open ≠ n_close) then
    [syntax_error
       (lit "Unmatched " ++ lit kind ++ lit ": " ++ Py.str_of_nat n_open
          ++ lit " open, " ++ Py.str_of_nat n_close ++ lit " close")
       (lit "Check for missing or extra " ++ lit kind)]
  else [].

(** [def validate_typescript_syntax(code: str) -> ValidationResult] *)
Definition validate_typescript_syntax (code : str) : ValidationResult :=
  let imports := remove_dups (collect_packages (import_specifiers code)) in
  let errors :=
    unmatched "braces" "{" "}" code
    ++ unmatched "parentheses" "(" ")" code
    ++ unmatched "brackets" "[" "]" code in
  {| is_valid := bool_decide (length errors = 0);
     errors := errors;
     warnings := [];
     imports := imports |}.

End CodeValidator.

(** ** File tools ([backend/app/apis/ai_agent_tools/__init__.py]) *)

Module AgentTools.
Import Py CodeValidator.

(** [class CreateFileRequest] *)
Record CreateFileRequest := {
  project_id : string;
  file_path : str;
  file_content : str;
  language : option string;
  file_type : option string
}.

(** [class CreateFileResponse] *)
Record CreateFileResponse := {
  success : bool;
  rsp_message : str;
  file_id : string;
  rsp_file_path : str
}.

(** A row of the table [project_files]. *)
Record file_row := {
  row_id : string;
  row_project_id : string;
  row_filepath : str;
  row_content : str;
  row_language : option string
}.

(** What [create_file] calls outside this repository's sources. *)
Record env := {
  (** [validate_python_syntax], which rests on [ast.parse] *)
  validate_python_syntax : str -> ValidationResult;
  (** [auto_heal_code(code, errors, language)]: a model call *)
  auto_heal_code : str -> list ValidationError -> string -> result str;
  (** [str(e)] for an [HTTPException] (it depends on the framework) *)
  http_exception_str : nat -> str -> str;
  (** [workspace_path.exists()] and [create_backend_workspace] *)
  workspace_exists : string -> bool;
  create_backend_workspace : string -> result unit;
  (** [get_db_connection()], [await conn.close()] and
      [UUID(project_id)] *)
  get_db_connection : result unit;
  close_connection : result unit;
  parse_uuid : string -> result string;
  (** [uuid4()] *)
  uuid4 : list file_row -> string;
  (** the bodies of the two [try] blocks that follow the write, which
      detect the packages of the file and install them, by the exception
      that ends them, if any: the one for a Python file, on the project
      id, the content of the request and [validation_result], and the
      one for a TypeScript file of the frontend, on the project id and
      the content.  They call [app.apis.preview] and write to the
      manifests of the workspace, not to the table. *)
  python_package_step : string -> str -> option ValidationResult -> option exn;
  npm_package_step : string -> str -> option exn
}.

(** [str(e)] *)
Definition exn_str (E : env) (e : exn) : str :=
  match e with
  | HTTPException c d => http_exception_str E c d
  | JSONDecodeError m => m
  | OtherError m => m
  | BaseOnly _ => []
  end.

Definition suggestion_suffix (err : ValidationError) : str :=
  match suggestion err with
  | Some sg => if decide (sg = []) then []
               else lit " (Suggestion: " ++ sg ++ lit ")"
  | None => []
  end.

(** [str(err.line_number)] *)
Definition line_number_str (err : ValidationError) : str :=
  match line_number err with
  | Some z => if decide (0 ≤ z)%Z then str_of_nat (Z.to_nat z)
              else lit "-" ++ str_of_nat (Z.to_nat (- z))
  | None => lit "None"
  end.

Definition typescript_error_details (errs : list ValidationError) : str :=
  join (lit "
") ((λ err, message err ++ suggestion_suffix err) <$> errs).

Definition python_error_details (errs : list ValidationError) : str :=
  join (lit "
") ((λ err, lit "Line " ++ line_number_str err ++ lit ": "
                ++ message err ++ suggestion_suffix err) <$> errs).

(** The validation and auto-heal stage for one language: the code to
    store, or the [HTTPException] with status 400 raised by the inner
    handler. *)
Definition validate_and_heal (E : env) (validate : str -> ValidationResult)
    (lang : string) (headline : str)
    (details : list ValidationError -> str) (content : str) : result str :=
  let validation_result := validate content in
  if is_valid validation_result then Ok content
  else
    try_except
      (healed_code <-! auto_heal_code E content (errors validation_result) lang;
       let healed_validation := validate healed_code in
       if is_valid healed_validation then Ok healed_code
       else Raise (OtherError (lit "Healed code still invalid")))
      (λ heal_error,
         Raise (HTTPException 400
                  (headline ++ details (errors validation_result)))).

(** The two package steps after the write, each inside
    [try: ... except Exception] with a handler that only logs: an
    [Exception] ends the step and nothing else, any other exception
    leaves the function.  The [from app.apis.preview import ...] in
    front of each [try] asks for names that the module defines. *)
Definition package_steps (E : env) (project_id : string)
    (file_path file_content : str) (language : option string)
    (validation_result : option ValidationResult) : option exn :=
  let raised :=
    if decide (language = Some "python"%string) then
      python_package_step E project_id file_content validation_result
    else if decide (language = Some "typescript"%string
                    ∧ startswith (lit "frontend/") file_path = true) then
      npm_package_step E project_id file_content
    else None in
  match raised with
  | Some e => if is_Exception e then None else Some e
  | None => None
  end.

(** [validation_result] where the package steps read it: the result
    for the code that is stored, which is the content of the request or
    the healed code. *)
Definition final_validation (E : env) (language : option string)
    (final_code : str) : option ValidationResult :=
  if decide (language = Some "python"%string) then
    Some (validate_python_syntax E final_code)
  else if decide (language = Some "typescript"%string) then
    Some (validate_typescript_syntax final_code)
  else None.

(** The body of [try: ... finally: await conn.close()] in
    [create_file]: the test for a file that exists, the [INSERT], the
    package steps and the response. *)
Definition insert_file (E : env) (request : CreateFileRequest)
    (final_code : str) (db : list file_row)
  : result CreateFileResponse * list file_row :=
  match parse_uuid E (project_id request) with
  | Raise e => (Raise e, db)
  | Ok pid =>
      if existsb (λ r, bool_decide (row_project_id r = pid
                                    ∧ row_filepath r = file_path request)) db
      then (Raise (HTTPException 400
                     (lit "File already exists. Use update endpoint.")), db)
      else
        let fid := uuid4 E db in
        let db' := db ++ [{| row_id := fid; row_project_id := pid;
                             row_filepath := file_path request;
                             row_content := final_code;
                             row_language := language request |}] in
        match package_steps E (project_id request) (file_path request)
                (file_content request) (language request)
                (final_validation E (language request) final_code) with
        | Some e => (Raise e, db')
        | None =>
            (Ok {| success := true;
                   rsp_message := lit "File created: " ++ file_path request;
                   file_id := fid;
                   rsp_file_path := file_path request |},
             db')
        end
  end.

(** [try: body  finally: await conn.close()]: what [close] raises
    replaces the outcome of the body; the table stays as the body left
    it. *)
Definition finally_close {A} (E : env) (body : result A * list file_row)
  : result A * list file_row :=
  match close_connection E with
  | Ok _ => body
  | Raise e => (Raise e, snd body)
  end.

(** The body of the outer [try] of [create_file]. *)
Definition create_file_body (E : env) (request : CreateFileRequest)
    (db : list file_row) : result CreateFileResponse * list file_row :=
  let validated :=
    if decide (language request = Some "python"%string) then
      validate_and_heal E (validate_python_syntax E) "python"
        (lit "Python syntax validation failed:
") python_error_details (file_content request)
    else if decide (language request = Some "typescript"%string) then
      validate_and_heal E validate_typescript_syntax "typescript"
        (lit "TypeScript syntax validation failed:
") typescript_error_details (file_content request)
    else Ok (file_content request) in
  match validated with
  | Raise e => (Raise e, db)
  | Ok final_code =>
      let workspace :=
        if decide (file_type request = Some "api"%string
                   ∧ language request = Some "python"%string) then
          if workspace_exists E (project_id request) then Ok ()
          else create_backend_workspace E (project_id request)
        else Ok () in
      match (_ <-! workspace; get_db_connection E) with
      | Raise e => (Raise e, db)
      | Ok _ => finally_close E (insert_file E request final_code db)
      end
  end.

(** [async def create_file(request)]: the body above inside
    [try: ... except Exception as e: raise HTTPException(500, ...)].
    [HTTPException] is a subclass of [Exception], so the handler also
    receives the exceptions the body raises on purpose. *)
Definition create_file (E : env) (request : CreateFileRequest)
    (db : list file_row) : result CreateFileResponse * list file_row :=
  let '(r, db') := create_file_body E request db in
  (try_except r
     (λ e, Raise (HTTPException 500
                    (lit "File creation failed: " ++ exn_str E e))),
   db').

(** [async def run_python_script(request)]: [exec] of the code inside
    [try: ... except Exception as e: ...], itself inside
    [try: ... finally: await conn.close()].  [captured] is the text the
    code printed and [raised] the exception it ended with, if any;
    [type_name], [exn_text] and [format_exc] stand for
    [type(e).__name__], [str(e)] and [traceback.format_exc()]. *)
Definition run_python_script (type_name exn_text format_exc : exn -> str)
    (connected : result unit) (captured : str * str) (raised : option exn)
  : result response :=
  _ <-! connected;
  try_except
    (match raised with
     | None =>
         Ok (Plain (JObj [("success", JBool true);
                          ("stdout", JStr captured.1);
                          ("stderr", JStr captured.2);
                          ("error", JNull)]%string))
     | Some e => Raise e
     end)
    (λ e, Ok (Plain (JObj [("success", JBool false);
                           ("stdout", JStr captured.1);
                           ("stderr", JStr captured.2);
                           ("error",
                            JObj [("type", JStr (type_name e));
                                  ("message", JStr (exn_text e));
                                  ("traceback",
                                   JStr (format_exc e))])]%string))).

End AgentTools.

(** ** Orchestrator ([backend/app/libs/ai_orchestrator.py]) *)

Module Orchestrator.
Import Py.

(** *** Tool dispatch *)

(** How one entry of the returned dict is computed from [result]. *)
Inductive field :=
| Const (v : json)            (** a literal *)
| Attr (a : string)           (** [result.a] *)
| AttrOrSelf (a : string)     (** [result.a if hasattr(result, a) else result] *)
| DictOfEach                  (** [[x.dict() for x in result]] *)
| DictOfEachIn (a : string).  (** [[x.dict() for x in result.a]] *)

(** One branch of the [if tool_name == ...] chain: the endpoint it
    awaits, whether it hands [self.project_id] to it, the keys it reads
    with [parameters.get(key, default)], and the dict it returns. *)
Record branch := {
  endpoint : string;
  project_arg : bool;
  reads : list (string * json);
  returns : list (string * field)
}.

Definition message_only : list (string * field) :=
  [("success", Const (JBool true)); ("message", Attr "message")]%string.

Definition tool_response : list (string * field) :=
  [("success", Attr "success"); ("message", Attr "message");
   ("data", Attr "data")]%string.

Definition one (key attr : string) : list (string * field) :=
  [("success", Const (JBool true)); (key, AttrOrSelf attr)]%string.

(** The chain, in the order of the source. *)
Definition branches : list (string * branch) :=
  [ ("create_task",
     {| endpoint := "create_task"; project_arg := true;
        reads := [("title", JNull); ("description", JNull);
                  ("priority", JStr (lit "medium"));
                  ("status", JStr (lit "todo"));
                  ("integrations", JList []); ("labels", JList [])];
        returns := tool_response |});
    ("update_task",
     {| endpoint := "update_task"; project_arg := true;
        reads := [("task_id", JNull); ("title", JNull);
                  ("description", JNull); ("status", JNull);
                  ("priority", JNull)];
        returns := tool_response |});
    ("list_tasks",
     {| endpoint := "list_tasks"; project_arg := true;
        reads := [("status", JNull)];
        returns := [("success", Const (JBool true)); ("tasks", DictOfEach)] |});
    ("delete_task",
     {| endpoint := "delete_task"; project_arg := true;
        reads := [("task_id", JNull)];
        returns := message_only |});
    ("add_task_comment",
     {| endpoint := "add_task_comment"; project_arg := true;
        reads := [("task_id", JNull); ("comment", JNull);
                  ("comment_type", JStr (lit "note"))];
        returns := message_only |});
    ("create_file",
     {| endpoint := "create_file"; project_arg := true;
        reads := [("file_path", JNull); ("file_content", JNull);
                  ("language", JNull); ("file_type", JNull)];
        returns := message_only |});
    ("update_file",
     {| endpoint := "update_file"; project_arg := true;
        reads := [("file_path", JNull); ("file_content", JNull);
                  ("language", JNull)];
        returns := message_only |});
    ("read_files",
     {| endpoint := "read_files"; project_arg := true;
        reads := [("file_paths", JList [])];
        returns := [("success", Const (JBool true)); ("files", DictOfEach)] |});
    ("search_code",
     {| endpoint := "search_code"; project_arg := true;
        reads := [("query", JNull)];
        returns := [("success", Const (JBool true)); ("results", DictOfEach)] |});
    ("delete_file",
     {| endpoint := "delete_file"; project_arg := true;
        reads := [("file_path", JNull)];
        returns := message_only |});
    ("run_migration",
     {| endpoint := "run_migration_endpoint"; project_arg := true;
        reads := [("migration_name", JNull); ("sql", JNull)];
        returns := message_only |});
    ("run_sql_query",
     {| endpoint := "run_sql_query"; project_arg := true;
        reads := [("query", JNull); ("env", JStr (lit "dev"))];
        returns := one "result" "result" |});
    ("get_sql_schema",
     {| endpoint := "get_sql_schema"; project_arg := true;
        reads := [("env", JStr (lit "dev"))];
        returns := one "schema" "schema" |});
    ("run_python_script",
     {| endpoint := "run_python_script"; project_arg := true;
        reads := [("code", JNull)];
        returns := one "output" "output" |});
    ("read_logs",
     {| endpoint := "read_logs"; project_arg := true;
        reads := [("env", JStr (lit "dev")); ("limit", JNum 100)];
        returns := one "logs" "logs" |});
    ("test_endpoint",
     {| endpoint := "test_endpoint"; project_arg := true;
        reads := [("endpoint", JNull); ("scenario", JNull)];
        returns := one "result" "result" |});
    ("troubleshoot",
     {| endpoint := "troubleshoot"; project_arg := true;
        reads := [("problem", JNull); ("symptoms", JList []);
                  ("labels", JList [])];
        returns := one "analysis" "analysis" |});
    ("enable_integration",
     {| endpoint := "enable_integration"; project_arg := true;
        reads := [("integration_name", JNull); ("config", JObj [])];
        returns := one "message" "message" |});
    ("install_packages",
     {| endpoint := "install_packages_endpoint"; project_arg := false;
        reads := [("packages", JList []); ("package_manager", JNull)];
        returns := [("success", Attr "success"); ("message", Attr "message");
                    ("installed", Attr "installed_packages");
                    ("failed", Attr "failed_packages");
                    ("details", Attr "details")] |});
    ("visualize_data",
     {| endpoint := "visualize_data"; project_arg := true;
        reads := [("data", JNull); ("chart_type", JNull);
                  ("title", JStr [])];
        returns := one "visualization_id" "visualization_id" |});
    ("request_data",
     {| endpoint := "request_data"; project_arg := true;
        reads := [("message", JNull); ("data_type", JNull)];
        returns := one "message" "message" |});
    ("trigger_build",
     {| endpoint := "build_preview"; project_arg := true; reads := [];
        returns := [("success", Const (JBool true));
                    ("message", Const (JStr (lit "Build triggered")))] |});
    ("get_open_errors",
     {| endpoint := "get_open_errors"; project_arg := true; reads := [];
        returns := [("success", Const (JBool true));
                    ("has_errors", Attr "has_errors");
                    ("errors", DictOfEachIn "errors")] |});
    ("resolve_error",
     {| endpoint := "resolve_error"; project_arg := true;
        reads := [("error_id", JNull);
                  ("resolution_notes", JStr (lit "Auto-resolved"))];
        returns := [("success", Const (JBool true));
                    ("message", Const (JStr (lit "Error resolved")))] |})
  ]%string.

Definition registered_tools : list string := fst <$> branches.

(** The collaborators of [execute_tool]. *)
Record tool_env := {
  (** the awaited endpoint, with its keyword arguments: the request
      model it builds first and the handler itself can both raise *)
  call : string -> list (string * json) -> result response;
  (** [str(e)] and [traceback.format_exc()] *)
  exn_text : exn -> str;
  format_exc : exn -> str
}.

(** [parameters.get(key, default)]; [parameters] is what [json.loads]
    gave, and only a dict has [get]. *)
Definition get (parameters : json) (key : string) (dflt : json)
  : result json :=
  match parameters with
  | JObj d => Ok (default dflt (assoc key d))
  | _ => Raise (OtherError (lit "object has no attribute 'get'"))
  end.

Fixpoint read_all (parameters : json) (keys : list (string * json))
  : result (list (string * json)) :=
  match keys with
  | [] => Ok []
  | (k, d) :: keys' =>
      v <-! get parameters k d;
      vs <-! read_all parameters keys';
      Ok ((k, v) :: vs)
  end.

Definition no_attribute (a : string) : exn :=
  OtherError (lit "object has no attribute '" ++ lit a ++ lit "'").

(** [result.a] *)
Definition getattr (r : response) (a : string) : result json :=
  match r with
  | Obj attrs =>
      match assoc a attrs with
      | Some v => Ok v
      | None => Raise (no_attribute a)
      end
  | _ => Raise (no_attribute a)
  end.

(** The value [result] itself, as it is put in the dict. *)
Definition self_value (r : response) : json :=
  match r with
  | Obj attrs => JObj attrs
  | Items l => JList (JObj <$> l)
  | Plain v => v
  end.

Definition eval_field (r : response) (f : field) : result json :=
  match f with
  | Const v => Ok v
  | Attr a => getattr r a
  | AttrOrSelf a =>
      match getattr r a with
      | Ok v => Ok v
      | Raise _ => Ok (self_value r)
      end
  | DictOfEach =>
      match r with
      | Items l => Ok (JList (JObj <$> l))
      | _ => Raise (no_attribute "dict")
      end
  | DictOfEachIn a =>
      v <-! getattr r a;
      match v with
      | JList l => Ok (JList l)
      | _ => Raise (no_attribute "dict")
      end
  end.

Fixpoint eval_fields (r : response) (fs : list (string * field))
  : result (list (string * json)) :=
  match fs with
  | [] => Ok []
  | (k, f) :: fs' =>
      v <-! eval_field r f;
      vs <-! eval_fields r fs';
      Ok ((k, v) :: vs)
  end.

(** The keyword arguments of the awaited endpoint. *)
Definition keyword_arguments (project_id : string) (b : branch)
    (args : list (string * json)) : list (string * json) :=
  if project_arg b then ("project_id"%string, JStr (lit project_id)) :: args
  else args.

(** The body of the [try] of [execute_tool]. *)
Definition execute_tool_body (E : tool_env) (project_id : string)
    (tool_name : str) (parameters : json) : result json :=
  match assoc (string_of_list_ascii tool_name) branches with
  | Some b =>
      args <-! read_all parameters (reads b);
      r <-! call E (endpoint b) (keyword_arguments project_id b args);
      d <-! eval_fields r (returns b);
      Ok (JObj d)
  | None =>
      Ok (JObj [("success", JBool false);
                ("error", JStr (lit "Unknown tool: " ++ tool_name))]%string)
  end.

(** [async def execute_tool(self, tool_name, parameters)] *)
Definition execute_tool (E : tool_env) (project_id : string)
    (tool_name : str) (parameters : json) : result json :=
  try_except (execute_tool_body E project_id tool_name parameters)
    (λ e, Ok (JObj [("success", JBool false);
                    ("error",
                     JStr (lit "Tool execution failed: " ++ exn_text E e));
                    ("traceback", JStr (format_exc E e))]%string)).

(** *** The tool-calling loop *)

(** A tool call requested by the model. *)
Record tool_call := {
  tc_id : str;
  tc_name : str;
  tc_arguments : str
}.

(** An entry of [self.conversation_history]. *)
Inductive message :=
| UserMessage (content : str)
| AssistantMessage (content : str) (tool_calls : list tool_call)
| ToolMessage (tool_call_id name content : str).

(** [response.choices[0].message] *)
Record reply := {
  content : option str;
  tool_calls : list tool_call
}.

(** The chunks the generator yields.  Their texts hold characters
    outside Latin-1, so each chunk of fixed text has a constructor. *)
Inductive chunk :=
| Text (s : str)               (** [message_obj.content] *)
| ExecutingTools               (** the heading [Executing Tools:] *)
| ToolName (name : str)        (** the bullet with the tool name *)
| ToolOk                       (** the check mark *)
| ToolWarning (error : json)   (** the warning sign and [result.get('error', ...)] *)
| ToolError (error_msg : str)  (** the cross and the error message *)
| Newline
| MaxIterationsWarning.        (** [Maximum tool execution iterations reached.
                                   Stopping to prevent infinite loops.] *)

Record env := {
  tools : tool_env;
  project : string;
  (** [self.client.chat.completions.create] on the system prompt and
      the history *)
  chat : str -> list message -> result reply;
  json_loads : str -> result json;
  json_dumps : json -> result str
}.

(** The state the generator works on. *)
Record state := {
  conversation_history : list message;
  yielded : list chunk;
  tools_executed : list (str * json);
  model_calls : nat
}.

Definition yield (c : chunk) (st : state) : state :=
  {| conversation_history := conversation_history st;
     yielded := yielded st ++ [c];
     tools_executed := tools_executed st;
     model_calls := model_calls st |}.

Definition append_history (m : message) (st : state) : state :=
  {| conversation_history := conversation_history st ++ [m];
     yielded := yielded st;
     tools_executed := tools_executed st;
     model_calls := model_calls st |}.

Definition record_tool (name : str) (args : json) (st : state) : state :=
  {| conversation_history := conversation_history st;
     yielded := yielded st;
     tools_executed := tools_executed st ++ [(name, args)];
     model_calls := model_calls st |}.

Definition count_call (st : state) : state :=
  {| conversation_history := conversation_history st;
     yielded := yielded st;
     tools_executed := tools_executed st;
     model_calls := S (model_calls st) |}.

(** [result.get("success", True)] as a truth value. *)
Definition truthy (v : json) : bool :=
  match v with
  | JNull => false
  | JBool b => b
  | JNum z => negb (z =? 0)%Z
  | JStr s => negb (bool_decide (s = []))
  | JList l => match l with [] => false | _ => true end
  | JObj d => match d with [] => false | _ => true end
  end.

Definition result_get (r : json) (key : string) (dflt : json) : result json :=
  get r key dflt.

(** [if result.get("success", True): ... else: ...] *)
Definition report_result (tool_name : str) (arguments result ok : json)
    (st : state) : Py.result state :=
  if truthy ok then
    Ok (record_tool tool_name arguments (yield ToolOk st))
  else
    err <-! result_get result "error" (JStr (lit "Unknown error"));
    Ok (yield (ToolWarning err) st).

(** The body of the [try] in [for tool_call in message_obj.tool_calls]:
    the state it reached and the exception that interrupted it, if any.
    The state is threaded through, so what was yielded or recorded before
    an exception stays. *)
Definition try_tool_call (E : env) (tc : tool_call) (st : state)
  : state * option exn :=
  let tool_name := tc_name tc in
  match json_loads E (tc_arguments tc) with
  | Raise e => (st, Some e)
  | Ok arguments =>
      let st := yield (ToolName tool_name) st in
      match execute_tool (tools E) (project E) tool_name arguments with
      | Raise e => (st, Some e)
      | Ok result =>
          match result_get result "success" (JBool true) with
          | Raise e => (st, Some e)
          | Ok ok =>
              match report_result tool_name arguments result ok st with
              | Raise e => (st, Some e)
              | Ok st =>
                  match json_dumps E result with
                  | Raise e => (st, Some e)
                  | Ok dumped =>
                      (append_history
                         (ToolMessage (tc_id tc) tool_name dumped) st,
                       None)
                  end
              end
          end
      end
  end.

(** The body shared by the two [except] clauses: the error chunk, then
    the tool message with the dumped failure.  An exception of
    [json.dumps] here is raised inside a handler and leaves the
    generator. *)
Definition handle_failure (E : env) (tc : tool_call) (error_msg : str)
    (st : state) : state * option exn :=
  let st := yield (ToolError error_msg) st in
  match json_dumps E (JObj [("success", JBool false);
                            ("error", JStr error_msg)]%string) with
  | Ok dumped =>
      (append_history (ToolMessage (tc_id tc) (tc_name tc) dumped) st, None)
  | Raise e => (st, Some e)
  end.

(** One turn of the [for]: the [try] with [except json.JSONDecodeError]
    and [except Exception].  The second component is the exception that
    leaves the generator, if any. *)
Definition run_tool_call (E : env) (tc : tool_call) (st : state)
  : state * option exn :=
  match try_tool_call E tc st with
  | (st, None) => (st, None)
  | (st, Some (JSONDecodeError m)) =>
      handle_failure E tc (lit "Invalid JSON arguments: " ++ m) st
  | (st, Some e) =>
      if is_Exception e then
        handle_failure E tc
          (lit "Tool execution error: " ++ exn_text (tools E) e) st
      else (st, Some e)
  end.

Fixpoint run_tool_calls (E : env) (tcs : list tool_call) (st : state)
  : state * option exn :=
  match tcs with
  | [] => (st, None)
  | tc :: tcs' =>
      match run_tool_call E tc st with
      | (st, None) => run_tool_calls E tcs' st
      | (st, Some e) => (st, Some e)
      end
  end.

(** [if message_obj.content: yield message_obj.content] *)
Definition yield_text (text : str) (st : state) : state :=
  if decide (text = []) then st else yield (Text text) st.

(** How the [while] loop ended: by its [break], because its condition
    no longer held, or by an exception that left the generator. *)
Inductive ending :=
| Broke
| Exhausted
| Raised (e : exn).

Record run := {
  final : state;
  iteration : nat;
  ended : ending
}.

(** [while iteration < max_iterations: ...].  The loop runs at most
    [max_iterations - iteration] times, which [fuel] bounds. *)
Fixpoint tool_loop (E : env) (system_prompt : str) (max_iterations : nat)
    (fuel : nat) (iteration : nat) (st : state) : run :=
  match fuel with
  | O => {| final := st; iteration := iteration; ended := Exhausted |}
  | S fuel' =>
      if decide (iteration < max_iterations) then
        let iteration := iteration + 1 in
        match chat E system_prompt (conversation_history st) with
        | Raise e =>
            {| final := count_call st; iteration := iteration;
               ended := Raised e |}
        | Ok message_obj =>
            let st := count_call st in
            let text := default [] (content message_obj) in
            let st := yield_text text st in
            match tool_calls message_obj with
            | [] =>
                (* break *)
                {| final := append_history (AssistantMessage text []) st;
                   iteration := iteration; ended := Broke |}
            | tcs =>
                let st := yield ExecutingTools st in
                let st := append_history (AssistantMessage text tcs) st in
                match run_tool_calls E tcs st with
                | (st, Some e) =>
                    {| final := st; iteration := iteration;
                       ended := Raised e |}
                | (st, None) =>
                    let st := yield Newline st in
                    tool_loop E system_prompt max_iterations fuel' iteration st
                end
            end
        end
      else {| final := st; iteration := iteration; ended := Exhausted |}
  end.

(** [async def _stream_with_tools(self, message, system_prompt, context,
    max_iterations=5)], from the history [history] on.  The formatted
    snapshot is taken as already prepended to [system_prompt]; the update
    of the stored context between the loop and the last test yields
    nothing and leaves the dialog as it is. *)
Definition stream_with_tools (E : env) (user_message system_prompt : str)
    (max_iterations : nat) (history : list message) : run :=
  let st := {| conversation_history := history ++ [UserMessage user_message];
               yielded := []; tools_executed := []; model_calls := 0 |} in
  let r := tool_loop E system_prompt max_iterations max_iterations 0 st in
  match ended r with
  | Raised _ => r
  | _ =>
      (* if iteration >= max_iterations: yield the warning *)
      if decide (max_iterations ≤ iteration r) then
        {| final := yield MaxIterationsWarning (final r);
           iteration := iteration r; ended := ended r |}
      else r
  end.

Definition default_max_iterations : nat := 5.

End Orchestrator.

(** ** Context loader ([backend/app/libs/ai_context_loader.py]) *)

Module ContextLoader.
Import Py.

(** The values found in [context_data].  The entries of [ai_memory]
    are opaque to the loader; they are kept as text. *)
Inductive value :=
| VStr (s : str)
| VList (l : list str)
| VDict (m : gmap string str).

(** The keyword arguments of [update_memory]; [None] is an argument
    that was not given. *)
Record update := {
  current_phase : option str;
  current_task : option str;
  files_generated : option (list str);
  tasks_completed : option (list str);
  recent_errors : option (list str);
  ai_memory : option (gmap string str)
}.

(** [if x is not None: context_data[k] = x] *)
Definition set_if_given {A} (k : string) (inj : A -> value) (x : option A)
    (context_data : gmap string value) : gmap string value :=
  match x with
  | Some v => <[k := inj v]> context_data
  | None => context_data
  end.

(** The dict built before the [if merge:]. *)
Definition build_update_data (u : update) : gmap string value :=
  set_if_given "ai_memory" VDict (ai_memory u)
    (set_if_given "recent_errors" VList (recent_errors u)
       (set_if_given "tasks_completed" VList (tasks_completed u)
          (set_if_given "files_generated" VList (files_generated u)
             (set_if_given "current_task" VStr (current_task u)
                (set_if_given "current_phase" VStr (current_phase u) ∅))))).

(** [l[-n:]] *)
Definition last_n {A} (n : nat) (l : list A) : list A :=
  drop (length l - n) l.

(** [list(set(a + b))] *)
Definition union_list (a b : list str) : list str := remove_dups (a ++ b).

(** [all_errors = a + b; all_errors[-10:]] *)
Definition concat_last_10 (a b : list str) : list str := last_n 10 (a ++ b).

Definition type_error : exn := OtherError (lit "TypeError").

(** [if k in context_data and k in existing_data:
       context_data[k] = combine(existing_data[k] + context_data[k])].
    The sum of a value that is not a list and a list raises. *)
Definition merge_list_key (k : string)
    (combine : list str -> list str -> list str)
    (existing_data context_data : gmap string value)
  : result (gmap string value) :=
  match context_data !! k, existing_data !! k with
  | Some new, Some old =>
      match old, new with
      | VList o, VList n => Ok (<[k := VList (combine o n)]> context_data)
      | _, _ => Raise type_error
      end
  | _, _ => Ok context_data
  end.

(** [merged = existing["ai_memory"].copy(); merged.update(new)] *)
Definition merge_memory (existing_data context_data : gmap string value)
  : result (gmap string value) :=
  match context_data !! "ai_memory", existing_data !! "ai_memory" with
  | Some new, Some old =>
      match old, new with
      | VDict o, VDict n => Ok (<["ai_memory" := VDict (n ∪ o)]> context_data)
      | _, _ => Raise type_error
      end
  | _, _ => Ok context_data
  end.

(** The branch [if existing:] of the merge. *)
Definition merge_into (existing_data context_data : gmap string value)
  : result (gmap string value) :=
  c1 <-! merge_list_key "files_generated" union_list existing_data context_data;
  c2 <-! merge_list_key "tasks_completed" union_list existing_data c1;
  c3 <-! merge_list_key "recent_errors" concat_last_10 existing_data c2;
  c4 <-! merge_memory existing_data c3;
  (* existing_data.update(context_data); context_data = existing_data *)
  Ok (c4 ∪ existing_data).

(** [async def update_memory(self, ..., merge=True)] on the table
    [agent_context], a map from the project id (its unique key) to the
    column [context_data], read as the dict that [existing_data] is
    used as.  [entered] tells whether the loader is used inside its
    context manager. *)
Definition update_memory (entered : bool) (project_id : string)
    (u : update) (merge : bool) (agent_context : gmap string (gmap string value))
  : result (gmap string (gmap string value)) :=
  if negb entered then
    Raise (OtherError
             (lit "AIContextLoader must be used as async context manager"))
  else
    let context_data := build_update_data u in
    context_data <-!
      (if merge then
         match agent_context !! project_id with
         | Some existing_data => merge_into existing_data context_data
         | None => Ok context_data
         end
       else Ok context_data);
    (* INSERT ... ON CONFLICT (project_id) DO UPDATE *)
    Ok (<[project_id := context_data]> agent_context).

(** The list stored under a key, empty when the key is absent. *)
Definition stored_list (k : string) (c : gmap string value) : list str :=
  match c !! k with
  | Some (VList l) => l
  | _ => []
  end.

End ContextLoader.

(** ** Backend process manager
    ([backend/app/apis/project_backend_manager/__init__.py]) *)

Module BackendManager.
Import Py.

Definition BASE_PORT : Z := 8001.
Definition MAX_BACKENDS : nat := 100.

(** An entry of [running_backends]; the process handle is left out. *)
Record backend_info := {
  pid : Z;
  port : Z;
  status : string;
  started_at : Z;
  workspace_path : string
}.

(** [{info["port"] for info in running_backends.values()}] *)
Definition used_ports (running_backends : gmap string backend_info)
  : gset Z :=
  list_to_set (port <$> (snd <$> map_to_list running_backends)).

(** [range(MAX_BACKENDS)] mapped to the candidate ports. *)
Definition candidates : list Z :=
  (λ i, (BASE_PORT + Z.of_nat i)%Z) <$> seq 0 MAX_BACKENDS.

(** [def allocate_port() -> int] *)
Definition allocate_port (running_backends : gmap string backend_info)
  : result Z :=
  match list_find (λ candidate_port,
                     candidate_port ∉ used_ports running_backends)
                  candidates with
  | Some (_, candidate_port) => Ok candidate_port
  | None => Raise (OtherError (lit "No available ports (max 100 backends)"))
  end.

(** What the host answers to one request: whether the workspace and its
    [main.py] exist, what [start_backend_process] does (the new pid, or
    an exception), the clock, and whether the process of a stopped
    backend went away without an error. *)
Record host := {
  workspace_exists : bool;
  main_py_exists : bool;
  spawn : result Z;
  now : Z;
  stop_ok : bool;
  no_such_process : bool
}.

Definition workspace_of (project_id : string) : string :=
  String.app "/disk/backend/.preview-builds/"
    (String.app project_id "/backend").

(** [async def start_backend(project_id, background_tasks)]: the port
    reported, or the exception, and the map afterwards. *)
Definition start_backend (H : host) (project_id : string)
    (running_backends : gmap string backend_info)
  : result Z * gmap string backend_info :=
  match running_backends !! project_id with
  | Some backend_info => (Ok (port backend_info), running_backends)
  | None =>
      if negb (workspace_exists H) then
        (Raise (HTTPException 404
                  (lit "Backend workspace not found for project "
                   ++ lit project_id
                   ++ lit ". Run POST /preview/backend/create first.")),
         running_backends)
      else if negb (main_py_exists H) then
        (Raise (HTTPException 404
                  (lit "main.py not found in workspace. "
                   ++ lit "Run POST /preview/backend/create first.")),
         running_backends)
      else
        match (p <-! allocate_port running_backends;
               process_pid <-! spawn H;
               Ok (p, process_pid)) with
        | Ok (p, process_pid) =>
            (Ok p,
             <[project_id := {| pid := process_pid; port := p;
                                status := "running";
                                started_at := now H;
                                workspace_path := workspace_of project_id |}]>
               running_backends)
        | Raise e =>
            (* except Exception as e: raise HTTPException(500, ...) *)
            (if is_Exception e
             then Raise (HTTPException 500
                           (lit "Failed to start backend: " ++ exn_message e))
             else Raise e,
             running_backends)
        end
  end.

(** [def stop_backend_process(project_id) -> bool]: the entry is
    deleted on both paths. *)
Definition stop_backend_process (H : host) (project_id : string)
    (running_backends : gmap string backend_info)
  : bool * gmap string backend_info :=
  match running_backends !! project_id with
  | None => (false, running_backends)
  | Some _ => (stop_ok H, delete project_id running_backends)
  end.

(** [async def stop_backend(project_id)] *)
Definition stop_backend (H : host) (project_id : string)
    (running_backends : gmap string backend_info)
  : result bool * gmap string backend_info :=
  match running_backends !! project_id with
  | None =>
      (Raise (HTTPException 404
                (lit "No running backend found for project "
                 ++ lit project_id)),
       running_backends)
  | Some _ =>
      let '(ok, rb) := stop_backend_process H project_id running_backends in
      (Ok ok, rb)
  end.

(** [async def restart_backend(project_id, background_tasks)].  After
    it has stopped a backend the coroutine sleeps for a second before it
    starts it again, and the manager serves other requests in that time:
    [meanwhile] is what they do to the map.  A project without a
    backend is started at once. *)
Definition restart_backend (H : host) (project_id : string)
    (meanwhile : gmap string backend_info -> gmap string backend_info)
    (running_backends : gmap string backend_info)
  : result Z * gmap string backend_info :=
  let rb :=
    match running_backends !! project_id with
    | Some _ =>
        (* stop_backend_process(project_id); await asyncio.sleep(1) *)
        meanwhile (snd (stop_backend_process H project_id running_backends))
    | None => running_backends
    end in
  start_backend H project_id rb.

(** [async def get_backend_status(project_id)]: its effect on the map.
    The entry goes when the process is no longer there. *)
Definition get_backend_status (H : host) (project_id : string)
    (running_backends : gmap string backend_info)
  : gmap string backend_info :=
  match running_backends !! project_id with
  | None => running_backends
  | Some _ =>
      (* except psutil.NoSuchProcess: del running_backends[project_id] *)
      if no_such_process H then delete project_id running_backends
      else running_backends
  end.

(** A request to the manager, with the host's answers to it; a restart
    comes with the requests that are served during its pause. *)
#[warnings="-register-all"]
Inductive request :=
| Start (H : host) (project_id : string)
| Stop (H : host) (project_id : string)
| Restart (H : host) (project_id : string) (during : list request)
| Status (H : host) (project_id : string)
| StopAll (H : host).

(** [async def stop_all_backends()] *)
Definition stop_all_backends (H : host)
    (running_backends : gmap string backend_info)
  : gmap string backend_info :=
  fold_left (λ rb project_id, snd (stop_backend_process H project_id rb))
    (fst <$> map_to_list running_backends) running_backends.

Fixpoint handle (rb : gmap string backend_info) (r : request)
  : gmap string backend_info :=
  match r with
  | Start H p => snd (start_backend H p rb)
  | Stop H p => snd (stop_backend H p rb)
  | Restart H p during =>
      snd (restart_backend H p (λ rb, fold_left handle during rb) rb)
  | Status H p => get_backend_status H p rb
  | StopAll H => stop_all_backends H rb
  end.

(** The map after a sequence of requests, from an empty map. *)
Definition serve (rs : list request) : gmap string backend_info :=
  fold_left handle rs ∅.

End BackendManager.

(** ** Preview builder ([backend/app/apis/preview/__init__.py]) *)

Module Preview.
Import Py.

(** *** Staging of the generated files in [build_preview] *)

(** A Python dict in insertion order: [d[k] = v] keeps the place of a
    key that is present and appends a new key. *)
Fixpoint dict_set (k v : str) (d : list (str * str)) : list (str * str) :=
  match d with
  | [] => [(k, v)]
  | (k', v') :: d' =>
      if decide (k' = k) then (k, v) :: d' else (k', v') :: dict_set k v d'
  end.

Definition frontend_prefix : str := lit "frontend/".
Definition backend_prefix : str := lit "backend/".
Definition src_prefix : str := lit "src/".

(** [p[len('frontend/'):] if p.startswith('frontend/') else p] *)
Definition strip_frontend (p : str) : str :=
  if startswith frontend_prefix p then drop (length frontend_prefix) p
  else p.

(** The first loop, over the rows of [generated_files]. *)
Definition collect_files (rows : list (str * str)) : list (str * str) :=
  fold_left
    (λ files row,
       let file_path := fst row in
       let normalized_path := strip_frontend file_path in
       if startswith backend_prefix normalized_path
          || startswith backend_prefix file_path
       then files
       else dict_set normalized_path (snd row) files)
    rows [].

(** The body of the second loop, on one key of [files]. *)
Definition clean_path (file_path : str) : str :=
  let clean_path := strip_frontend file_path in
  if startswith src_prefix clean_path then clean_path
  else src_prefix ++ clean_path.

(** The second loop, over [files.items()]. *)
Definition normalize_files (files : list (str * str)) : list (str * str) :=
  fold_left (λ normalized_files kv,
               dict_set (clean_path (fst kv)) (snd kv) normalized_files)
    files [].

(** The components [pathlib] keeps of a path written as text: empty
    ones and [.] go, [..] stays. *)
Definition parts (p : str) : list str :=
  filter (λ c, c ≠ [] ∧ c ≠ lit ".") (split "/"%char p).

(** [base / filepath]: an absolute right operand replaces the left. *)
Definition joinpath (base : list str) (filepath : str) : list str :=
  if startswith (lit "/") filepath then parts filepath
  else base ++ parts filepath.

(** [p.parent] *)
Definition parent (p : list str) : list str := removelast p.

(** The disk as the staging step uses it, with a state of type [S]:
    [p.mkdir(parents=b, exist_ok=True)] and
    [p.write_text(content, encoding='utf-8')] on a path given by its
    components.  Each gives the state afterwards and the exception it
    raised, if any: a directory cannot be made where a file is, a text
    cannot be written where a directory is, and so on, as the operating
    system decides. *)
Record disk (S : Type) := {
  mkdir : bool -> list str -> S -> S * option exn;
  write_text : list str -> str -> S -> S * option exn
}.
Global Arguments mkdir {S}.
Global Arguments write_text {S}.

(** [WORKSPACE_BASE = Path("/disk/backend/.preview-builds")] *)
Definition WORKSPACE_BASE : list str :=
  [lit "disk"; lit "backend"; lit ".preview-builds"].

(** [workspace = WORKSPACE_BASE / project_id / "frontend"] *)
Definition frontend_workspace (project_id : str) : list str :=
  joinpath (joinpath WORKSPACE_BASE project_id) (lit "frontend").

(** How the staging step of [build_preview] ends. *)
Inductive staging :=
| NoFiles            (** status 404, [No files found for project] *)
| NoFrontendFiles    (** status 400, [No frontend files found] *)
| Written (files : list (list str * str))
                     (** every [write_text] returned: the paths and the
                         texts, in the order of the calls *)
| Interrupted (e : exn) (files : list (list str * str)).
                     (** an operation on the disk, or the closing of
                         the connection, raised [e] after the calls of
                         [write_text] for [files] had returned *)

(** [for file_path, content in normalized_files.items()]: the parent
    directory is made, then the text is written; the first exception
    ends the loop. *)
Fixpoint write_files {S} (D : disk S) (workspace : list str)
    (normalized_files : list (str * str)) (written : list (list str * str))
    (s : S) : staging * S :=
  match normalized_files with
  | [] => (Written written, s)
  | (file_path, content) :: rest =>
      let full_path := joinpath workspace file_path in
      match mkdir D true (parent full_path) s with
      | (s, Some e) => (Interrupted e written, s)
      | (s, None) =>
          match write_text D full_path content s with
          | (s, Some e) => (Interrupted e written, s)
          | (s, None) =>
              write_files D workspace rest
                (written ++ [(full_path, content)]) s
          end
      end
  end.

(** What the block that holds the connection leaves: an answer that
    ends the request, or the dict [files]. *)
Definition fetched (rows : list (str * str)) : staging + list (str * str) :=
  match rows with
  | [] => inl NoFiles
  | _ =>
      match collect_files rows with
      | [] => inl NoFrontendFiles
      | files => inr files
      end
  end.

(** The staging step of [build_preview] on a disk in the state [s],
    for the rows that the query gave: [WORKSPACE_BASE.mkdir] comes
    before the query, [await conn.close()] runs in the [finally] of
    the block that reads the rows, whatever that block answers. *)
Definition stage {S} (D : disk S) (close_connection : result unit)
    (project_id : str) (rows : list (str * str)) (s : S) : staging * S :=
  match mkdir D true WORKSPACE_BASE s with
  | (s, Some e) => (Interrupted e [], s)
  | (s, None) =>
      match close_connection, fetched rows with
      | Raise e, _ => (Interrupted e [], s)
      | Ok _, inl answer => (answer, s)
      | Ok _, inr files =>
          let workspace := frontend_workspace project_id in
          match mkdir D true workspace s with
          | (s, Some e) => (Interrupted e [], s)
          | (s, None) =>
              (* src_dir = workspace / "src"; src_dir.mkdir(exist_ok=True) *)
              match mkdir D false (joinpath workspace (lit "src")) s with
              | (s, Some e) => (Interrupted e [], s)
              | (s, None) =>
                  write_files D workspace (normalize_files files) [] s
              end
          end
      end
  end.



(** *** A disk without links

    The directories and the regular files at their absolute places;
    the root is a directory.  The errors of the operating system that
    the two operations meet: *)
Inductive oserror :=
| FileNotFoundError | FileExistsError | NotADirectoryError | IsADirectoryError.

Global Instance oserror_eq_dec : EqDecision oserror.
Proof. solve_decision. Defined.

(** The exception as the staging step sees it, by the name of its
    class. *)
Definition os_exn (e : oserror) : exn :=
  OtherError (match e with
              | FileNotFoundError => lit "FileNotFoundError"
              | FileExistsError => lit "FileExistsError"
              | NotADirectoryError => lit "NotADirectoryError"
              | IsADirectoryError => lit "IsADirectoryError"
              end).

Inductive node := Dir | File (content : str).

Definition node_at (s : gmap (list str) node) (p : list str) : option node :=
  if decide (p = []) then Some Dir else s !! p.

(** The place a path of directories leads to, component by component
    from [cur]. *)
Fixpoint follow (s : gmap (list str) node) (cur : list str)
    (comps : list str) : oserror + list str :=
  match comps with
  | [] => inr cur
  | c :: comps' =>
      if decide (c = lit "..") then follow s (removelast cur) comps'
      else
        match node_at s (cur ++ [c]) with
        | Some Dir => follow s (cur ++ [c]) comps'
        | Some (File _) => inl NotADirectoryError
        | None => inl FileNotFoundError
        end
  end.

(** [os.mkdir(p)] *)
Definition os_mkdir (p : list str) (s : gmap (list str) node)
  : oserror + gmap (list str) node :=
  match last p with
  | None => inl FileExistsError
  | Some name =>
      match follow s [] (removelast p) with
      | inl e => inl e
      | inr d =>
          if decide (name = lit "..") then inl FileExistsError
          else
            match node_at s (d ++ [name]) with
            | Some _ => inl FileExistsError
            | None => inr (<[d ++ [name] := Dir]> s)
            end
      end
  end.

(** [p.is_dir()] *)
Definition os_is_dir (p : list str) (s : gmap (list str) node) : bool :=
  match follow s [] p with inr _ => true | inl _ => false end.

(** [Path.mkdir(parents=parents, exist_ok=True)]: a missing parent is
    made first when [parents] is set; another error of the operating
    system is passed over when the path is a directory already.  The
    fuel bounds the climb to the parents. *)
Fixpoint path_mkdir (fuel : nat) (parents : bool) (p : list str)
    (s : gmap (list str) node) : gmap (list str) node * option exn :=
  match os_mkdir p s with
  | inr s' => (s', None)
  | inl FileNotFoundError =>
      match fuel with
      | S fuel' =>
          if parents && bool_decide (p ≠ []) then
            match path_mkdir fuel' true (parent p) s with
            | (s', Some e') => (s', Some e')
            | (s', None) => path_mkdir fuel' false p s'
            end
          else (s, Some (os_exn FileNotFoundError))
      | O => (s, Some (os_exn FileNotFoundError))
      end
  | inl e => if os_is_dir p s then (s, None) else (s, Some (os_exn e))
  end.

(** [p.write_text(content)]: the file is opened for writing, which
    makes it or empties it. *)
Definition path_write_text (p : list str) (content : str)
    (s : gmap (list str) node) : gmap (list str) node * option exn :=
  match last p with
  | None => (s, Some (os_exn IsADirectoryError))
  | Some name =>
      match follow s [] (removelast p) with
      | inl e => (s, Some (os_exn e))
      | inr d =>
          if decide (name = lit "..")
          then (s, Some (os_exn IsADirectoryError))
          else
            match node_at s (d ++ [name]) with
            | Some Dir => (s, Some (os_exn IsADirectoryError))
            | _ => (<[d ++ [name] := File content]> s, None)
            end
      end
  end.

Definition linkfree : disk (gmap (list str) node) :=
  {| mkdir := λ parents p, path_mkdir (S (length p)) parents p;
     write_text := path_write_text |}.

(** *** The Python manifest in [update_project_pyproject] *)

Definition dquote : ascii := "034"%char.
Definition squote : ascii := "039"%char.
Definition newline : ascii := "010"%char.

Definition is_quote (c : ascii) : bool :=
  Ascii.eqb c dquote || Ascii.eqb c squote.

(** The class [[^Q,]] of the pattern below. *)
Definition is_quoted_char (c : ascii) : bool :=
  negb (is_quote c) && negb (Ascii.eqb c ","%char).

(** The class [[a-zA-Z0-9_-]]. *)
Definition is_bare_char (c : ascii) : bool :=
  in_range 97 122 c || in_range 65 90 c || in_range 48 57 c
  || Ascii.eqb c "_"%char || Ascii.eqb c "-"%char.

(** A match of [Q([^Q,]+)Q|([a-zA-Z0-9_-]+)] at the start of [s], where
    [Q] is the class of the two quote characters: the group that took
    part, and what follows.  A quote starts the first alternative only
    and the run it opens has to end at a quote, so the match from a
    position is unique. *)
Definition match_package (s : str) : option (str * str) :=
  match s with
  | [] => None
  | c :: s' =>
      if is_quote c then
        match span is_quoted_char s' with
        | (x :: run, q :: rest) =>
            if is_quote q then Some (x :: run, rest) else None
        | _ => None
        end
      else if is_bare_char c then Some (span is_bare_char s)
      else None
  end.

(** [re.findall(pattern, packages_str)] followed by
    [pkg[0] if pkg[0] else pkg[1]]. *)
Fixpoint findall_from (skip : nat) (s : str) : list str :=
  match s with
  | [] => []
  | _ :: s' =>
      match skip with
      | S k => findall_from k s'
      | O =>
          match match_package s with
          | Some (name, rest) =>
              name :: findall_from (length s - length rest - 1) s'
          | None => findall_from 0 s'
          end
      end
  end.

(** The names found on the line, after
    [[pkg for pkg in existing if pkg and pkg not in ['[', ']']]]. *)
Definition existing_packages (packages_str : str) : list str :=
  filter (λ pkg, pkg ≠ [] ∧ pkg ≠ lit "[" ∧ pkg ≠ lit "]")
    (findall_from 0 packages_str).

Definition is_app_line (line : str) : bool :=
  startswith (lit "app = [") (strip line).

(** The index of the first line that satisfies [p]. *)
Fixpoint find_line (p : str -> bool) (lines : list str) : option nat :=
  match lines with
  | [] => None
  | l :: lines' => if p l then Some 0 else S <$> find_line p lines'
  end.

Definition quoted (pkg : str) : str := [dquote] ++ pkg ++ [dquote].

(** ['app = [' + ', '.join(quoted_packages) + ']'] *)
Definition app_line_of (all_packages : list str) : str :=
  lit "app = [" ++ join (lit ", ") (quoted <$> sorted all_packages)
    ++ lit "]".

(** The names written back for a line and a list of new names. *)
Definition merged_packages (app_line : str) (packages : list str)
  : list str :=
  let packages_str := strip (default [] (split1 "="%char app_line !! 1)) in
  remove_dups (existing_packages packages_str ++ packages).

(** [async def update_project_pyproject(project_id, packages)] on the
    text of the manifest: the text written back.  Without a line that
    opens the group nothing is written. *)
Definition update_project_pyproject (content : str) (packages : list str)
  : str :=
  let lines := split newline content in
  match find_line is_app_line lines with
  | Some app_line_idx =>
      let app_line := default [] (lines !! app_line_idx) in
      join [newline]
        (<[app_line_idx := app_line_of (merged_packages app_line packages)]>
           lines)
  | None => content
  end.

(** *** Serving the assets of a build *)

(** The file system as [serve_preview_assets] asks it: [p.exists()],
    [p.is_file()] and [p.resolve()] on an absolute path given by its
    components.  Each can raise; links are followed as the operating
    system follows them. *)
Record filesystem := {
  path_exists : list str -> result bool;
  path_is_file : list str -> result bool;
  path_resolve : list str -> result (list str)
}.

Definition dotdot : str := lit "..".

(** *** A file system without symbolic links

    Which absolute paths are directories and which are regular files;
    nothing is denied. *)
Record tree := {
  is_dir_at : list str -> bool;
  is_file_at : list str -> bool
}.

(** The place the operating system reaches when it follows the
    components from [cur]; every step starts in a directory. *)
Fixpoint walk (t : tree) (cur : list str) (comps : list str)
  : option (list str) :=
  match comps with
  | [] => Some cur
  | c :: comps' =>
      if is_dir_at t cur then
        if decide (c = dotdot) then walk t (removelast cur) comps'
        else walk t (cur ++ [c]) comps'
      else None
  end.

(** [p.exists()] and [p.is_file()] on such a tree *)
Definition exists_in (t : tree) (p : list str) : bool :=
  match walk t [] p with
  | Some q => is_dir_at t q || is_file_at t q
  | None => false
  end.

Definition is_file_in (t : tree) (p : list str) : bool :=
  match walk t [] p with
  | Some q => is_file_at t q
  | None => false
  end.

(** [p.resolve()] where there are no links: [..] climbs one level. *)
Definition resolve (p : list str) : list str :=
  fold_left (λ cur c, if decide (c = dotdot) then removelast cur
                      else cur ++ [c]) p [].

(** The file system that a tree without links is. *)
Definition plain (t : tree) : filesystem :=
  {| path_exists := λ p, Ok (exists_in t p);
     path_is_file := λ p, Ok (is_file_in t p);
     path_resolve := λ p, Ok (resolve p) |}.

(** [str(p)] for an absolute path. *)
Definition path_str (p : list str) : str :=
  lit "/" ++ join (lit "/") p.

(** The [if ... elif] chain on [filepath.endswith]. *)
Definition media_type_of (filepath : str) : string :=
  if endswith (lit ".js") filepath then "application/javascript"
  else if endswith (lit ".css") filepath then "text/css"
  else if endswith (lit ".json") filepath then "application/json"
  else if endswith (lit ".svg") filepath then "image/svg+xml"
  else "application/octet-stream".

(** [FileResponse(asset_path, media_type=media_type)]: the file that is
    read, at its resolved place, and the media type. *)
Record FileResponse := {
  served : list str;
  media_type : string
}.

(** [async def serve_preview_assets(project_id, filepath)]; the build
    cache maps a project id to the components of its dist directory.
    The path is tested once for the log and once for the answer. *)
Definition serve_preview_assets (fs : filesystem)
    (BUILD_CACHE : gmap string (list str)) (project_id : string)
    (filepath : str) : result FileResponse :=
  match BUILD_CACHE !! project_id with
  | None => Raise (HTTPException 404 (lit "Preview not built"))
  | Some dist_dir =>
      let assets_dir := dist_dir ++ [lit "assets"] in
      let asset_path := joinpath assets_dir filepath in
      _ <-! path_exists fs asset_path;
      found <-! path_exists fs asset_path;
      regular <-! (if found then path_is_file fs asset_path else Ok false);
      if negb regular
      then Raise (HTTPException 404 (lit "Asset not found"))
      else
        resolved <-! path_resolve fs asset_path;
        root <-! path_resolve fs assets_dir;
        if negb (startswith (path_str root) (path_str resolved))
        then Raise (HTTPException 403 (lit "Invalid asset path"))
        else Ok {| served := resolved;
                   media_type := media_type_of filepath |}
  end.

(** A path lies inside a directory when the components of the
    directory are a prefix of its own. *)
Definition inside (dir p : list str) : Prop := dir `prefix_of` p.

End Preview.

(** * Further functions of the same files *)

(** ** More string primitives *)

Module PyText.
Import Py.

(** [c.lower()] on code points below 256: the letters A-Z and the
    capital letters of Latin-1 move by 32. *)
Definition lower_char (c : ascii) : ascii :=
  if in_range 65 90 c || in_range 192 214 c || in_range 216 222 c
  then ascii_of_N (N_of_ascii c + 32) else c.

(** [s.lower()] *)
Definition lower (s : str) : str := lower_char <$> s.

(** [sub in s] on strings. *)
Fixpoint contains (sub s : str) : bool :=
  startswith sub s
  || match s with
     | [] => false
     | _ :: s' => contains sub s'
     end.

(** [d.get(k)] on a dict with string keys written as texts. *)
Fixpoint dict_get {V} (k : str) (d : list (str * V)) : option V :=
  match d with
  | [] => None
  | (k', v) :: d' => if decide (k = k') then Some v else dict_get k d'
  end.

(** [l[1:-1]] *)
Definition inner {A} (l : list A) : list A := removelast (tail l).

Definition newline : ascii := "010"%char.

End PyText.

(** ** Code validator: missing packages and the healing call
    ([backend/app/libs/code_validator.py]) *)

Module Healing.
Import Py PyText CodeValidator.

Definition PYTHON_IMPORT_TO_PACKAGE : list (str * str) :=
  [(lit "requests", lit "requests"); (lit "numpy", lit "numpy");
   (lit "pandas", lit "pandas"); (lit "sklearn", lit "scikit-learn");
   (lit "PIL", lit "Pillow"); (lit "cv2", lit "opencv-python");
   (lit "bs4", lit "beautifulsoup4"); (lit "yaml", lit "pyyaml");
   (lit "dotenv", lit "python-dotenv"); (lit "jwt", lit "pyjwt");
   (lit "openai", lit "openai"); (lit "anthropic", lit "anthropic");
   (lit "stripe", lit "stripe"); (lit "httpx", lit "httpx");
   (lit "asyncpg", lit "asyncpg"); (lit "sqlalchemy", lit "sqlalchemy");
   (lit "redis", lit "redis"); (lit "celery", lit "celery");
   (lit "scrapy", lit "scrapy")].

Definition _STANDARD_LIBRARY_MODULES : list str :=
  lit <$>
  ["abc"; "aifc"; "argparse"; "array"; "ast"; "asynchat"; "asyncio";
   "asyncore"; "atexit"; "audioop"; "base64"; "bdb"; "binascii";
   "binhex"; "bisect"; "builtins"; "bz2"; "calendar"; "cgi"; "cgitb";
   "chunk"; "cmath"; "cmd"; "code"; "codecs"; "codeop"; "collections";
   "colorsys"; "compileall"; "concurrent"; "configparser"; "contextlib";
   "contextvars"; "copy"; "copyreg"; "crypt"; "csv"; "ctypes"; "curses";
   "dataclasses"; "datetime"; "dbm"; "decimal"; "difflib"; "dis";
   "distutils"; "doctest"; "email"; "encodings"; "enum"; "errno";
   "faulthandler"; "fcntl"; "filecmp"; "fileinput"; "fnmatch";
   "formatter"; "fractions"; "ftplib"; "functools"; "gc"; "getopt";
   "getpass"; "gettext"; "glob"; "graphlib"; "grp"; "gzip"; "hashlib";
   "heapq"; "hmac"; "html"; "http"; "imaplib"; "imghdr"; "imp";
   "importlib"; "inspect"; "io"; "ipaddress"; "itertools"; "json";
   "keyword"; "lib2to3"; "linecache"; "locale"; "lzma"; "mailbox";
   "mailcap"; "marshal"; "math"; "mimetypes"; "mmap"; "modulefinder";
   "multiprocessing"; "netrc"; "nis"; "nntplib"; "numbers"; "operator";
   "optparse"; "os"; "ossaudiodev"; "parser"; "pathlib"; "pdb"; "pickle";
   "pickletools"; "pipes"; "pkgutil"; "platform"; "plistlib"; "poplib";
   "posix"; "posixpath"; "pprint"; "profile"; "pstats"; "pty"; "pwd";
   "py_compile"; "pyclbr"; "pydoc"; "queue"; "quopri"; "random"; "re";
   "readline"; "reprlib"; "resource"; "rlcompleter"; "runpy"; "sched";
   "secrets"; "select"; "selectors"; "shelve"; "shlex"; "shutil";
   "signal"; "site"; "smtpd"; "smtplib"; "sndhdr"; "socket";
   "socketserver"; "spwd"; "sqlite3"; "ssl"; "stat"; "statistics";
   "string"; "stringprep"; "struct"; "subprocess"; "sunau"; "symbol";
   "symtable"; "sys"; "sysconfig"; "syslog"; "tabnanny"; "tarfile";
   "telnetlib"; "tempfile"; "termios"; "test"; "textwrap"; "threading";
   "time"; "timeit"; "tkinter"; "token"; "tokenize"; "tomllib"; "trace";
   "traceback"; "tracemalloc"; "tty"; "turtle"; "turtledemo"; "types";
   "typing"; "unicodedata"; "unittest"; "urllib"; "uu"; "uuid"; "venv";
   "warnings"; "wave"; "weakref"; "webbrowser"; "winreg"; "winsound";
   "wsgiref"; "xdrlib"; "xml"; "xmlrpc"; "zipapp"; "zipfile";
   "zipimport"; "zlib"; "zoneinfo"; "fastapi"; "pydantic"; "uvicorn";
   "starlette"]%string.

(** [def get_missing_packages(imports, installed_packages)] *)
Definition get_missing_packages (imports installed_packages : list str)
  : list str :=
  let installed_lower := lower <$> installed_packages in
  fold_left
    (λ missing import_name,
       if bool_decide (import_name ∈ _STANDARD_LIBRARY_MODULES) then missing
       else
         let package_name :=
           default import_name
             (dict_get import_name PYTHON_IMPORT_TO_PACKAGE) in
         if bool_decide (lower package_name ∈ installed_lower) then missing
         else missing ++ [package_name])
    imports [].

(** One line of [error_details] in the prompt. *)
Definition error_line (err : ValidationError) : str :=
  lit "- Line " ++ AgentTools.line_number_str err ++ lit ": "
  ++ message err ++ AgentTools.suggestion_suffix err.

Definition healing_system : str :=
  lit "You are a precise code fixing assistant. Fix syntax errors without changing logic.".

(** The f-string [prompt]. *)
Definition healing_prompt (language error_details broken_code : str) : str :=
  lit "You are a code fixing assistant. Fix the syntax errors in this "
  ++ language ++ lit " code.

**Errors Found:**
" ++ error_details ++ lit "

**Broken Code:**
```" ++ language ++ lit "
" ++ broken_code ++ lit "
```

**Instructions:**
1. Fix ONLY the syntax errors mentioned above
2. Do NOT change the logic or add new features
3. Preserve all comments and formatting
4. Return ONLY the fixed code without explanations or markdown
5. Do NOT wrap the code in code blocks (```)

**Fixed Code:**".

Definition fence : str := lit "```".

(** [async def auto_heal_code(broken_code, validation_errors, language)].
    [create] is the call of the model on the system text and the prompt,
    with [response.choices[0].message.content] as its result ([None]
    when the message has no content); [exn_text] is [str(e)]. *)
Definition auto_heal_code (create : str -> str -> result (option str))
    (exn_text : exn -> str) (broken_code : str)
    (validation_errors : list ValidationError) (language : string)
  : result str :=
  let error_details :=
    join [newline] (error_line <$> validation_errors) in
  let prompt := healing_prompt (lit language) error_details broken_code in
  try_except
    (content <-! create healing_system prompt;
     match content with
     | None =>
         Raise (OtherError
                  (lit "'NoneType' object has no attribute 'startswith'"))
     | Some fixed_code =>
         let fixed_code :=
           if startswith fence fixed_code then
             let lines := split newline fixed_code in
             join [newline] (inner lines)
           else fixed_code in
         Ok (strip fixed_code)
     end)
    (λ e, Raise (OtherError
                   (lit "AI auto-healing failed: " ++ exn_text e))).

End Healing.

(** ** File tools: updating and reading
    ([backend/app/apis/ai_agent_tools/__init__.py]) *)

Module FileTools.
Import Py.




(** The condition [project_id = $3 AND filepath = $4] of the queries. *)
Definition matches (pid : string) (filepath : str) (r : AgentTools.file_row)
  : bool :=
  bool_decide (AgentTools.row_project_id r = pid
               ∧ AgentTools.row_filepath r = filepath).




(** The dict built for a row by [read_files]. *)
Definition file_dict (r : AgentTools.file_row) : json :=
  JObj [("id", JStr (lit (AgentTools.row_id r)));
        ("file_path", JStr (AgentTools.row_filepath r));
        ("file_content", JStr (AgentTools.row_content r));
        ("language", match AgentTools.row_language r with
                     | Some l => JStr (lit l)
                     | None => JNull
                     end);
        ("is_active", JBool true)]%string.

(** The body of [try: ... finally: await conn.close()] in
    [read_files]. *)
Definition read_stored (E : AgentTools.env)
    (order_by : list AgentTools.file_row -> list AgentTools.file_row)
    (project_id : string) (file_path : option str)
    (db : list AgentTools.file_row) : result json :=
  pid <-! AgentTools.parse_uuid E project_id;
  match file_path with
  | Some (c :: path) =>
      match list_find (λ r, matches pid (c :: path) r = true) db with
      | None => Raise (HTTPException 404 (lit "File not found"))
      | Some (_, file) =>
          Ok (JObj [("success", JBool true); ("file", file_dict file)]%string)
      end
  | _ =>
      Ok (JObj [("success", JBool true);
                ("files",
                 JList (file_dict
                          <$> order_by
                                (filter
                                   (λ r, AgentTools.row_project_id r = pid)
                                   db)))]%string)
  end.

(** [async def read_files(project_id, file_path=None)]; [order_by] is
    the order the database gives to [ORDER BY filepath], and the row
    [fetchrow] hands back is the first that matches. *)
Definition read_files (E : AgentTools.env)
    (order_by : list AgentTools.file_row -> list AgentTools.file_row)
    (project_id : string) (file_path : option str)
    (db : list AgentTools.file_row) : result json :=
  _ <-! AgentTools.get_db_connection E;
  let body := read_stored E order_by project_id file_path db in
  (* finally: await conn.close() *)
  match AgentTools.close_connection E with
  | Ok _ => body
  | Raise e => Raise e
  end.

End FileTools.

(** ** Package manager ([backend/app/apis/package_manager/__init__.py]) *)

Module PackageManager.
Import Py.

(** [class InstallPackagesRequest] *)
Record InstallPackagesRequest := {
  packages : list str;
  package_manager : str
}.

(** The three texts of [message]; two of them open with a sign outside
    Latin-1. *)
Inductive install_message :=
| NoPackages                 (** [No packages to install] *)
| InstalledCount (n : nat)   (** the check mark and [Installed n package(s)] *)
| FailedCount (n : nat).     (** the warning sign and [Failed: n package(s)] *)

(** [class InstallPackagesResponse] *)
Record InstallPackagesResponse := {
  success : bool;
  installed_packages : list str;
  failed_packages : list str;
  message : install_message;
  details : option str
}.

(** What [subprocess.run(..., capture_output=True, text=True)] returns. *)
Record completed := {
  returncode : Z;
  stdout : str;
  stderr : str
}.

(** The dict returned by the two installers. *)
Record install_result := {
  ok : bool;
  installed : list str;
  failed : list str;
  result_details : str
}.

(** The body shared by [install_pip_packages] and
    [install_npm_packages]: they differ by the command and the working
    directory.  [run] is [subprocess.run] on the command and the
    directory, [exn_text] is [str(e)]. *)
Definition install_with (run : list str -> str -> result completed)
    (exn_text : exn -> str) (command : list str) (cwd : str)
    (packages : list str) : result install_result :=
  try_except
    (result <-! run (command ++ packages) cwd;
     let details := [lit "STDOUT: " ++ stdout result] in
     if decide (returncode result ≠ 0%Z) then
       let details := details ++ [lit "STDERR: " ++ stderr result] in
       Ok {| ok := false; installed := []; failed := packages;
             result_details := join (lit "
") details |}
     else
       Ok {| ok := true; installed := packages; failed := [];
             result_details := join (lit "
") details |})
    (λ e, Ok {| ok := false; installed := []; failed := packages;
                result_details := lit "Error: " ++ exn_text e |}).

(** [async def install_pip_packages(packages)] *)
Definition install_pip_packages (run : list str -> str -> result completed)
    (exn_text : exn -> str) (packages : list str) : result install_result :=
  install_with run exn_text [lit "uv"; lit "pip"; lit "install"]
    (lit "/disk/backend") packages.

(** [async def install_npm_packages(packages)] *)
Definition install_npm_packages (run : list str -> str -> result completed)
    (exn_text : exn -> str) (packages : list str) : result install_result :=
  install_with run exn_text [lit "yarn"; lit "add"]
    (lit "/disk/frontend") packages.

(** [async def install_packages_endpoint(request)] *)
Definition install_packages_endpoint
    (run : list str -> str -> result completed) (exn_text : exn -> str)
    (request : InstallPackagesRequest) : result InstallPackagesResponse :=
  match packages request with
  | [] =>
      Ok {| success := true; installed_packages := [];
            failed_packages := []; message := NoPackages;
            details := None |}
  | _ =>
      result <-!
        (if decide (package_manager request = lit "pip") then
           install_pip_packages run exn_text (packages request)
         else if decide (package_manager request = lit "npm") then
           install_npm_packages run exn_text (packages request)
         else
           Raise (HTTPException 400
                    (lit "Invalid package manager: "
                     ++ package_manager request)));
      let message :=
        if ok result then InstalledCount (length (installed result))
        else FailedCount (length (failed result)) in
      Ok {| success := ok result;
            installed_packages := installed result;
            failed_packages := failed result;
            message := message;
            details := Some (result_details result) |}
  end.

End PackageManager.

(** ** Preview builder: the packages of a project
    ([backend/app/apis/preview/__init__.py]) *)

Module PreviewPackages.
Import Py PyText.

(** A loop whose body can raise. *)
Fixpoint for_each {A B} (body : B -> A -> result B) (l : list A) (b : B)
  : result B :=
  match l with
  | [] => Ok b
  | x :: l' => b' <-! body b x; for_each body l' b'
  end.

(** The dict returned by [install_packages_in_project]. *)
Record project_install := {
  success : bool;
  installed : list str;
  failed : list (str * str);   (** [{"package": ..., "error": ...}] *)
  note : option str
}.

(** One turn of the loop over the packages: the [try] around
    [subprocess.run] with its [except Exception]. *)
Definition install_one (run : str -> result PackageManager.completed)
    (exn_text : exn -> str) (lists : list str * list (str * str))
    (package : str) : result (list str * list (str * str)) :=
  let '(installed, failed) := lists in
  try_except
    (result <-! run package;
     if decide (PackageManager.returncode result = 0%Z) then
       Ok (installed ++ [package], failed)
     else
       Ok (installed, failed ++ [(package, PackageManager.stderr result)]))
    (λ e, Ok (installed, failed ++ [(package, exn_text e)])).

(** [async def install_packages_in_project(project_id, packages)] on
    the text of the manifest of the workspace, [None] when the file does
    not exist: the text afterwards and the dict returned.  [uv_exists]
    is [uv_path.exists()] and [run package] is [subprocess.run] on
    [[uv, "pip", "install", package]]. *)
Definition install_packages_in_project (manifest : option str)
    (uv_exists : bool) (run : str -> result PackageManager.completed)
    (exn_text : exn -> str) (packages : list str)
  : option str * result project_install :=
  (* await update_project_pyproject(project_id, packages) *)
  let manifest :=
    (λ content, Preview.update_project_pyproject content packages)
      <$> manifest in
  if negb uv_exists then
    (manifest,
     Ok {| success := true; installed := []; failed := [];
           note := Some (lit "Packages added to pyproject.toml. uv not found in RIFF venv.") |})
  else
    (manifest,
     lists <-! for_each (install_one run exn_text) packages ([], []);
     Ok {| success := bool_decide (length lists.2 = 0);
           installed := lists.1; failed := lists.2; note := None |}).

(** [k in container] for a text [k]. *)
Definition text_in (k : str) (container : json) : result bool :=
  match container with
  | JObj d => Ok (bool_decide (is_Some (assoc (string_of_list_ascii k) d)))
  | JList l =>
      Ok (existsb (λ x, match x with
                        | JStr s => bool_decide (s = k)
                        | _ => false
                        end) l)
  | JStr s => Ok (contains k s)
  | _ => Raise (OtherError (lit "TypeError: argument is not iterable"))
  end.

(** [d[k] = v] on the fields of a dict: the place of a key that is
    present is kept, a new key goes to the end. *)
Fixpoint put {V} (k : string) (v : V) (d : list (string * V))
  : list (string * V) :=
  match d with
  | [] => [(k, v)]
  | (k', v') :: d' =>
      if String.eqb k k' then (k, v) :: d' else (k', v') :: put k v d'
  end.

(** [container[k] = v] for a text [k]. *)
Definition setitem (container : json) (k : str) (v : json) : result json :=
  match container with
  | JObj d => Ok (JObj (put (string_of_list_ascii k) v d))
  | _ => Raise (OtherError
                  (lit "TypeError: object does not support item assignment"))
  end.

(** [container[k]] for a text [k]. *)
Definition getitem (container : json) (k : str) : result json :=
  match container with
  | JObj d =>
      match assoc (string_of_list_ascii k) d with
      | Some v => Ok v
      | None => Raise (OtherError (lit "KeyError: " ++ k))
      end
  | _ => Raise (OtherError (lit "TypeError: bad index"))
  end.

(** The body of [for pkg in packages] in [update_project_package_json]. *)
Definition add_dependency (package_data : json) (pkg : str) : result json :=
  dependencies <-! getitem package_data (lit "dependencies");
  present <-! text_in pkg dependencies;
  if present then Ok package_data
  else
    dependencies <-! setitem dependencies pkg (JStr (lit "latest"));
    setitem package_data (lit "dependencies") dependencies.

(** [async def update_project_package_json(project_id, packages)] on
    what [json.load] gives for the file [package.json] of the workspace,
    [None] when the file does not exist: what [json.dump] writes back.
    The file is opened for writing after the loop, so an exception
    leaves it as it was. *)
Definition update_project_package_json (package_json : option json)
    (packages : list str) : result (option json) :=
  match package_json with
  | None => Ok None
  | Some package_data =>
      present <-! text_in (lit "dependencies") package_data;
      package_data <-!
        (if present then Ok package_data
         else setitem package_data (lit "dependencies") (JObj []));
      package_data <-! for_each add_dependency packages package_data;
      Ok (Some package_data)
  end.

End PreviewPackages.

(** ** The tool registry ([backend/app/libs/ai_tool_registry.py]) *)

Module ToolRegistry.

(** An entry of the list [get_all_tools] returns: the name of the
    function, the keys of [parameters.properties] in their order and the
    list [parameters.required].  Every entry has the type [function]; the
    descriptions and the types of the properties are texts for the model
    and are not kept. *)
Record tool := {
  name : string;
  properties : list string;
  required : list string
}.

(** [def get_all_tools()] *)
Definition get_all_tools : list tool :=
  [ {| name := "create_task";
       properties := ["title"; "description"; "priority"; "status"];
       required := ["title"; "description"] |};
    {| name := "update_task";
       properties := ["task_id"; "title"; "description"; "status";
                      "priority"];
       required := ["task_id"] |};
    {| name := "list_tasks"; properties := []; required := [] |};
    {| name := "delete_task";
       properties := ["task_id"]; required := ["task_id"] |};
    {| name := "add_task_comment";
       properties := ["task_id"; "comment"; "comment_type"];
       required := ["task_id"; "comment"] |};
    {| name := "create_file";
       properties := ["file_path"; "file_content"; "file_type";
                      "description"];
       required := ["file_path"; "file_content"; "file_type"] |};
    {| name := "update_file";
       properties := ["file_id"; "file_content"; "description"];
       required := ["file_id"; "file_content"] |};
    {| name := "read_files"; properties := []; required := [] |};
    {| name := "search_code";
       properties := ["query"]; required := ["query"] |};
    {| name := "delete_file";
       properties := ["file_id"]; required := ["file_id"] |};
    {| name := "get_project_stats"; properties := []; required := [] |};
    {| name := "get_file_tree"; properties := []; required := [] |};
    {| name := "run_sql_query";
       properties := ["query"; "query_type"];
       required := ["query"; "query_type"] |};
    {| name := "get_sql_schema"; properties := []; required := [] |};
    {| name := "run_migration";
       properties := ["migration_name"; "sql"];
       required := ["migration_name"; "sql"] |};
    {| name := "run_python_script";
       properties := ["script"; "description"];
       required := ["script"] |};
    {| name := "read_logs";
       properties := ["level"; "limit"]; required := [] |};
    {| name := "test_endpoint";
       properties := ["endpoint_path"; "method"; "test_data"];
       required := ["endpoint_path"; "method"] |};
    {| name := "troubleshoot";
       properties := ["error_message"; "context"];
       required := ["error_message"] |};
    {| name := "enable_integration";
       properties := ["integration_name"; "config"];
       required := ["integration_name"] |};
    {| name := "list_integrations"; properties := []; required := [] |};
    {| name := "install_packages";
       properties := ["packages"; "package_manager"];
       required := ["packages"; "package_manager"] |};
    {| name := "visualize_data";
       properties := ["data"; "chart_type"; "title"];
       required := ["data"; "chart_type"] |};
    {| name := "request_data";
       properties := ["message"; "data_type"];
       required := ["message"; "data_type"] |}
  ]%string.

(** [def get_tool_by_name(tool_name)]: the first entry with that name. *)
Definition get_tool_by_name (tool_name : string) : option tool :=
  snd <$> list_find (λ t, name t = tool_name) get_all_tools.

End ToolRegistry.

(** ** How [execute_tool] reaches the endpoints

    What a branch of [execute_tool] does before the body of the endpoint
    runs: it imports names from a module, builds the request model from
    keyword arguments or gives the keyword arguments to the endpoint
    itself, and calls the endpoint.  Each of these steps can raise,
    whatever the values of the arguments are. *)

Module ToolBinding.
Import Py Orchestrator.

(** A parameter of a function, or a field of a request model, and
    whether it has a default. *)
Record parameter := {
  p_name : string;
  has_default : bool
}.

Definition req (n : string) : parameter :=
  {| p_name := n; has_default := false |}.
Definition opt (n : string) : parameter :=
  {| p_name := n; has_default := true |}.

Definition ai_agent_tools : string := "app.apis.ai_agent_tools".
Definition package_manager : string := "app.apis.package_manager".
Definition preview : string := "app.apis.preview".

(** The names bound at the top level of the three modules the branches
    import from: their imports, classes, functions and variables. *)
Definition defined_names : list (string * list string) :=
  [ (ai_agent_tools,
     ["asyncio"; "json"; "os"; "subprocess"; "sys"; "traceback"; "datetime";
      "StringIO"; "Path"; "Any"; "Optional"; "UUID"; "uuid4"; "asyncpg";
      "APIRouter"; "HTTPException"; "StreamingResponse"; "BaseModel";
      "Field"; "create_backend_workspace"; "get_db_connection";
      "AIOrchestrator"; "ChatRole"; "TaskPriority"; "TaskStatus";
      "validate_python_syntax"; "validate_typescript_syntax";
      "ValidationResult"; "router"; "CreateTaskRequest";
      "UpdateTaskRequest"; "AddTaskCommentRequest"; "CreateFileRequest";
      "UpdateFileRequest"; "SearchCodeRequest"; "RunMigrationRequest";
      "RunSQLQueryRequest"; "RunPythonScriptRequest"; "TestEndpointRequest";
      "TroubleshootRequest"; "AddChatMessageRequest";
      "VisualizeDataRequest"; "RequestDataRequest"; "ToolResponse";
      "create_task"; "update_task"; "list_tasks"; "delete_task";
      "add_task_comment"; "get_project_errors"; "get_open_errors";
      "CreateFileResponse"; "create_file"; "update_file"; "read_files";
      "search_code"; "delete_file"; "test_error_feedback_loop";
      "chat_stream"; "add_chat_message"; "get_chat_history"; "init_project";
      "get_file_tree"; "get_project_stats"; "run_migration_endpoint";
      "run_sql_query"; "get_sql_schema"; "run_python_script"; "read_logs";
      "test_endpoint"; "troubleshoot"; "EnableIntegrationRequest";
      "enable_integration"; "list_integrations"; "visualize_data";
      "request_data"]);
    (package_manager,
     ["re"; "subprocess"; "Path"; "List"; "Dict"; "Any"; "Optional";
      "BaseModel"; "APIRouter"; "HTTPException"; "router";
      "InstallPackagesRequest"; "InstallPackagesResponse";
      "PYTHON_PACKAGE_MAPPING"; "PYTHON_BUILTINS"; "install_pip_packages";
      "install_npm_packages"; "install_packages_endpoint"]);
    (preview,
     ["asyncpg"; "json"; "os"; "subprocess"; "re"; "asyncio"; "traceback";
      "Path"; "Dict"; "Optional"; "Any"; "APIRouter"; "HTTPException";
      "BackgroundTasks"; "FileResponse"; "HTMLResponse"; "JSONResponse";
      "BaseModel"; "router"; "DATABASE_URL"; "BUILD_CACHE";
      "WORKSPACE_BASE"; "_create_venv_background";
      "create_backend_workspace"; "parse_and_report_build_errors";
      "detect_python_imports"; "detect_npm_imports";
      "install_packages_in_project"; "update_project_pyproject";
      "update_project_package_json"; "test_package_installation";
      "test_preview"; "create_project_backend"; "simple_preview";
      "build_preview"; "serve_preview"; "serve_preview_assets"])
  ]%string.

(** The fields of the request models, those of [BaseModel] classes
    without a configuration of their own: a field without a default, or
    with [Field(...)], is required, and a keyword that names no field is
    ignored. *)
Definition models : list (string * list parameter) :=
  [ ("CreateTaskRequest",
     [req "project_id"; req "title"; opt "description"; opt "priority";
      opt "order_index"]);
    ("UpdateTaskRequest",
     [req "task_id"; opt "title"; opt "description"; opt "status";
      opt "priority"; opt "order_index"]);
    ("AddTaskCommentRequest",
     [req "task_id"; req "comment"; opt "comment_type"]);
    ("CreateFileRequest",
     [req "project_id"; req "file_path"; req "file_content";
      opt "language"; opt "file_type"]);
    ("UpdateFileRequest",
     [req "project_id"; req "file_path"; req "file_content";
      opt "language"]);
    ("SearchCodeRequest", [req "project_id"; req "keywords"]);
    ("RunMigrationRequest",
     [req "project_id"; req "migration_name"; req "sql"]);
    ("RunSQLQueryRequest", [req "project_id"; req "query"; opt "params"]);
    ("RunPythonScriptRequest",
     [req "project_id"; req "code"; opt "timeout"]);
    ("TestEndpointRequest",
     [req "project_id"; req "endpoint_path"; opt "method"; opt "body";
      opt "query_params"]);
    ("TroubleshootRequest",
     [req "project_id"; req "error_message"; opt "error_type";
      opt "stack_trace"; opt "context"]);
    ("AddChatMessageRequest",
     [req "project_id"; req "content"; opt "role"; opt "metadata"]);
    ("VisualizeDataRequest",
     [req "project_id"; req "chart_type"; req "data"; req "data_keys";
      opt "title"; opt "options"]);
    ("RequestDataRequest",
     [req "project_id"; req "message"; opt "data_type"]);
    ("EnableIntegrationRequest",
     [req "project_id"; req "integration_name"; opt "config"]);
    ("InstallPackagesRequest", [req "packages"; req "package_manager"])
  ]%string.

(** The signatures of the endpoint functions the branches await. *)
Definition signatures : list (string * list parameter) :=
  [ ("create_task", [req "request"]);
    ("update_task", [req "request"]);
    ("list_tasks", [req "project_id"]);
    ("delete_task", [req "task_id"]);
    ("add_task_comment", [req "request"]);
    ("get_open_errors", [req "project_id"]);
    ("create_file", [req "request"]);
    ("update_file", [req "request"]);
    ("read_files", [req "project_id"; opt "file_path"]);
    ("search_code", [req "request"]);
    ("delete_file", [req "project_id"; req "file_path"]);
    ("run_migration_endpoint", [req "request"]);
    ("run_sql_query", [req "request"]);
    ("get_sql_schema", [req "project_id"]);
    ("run_python_script", [req "request"]);
    ("read_logs", [req "project_id"; opt "limit"; opt "level"]);
    ("test_endpoint", [req "request"]);
    ("troubleshoot", [req "request"]);
    ("enable_integration", [req "request"]);
    ("visualize_data", [req "request"]);
    ("request_data", [req "request"]);
    ("install_packages_endpoint", [req "request"]);
    ("build_preview", [req "project_id"])
  ]%string.

(** What the branch that awaits an endpoint imports, and from where, and
    the request model it builds, if it builds one.  A branch with a
    request model gives its keyword arguments to the model and the model
    to the endpoint, as its only argument; a branch without one gives
    them to the endpoint.  The branches of [trigger_build] and
    [get_open_errors] give [self.project_id] by position to a function
    whose first parameter is [project_id], which binds as the keyword
    does. *)
Record import_and_call := {
  from_module : string;
  imported : list string;
  request_model : option string
}.

Definition with_model (model endpoint : string) : import_and_call :=
  {| from_module := ai_agent_tools; imported := [model; endpoint];
     request_model := Some model |}.

Definition direct (endpoint : string) : import_and_call :=
  {| from_module := ai_agent_tools; imported := [endpoint];
     request_model := None |}.

Definition calls : list (string * import_and_call) :=
  [ ("create_task", with_model "CreateTaskRequest" "create_task");
    ("update_task", with_model "UpdateTaskRequest" "update_task");
    ("list_tasks", direct "list_tasks");
    ("delete_task", direct "delete_task");
    ("add_task_comment",
     with_model "AddTaskCommentRequest" "add_task_comment");
    ("create_file", with_model "CreateFileRequest" "create_file");
    ("update_file", with_model "UpdateFileRequest" "update_file");
    ("read_files", direct "read_files");
    ("search_code", with_model "SearchCodeRequest" "search_code");
    ("delete_file", with_model "DeleteFileRequest" "delete_file");
    ("run_migration_endpoint",
     with_model "RunMigrationRequest" "run_migration_endpoint");
    ("run_sql_query", with_model "RunSQLQueryRequest" "run_sql_query");
    ("get_sql_schema", direct "get_sql_schema");
    ("run_python_script",
     with_model "RunPythonScriptRequest" "run_python_script");
    ("read_logs", direct "read_logs");
    ("test_endpoint", with_model "TestEndpointRequest" "test_endpoint");
    ("troubleshoot", with_model "TroubleshootRequest" "troubleshoot");
    ("enable_integration",
     with_model "EnableIntegrationRequest" "enable_integration");
    ("install_packages_endpoint",
     {| from_module := package_manager;
        imported := ["InstallPackagesRequest"; "install_packages_endpoint"];
        request_model := Some "InstallPackagesRequest" |});
    ("visualize_data", with_model "VisualizeDataRequest" "visualize_data");
    ("request_data", with_model "RequestDataRequest" "request_data");
    ("build_preview",
     {| from_module := preview; imported := ["build_preview"];
        request_model := None |});
    ("get_open_errors", direct "get_open_errors");
    ("resolve_error", direct "resolve_error")
  ]%string.

(** The exceptions of the three steps.  All are instances of
    [Exception]; the text names the class and what the step stumbled on,
    where Python's own text says more (the file of the module, the list
    of the missing fields). *)
Definition import_error (module name : string) : exn :=
  OtherError (lit "ImportError: cannot import name '" ++ lit name
              ++ lit "' from '" ++ lit module ++ lit "'").

Definition validation_error (model field : string) : exn :=
  OtherError (lit "ValidationError: " ++ lit model ++ lit ": " ++ lit field
              ++ lit ": Field required").

Definition unexpected_keyword (function keyword : string) : exn :=
  OtherError (lit "TypeError: " ++ lit function
              ++ lit "() got an unexpected keyword argument '"
              ++ lit keyword ++ lit "'").

Definition missing_argument (function name : string) : exn :=
  OtherError (lit "TypeError: " ++ lit function
              ++ lit "() missing 1 required positional argument: '"
              ++ lit name ++ lit "'").

(** The required parameters that [given] leaves out. *)
Definition missing (given : list string) (ps : list parameter)
  : list string :=
  p_name <$> filter (λ p, has_default p = false ∧ p_name p ∉ given) ps.

(** [from module import names] *)
Definition import_from (module : string) (names : list string)
  : option exn :=
  let defined := default [] (assoc module defined_names) in
  match filter (λ n, n ∉ defined) names with
  | n :: _ => Some (import_error module n)
  | [] => None
  end.

(** The construction of a request model from keyword arguments. *)
Definition construct (model : string) (keywords : list string)
  : option exn :=
  match missing keywords (default [] (assoc model models)) with
  | f :: _ => Some (validation_error model f)
  | [] => None
  end.

(** The binding of the arguments of a call of [function] to its
    parameters, [positional] being the number of the arguments given by
    position and [keywords] the names of those given by keyword. *)
Definition bind_arguments (function : string) (positional : nat)
    (keywords : list string) : option exn :=
  let ps := default [] (assoc function signatures) in
  match filter (λ k, k ∉ p_name <$> ps) keywords with
  | k :: _ => Some (unexpected_keyword function k)
  | [] =>
      match missing keywords (drop positional ps) with
      | n :: _ => Some (missing_argument function n)
      | [] => None
      end
  end.

(** The exception that the branch awaiting [endpoint] raises before the
    body of the endpoint runs, when it gives the keywords [keywords]. *)
Definition binding_error (endpoint : string) (keywords : list string)
  : option exn :=
  match assoc endpoint calls with
  | None => None
  | Some c =>
      match import_from (from_module c) (imported c) with
      | Some e => Some e
      | None =>
          match request_model c with
          | Some model =>
              match construct model keywords with
              | Some e => Some e
              | None => bind_arguments endpoint 1 []
              end
          | None => bind_arguments endpoint 0 keywords
          end
      end
  end.

(** The endpoints of [E] behind the imports, the request models and the
    signatures of the source: the body of an endpoint runs only when the
    branch reaches it. *)
Definition bound (E : tool_env) : tool_env :=
  {| call := λ endpoint arguments,
       match binding_error endpoint (fst <$> arguments) with
       | Some e => Raise e
       | None => call E endpoint arguments
       end;
     exn_text := exn_text E;
     format_exc := format_exc E |}.

End ToolBinding.

(** ** Resetting the stored context
    ([backend/app/libs/ai_context_loader.py]) *)

Module ContextMemory.
Import Py ContextLoader.

(** [async def reset_memory(self)]: the row of the project is deleted
    from [agent_context]. *)
Definition reset_memory (entered : bool) (project_id : string)
    (agent_context : gmap string (gmap string value))
  : result (gmap string (gmap string value)) :=
  if negb entered then
    Raise (OtherError
             (lit "AIContextLoader must be used as async context manager"))
  else Ok (delete project_id agent_context).

End ContextMemory.

(** ** Error recovery ([AIOrchestrator.recover_from_error] in
    [backend/app/libs/ai_orchestrator.py]) *)

Module Recovery.
Import Py PyText Orchestrator.

(** The chunks [recover_from_error] yields; those of the tool loop are
    passed on as they come. *)
Inductive recovery_chunk :=
| Activated                            (** [Error Recovery Mode Activated] *)
| ErrorIs (error_message : str)        (** [Error: `...`] *)
| RetryAttempt (retry_count max_retries : nat)
| FromTools (c : chunk)
| FixAttemptCompleted                  (** [Fix attempt completed] *)
| FixAttemptFailed (retry_count : nat) (text : str)
| Recovered                            (** [Error successfully recovered!] *)
| CouldNotFix (max_retries : nat)      (** [Could not auto-fix after n attempts.] *)
| ManualIntervention.                  (** [Manual intervention may be required.] *)

Definition nl : str := [newline].

(** The message built before the loop. *)
Definition first_error_context (error_message : str)
    (stack_trace : option str) (context_text : option str) : str :=
  lit "An error occurred:" ++ nl ++ nl
  ++ lit "Error Message: " ++ error_message ++ nl ++ nl
  ++ match stack_trace with
     | Some (c :: trace) =>
         lit "Stack Trace:" ++ nl ++ lit "```" ++ nl ++ (c :: trace) ++ nl
         ++ lit "```" ++ nl ++ nl
     | _ => []
     end
  ++ match context_text with
     | Some dumped => lit "Context: " ++ dumped ++ nl ++ nl
     | None => []
     end
  ++ lit "Please:" ++ nl
  ++ lit "1. Analyze the error" ++ nl
  ++ lit "2. Use the troubleshoot tool to get diagnostic information" ++ nl
  ++ lit "3. Identify the root cause" ++ nl
  ++ lit "4. Suggest and implement a fix" ++ nl
  ++ lit "5. Verify the fix works" ++ nl.

(** The message for the attempt after one that failed with [text]. *)
Definition next_error_context (text error_context : str) : str :=
  lit "Previous fix failed with: " ++ text ++ nl ++ nl
  ++ lit "Please try a different approach." ++ nl ++ nl ++ error_context.

(** How the generator ended: with the fix taken as made, with all
    attempts used, or by an exception that left it. *)
Inductive outcome :=
| Fixed
| GaveUp
| Escaped (e : exn).

Record recovery := {
  dialog : list message;           (** [self.conversation_history] *)
  chunks : list recovery_chunk;
  calls : nat;                     (** calls of the model *)
  attempts : nat;                  (** [retry_count] *)
  outcome_of : outcome
}.

(** [while retry_count < max_retries and not fixed: ...], which runs at
    most [max_retries - retry_count] times; [fuel] bounds it. *)
Fixpoint retry_loop (E : env) (debugging_prompt : str) (max_retries : nat)
    (fuel : nat) (retry_count : nat) (error_context : str)
    (st : recovery) : recovery :=
  match fuel with
  | O => {| dialog := dialog st; chunks := chunks st; calls := calls st;
            attempts := retry_count; outcome_of := GaveUp |}
  | S fuel' =>
      if decide (retry_count < max_retries) then
        let retry_count := retry_count + 1 in
        let yielded :=
          if decide (1 < retry_count)
          then chunks st ++ [RetryAttempt retry_count max_retries]
          else chunks st in
        let r := stream_with_tools E error_context debugging_prompt
                   default_max_iterations (dialog st) in
        let yielded := yielded ++ (FromTools <$> Orchestrator.yielded (final r)) in
        let st := {| dialog := conversation_history (final r);
                     chunks := yielded;
                     calls := calls st + model_calls (final r);
                     attempts := retry_count;
                     outcome_of := outcome_of st |} in
        match ended r with
        | Raised e =>
            if is_Exception e then
              let text := exn_text (tools E) e in
              retry_loop E debugging_prompt max_retries fuel' retry_count
                (next_error_context text error_context)
                {| dialog := dialog st;
                   chunks := chunks st ++ [FixAttemptFailed retry_count text];
                   calls := calls st; attempts := retry_count;
                   outcome_of := outcome_of st |}
            else
              {| dialog := dialog st; chunks := chunks st;
                 calls := calls st; attempts := retry_count;
                 outcome_of := Escaped e |}
        | _ =>
            (* fixed = True *)
            {| dialog := dialog st;
               chunks := chunks st ++ [FixAttemptCompleted];
               calls := calls st; attempts := retry_count;
               outcome_of := Fixed |}
        end
      else {| dialog := dialog st; chunks := chunks st; calls := calls st;
              attempts := retry_count; outcome_of := GaveUp |}
  end.

(** [async def recover_from_error(self, error_message, stack_trace=None,
    context=None, max_retries=3)] from the history [history] on.
    [debugging_prompt] is what [get_debugging_prompt()] returns, with
    the snapshot of the context that [_stream_with_tools] prepends, and
    [dumps] is [json.dumps(context, indent=2)]; it is called for a
    context that is neither [None] nor empty, and what it raises leaves
    the generator. *)
Definition recover_from_error (E : env) (debugging_prompt : str)
    (dumps : list (string * json) -> result str)
    (error_message : str) (stack_trace : option str)
    (context : option (list (string * json))) (max_retries : nat)
    (history : list message) : recovery :=
  let yielded := [Activated; ErrorIs error_message] in
  let context_text :=
    match context with
    | Some (kv :: d) => dumped <-! dumps (kv :: d); Ok (Some dumped)
    | _ => Ok None
    end in
  match context_text with
  | Raise e =>
      {| dialog := history; chunks := yielded; calls := 0; attempts := 0;
         outcome_of := Escaped e |}
  | Ok context_text =>
      let error_context :=
        first_error_context error_message stack_trace context_text in
      let st := retry_loop E debugging_prompt max_retries max_retries 0
                  error_context
                  {| dialog := history; chunks := yielded; calls := 0;
                     attempts := 0; outcome_of := GaveUp |} in
      match outcome_of st with
      | Fixed =>
          {| dialog := dialog st;
             chunks := chunks st ++ [Recovered];
             calls := calls st; attempts := attempts st;
             outcome_of := Fixed |}
      | GaveUp =>
          {| dialog := dialog st;
             chunks := chunks st ++ [CouldNotFix max_retries;
                                     ManualIntervention];
             calls := calls st; attempts := attempts st;
             outcome_of := GaveUp |}
      | Escaped e => st
      end
  end.

End Recovery.

(** ** The auto-healing loop (the last part of
    [AIOrchestrator._generate_code_from_plan] in
    [backend/app/libs/ai_orchestrator.py]) *)

Module AutoHealing.
Import Py PyText Orchestrator.

(** The chunks of the loop.  The values that the source formats into a
    chunk are kept as they are. *)
Inductive heal_chunk :=
| Starting                                  (** [Starting Auto-Healing Loop...] *)
| AttemptLine (attempt max_attempts : nat)  (** [--- Attempt a/m ---] *)
| Building                                  (** [Building project...] *)
| BuildTriggerFailed (error : json)         (** [Build trigger failed: ...] *)
| BuildTriggered                            (** [Build triggered] *)
| BuildError (text : str)                   (** [Build error: ...] *)
| Checking                                  (** [Checking for errors...] *)
| NoErrorsFound                             (** [No errors found! Auto-healing complete.] *)
| FoundErrors (n : nat)                     (** [Found n error(s)] *)
| Fixing (idx : nat) (file_path line_number : json)
| ErrorLine (message : json)                (** [Error: ...] *)
| CouldNotRead                              (** [Could not read file] *)
| FixedFile (file_path : json)              (** [Fixed ...] *)
| FailedToUpdate (error : json)             (** [Failed to update file: ...] *)
| ErrorFixing (text : str)                  (** [Error fixing: ...] *)
| ErrorChecking (text : str)                (** [Error checking errors: ...] *)
| Complete.                                 (** [Auto-healing loop complete!] *)

(** The collaborators: the tools behind [execute_tool], the project,
    the call [self.client.chat.completions.create] on a system and a
    user message, which gives [message.content], and [str(x)] as an
    f-string formats a value. *)
Record heal_env := {
  tools : tool_env;
  project : string;
  create : str -> str -> result (option str);
  format : json -> str
}.

Definition execute (E : heal_env) (tool_name : string) (parameters : json)
  : result json :=
  execute_tool (tools E) (project E) (lit tool_name) parameters.

Definition nl : str := [newline].
Definition fence : str := lit "```".

(** [s.split(sep)] for a separator of one character or more. *)
Fixpoint split_from (sep : str) (skip : nat) (piece : str) (s : str)
  : list str :=
  match s with
  | [] => [rev piece]
  | c :: s' =>
      match skip with
      | S k => split_from sep k piece s'
      | O =>
          if startswith sep s
          then rev piece :: split_from sep (length sep - 1) [] s'
          else split_from sep 0 (c :: piece) s'
      end
  end.

Definition split_on (sep s : str) : list str := split_from sep 0 [] s.

Definition index_error : exn := OtherError (lit "list index out of range").

(** [l[i]] *)
Definition item {A} (l : list A) (i : nat) : result A :=
  match l !! i with
  | Some x => Ok x
  | None => Raise index_error
  end.

(** The prompt for one error. *)
Definition fix_prompt (E : heal_env)
    (file_path line_number message code_snippet file_content : json) : str :=
  lit "Fix this error in the code:" ++ nl ++ nl
  ++ lit "File: " ++ format E file_path ++ nl
  ++ lit "Line: " ++ format E line_number ++ nl
  ++ lit "Error: " ++ format E message ++ nl ++ nl
  ++ lit "Code snippet with error:" ++ nl
  ++ fence ++ nl ++ format E code_snippet ++ nl ++ fence ++ nl ++ nl
  ++ lit "Full file content:" ++ nl
  ++ fence ++ nl ++ format E file_content ++ nl ++ fence ++ nl ++ nl
  ++ lit "Provide ONLY the complete fixed file content, no explanations.".

Definition fix_system : str :=
  lit "You are an expert developer. Fix code errors precisely.".

(** [if '```' in fixed_code: ...]: the text between the first two
    fences, without a first line that names the language, stripped. *)
Definition remove_code_block (fixed_code : option str) : result str :=
  match fixed_code with
  | None => Raise (OtherError (lit "argument of type 'NoneType' is not iterable"))
  | Some fixed_code =>
      if contains fence fixed_code then
        after <-! item (split_on fence fixed_code) 1;
        fixed_code <-! item (split_on fence after) 0;
        let fixed_code :=
          if startswith (lit "typescript" ++ nl) fixed_code
             || startswith (lit "tsx" ++ nl) fixed_code
             || startswith (lit "python" ++ nl) fixed_code
          then join nl (tail (split newline fixed_code))
          else fixed_code in
        Ok (strip fixed_code)
      else Ok fixed_code
  end.

(** What a part of the loop hands on: the chunks yielded so far, and the
    exception that interrupted it, if any. *)
Definition step : Type := list heal_chunk * option exn.

(** [files[0].get('content', '')] for a value [files] that is true. *)
Definition first_content (files : json) : result json :=
  match files with
  | JList (file :: _) => get file "content" (JStr [])
  | _ => Raise (OtherError (lit "TypeError"))
  end.

(** The body of the [try] in [for idx, error in enumerate(errors[:3], 1)]. *)
Definition try_fix (E : heal_env) (attempt : nat)
    (error file_path line_number message code_snippet file_content : json)
    (chunks : list heal_chunk) : step :=
  match create E fix_system
          (fix_prompt E file_path line_number message code_snippet
             file_content) with
  | Raise e => (chunks, Some e)
  | Ok content =>
      match remove_code_block content with
      | Raise e => (chunks, Some e)
      | Ok fixed_code =>
          match execute E "update_file"
                  (JObj [("file_path", file_path);
                         ("file_content", JStr fixed_code)]%string) with
          | Raise e => (chunks, Some e)
          | Ok update_result =>
              match get update_result "success" JNull with
              | Raise e => (chunks, Some e)
              | Ok ok =>
                  if truthy ok then
                    let chunks := chunks ++ [FixedFile file_path] in
                    match get error "id" JNull with
                    | Raise e => (chunks, Some e)
                    | Ok error_id =>
                        if truthy error_id then
                          match execute E "resolve_error"
                                  (JObj [("error_id", error_id);
                                         ("resolution_notes",
                                          JStr (lit "Auto-fixed in attempt "
                                                ++ str_of_nat attempt))]%string)
                          with
                          | Raise e => (chunks, Some e)
                          | Ok _ => (chunks, None)
                          end
                        else (chunks, None)
                    end
                  else
                    match get update_result "error" JNull with
                    | Raise e => (chunks, Some e)
                    | Ok err => (chunks ++ [FailedToUpdate err], None)
                    end
              end
          end
      end
  end.

(** One turn of [for idx, error in enumerate(errors[:3], 1)]; an
    exception outside its [try], or one that is no [Exception], leaves
    the turn. *)
Definition fix_error (E : heal_env) (attempt idx : nat) (error : json)
    (chunks : list heal_chunk) : step :=
  match (file_path <-! get error "file_path" (JStr (lit "unknown"));
         line_number <-! get error "line_number" (JNum 0);
         message <-! get error "message" (JStr []);
         code_snippet <-! get error "code_snippet" (JStr []);
         Ok (file_path, line_number, message, code_snippet)) with
  | Raise e => (chunks, Some e)
  | Ok (file_path, line_number, message, code_snippet) =>
      let chunks :=
        chunks ++ [Fixing idx file_path line_number; ErrorLine message] in
      match (file_result <-! execute E "read_files"
                               (JObj [("file_paths",
                                       JList [file_path])]%string);
             get file_result "files" (JList [])) with
      | Raise e => (chunks, Some e)
      | Ok files =>
          if negb (truthy files) then (chunks ++ [CouldNotRead], None)
          else
            match first_content files with
            | Raise e => (chunks, Some e)
            | Ok file_content =>
                match try_fix E attempt error file_path line_number message
                        code_snippet file_content chunks with
                | (chunks, Some e) =>
                    if is_Exception e
                    then (chunks ++ [ErrorFixing (exn_text (tools E) e)], None)
                    else (chunks, Some e)
                | done => done
                end
            end
      end
  end.

Fixpoint fix_errors (E : heal_env) (attempt idx : nat) (errors : list json)
    (chunks : list heal_chunk) : step :=
  match errors with
  | [] => (chunks, None)
  | error :: errors' =>
      match fix_error E attempt idx error chunks with
      | (chunks, None) => fix_errors E attempt (S idx) errors' chunks
      | interrupted => interrupted
      end
  end.

(** How one turn of [for attempt in range(1, max_attempts + 1)] ends. *)
Inductive turn :=
| Continue
| Break
| Leave (e : exn).

(** The first [try] of a turn: the build is triggered. *)
Definition trigger (E : heal_env) (chunks : list heal_chunk)
  : list heal_chunk * turn :=
  match (build_result <-! execute E "trigger_build" (JObj []);
         ok <-! get build_result "success" JNull;
         if truthy ok then Ok None
         else err <-! get build_result "error" JNull; Ok (Some err)) with
  | Ok None => (chunks ++ [BuildTriggered], Continue)
  | Ok (Some err) => (chunks ++ [BuildTriggerFailed err], Break)
  | Raise e =>
      if is_Exception e
      then (chunks ++ [BuildError (exn_text (tools E) e)], Break)
      else (chunks, Leave e)
  end.

(** The body of the second [try] of a turn, from the errors on. *)
Definition check_errors (E : heal_env) (attempt : nat) (errors : json)
    (chunks : list heal_chunk) : list heal_chunk * turn :=
  if negb (truthy errors) then (chunks ++ [NoErrorsFound], Break)
  else
    match errors with
    | JList l =>
        match fix_errors E attempt 1 (take 3 l)
                (chunks ++ [FoundErrors (length l)]) with
        | (chunks, None) => (chunks, Continue)
        | (chunks, Some e) => (chunks, Leave e)
        end
    | JStr s =>
        (chunks ++ [FoundErrors (length s)],
         Leave (OtherError (lit "'str' object has no attribute 'get'")))
    | JObj d =>
        (chunks ++ [FoundErrors (length d)],
         Leave (OtherError (lit "TypeError")))
    | _ => (chunks, Leave (OtherError (lit "TypeError")))
    end.

(** The second [try] of a turn, with its handler. *)
Definition check (E : heal_env) (attempt : nat) (chunks : list heal_chunk)
  : list heal_chunk * turn :=
  let chunks := chunks ++ [Checking] in
  match (errors_result <-! execute E "get_open_errors" (JObj []);
         get errors_result "errors" (JList [])) with
  | Raise e =>
      if is_Exception e
      then (chunks ++ [ErrorChecking (exn_text (tools E) e)], Break)
      else (chunks, Leave e)
  | Ok errors =>
      match check_errors E attempt errors chunks with
      | (chunks, Leave e) =>
          if is_Exception e
          then (chunks ++ [ErrorChecking (exn_text (tools E) e)], Break)
          else (chunks, Leave e)
      | done => done
      end
  end.

Definition max_attempts : nat := 3.

Fixpoint attempts_loop (E : heal_env) (attempts : list nat)
    (chunks : list heal_chunk) : step :=
  match attempts with
  | [] => (chunks, None)
  | attempt :: attempts' =>
      let chunks := chunks ++ [AttemptLine attempt max_attempts; Building] in
      match trigger E chunks with
      | (chunks, Continue) =>
          match check E attempt chunks with
          | (chunks, Continue) => attempts_loop E attempts' chunks
          | (chunks, Break) => (chunks, None)
          | (chunks, Leave e) => (chunks, Some e)
          end
      | (chunks, Break) => (chunks, None)
      | (chunks, Leave e) => (chunks, Some e)
      end
  end.

(** The loop, from [Starting Auto-Healing Loop...] to the last chunk of
    the generator.  The pause between the build and the check yields
    nothing. *)
Definition auto_healing_loop (E : heal_env) : step :=
  match attempts_loop E (seq 1 max_attempts) [Starting] with
  | (chunks, None) => (chunks ++ [Complete], None)
  | interrupted => interrupted
  end.

End AutoHealing.

(** ** The packages of a created file (the last part of [create_file]
    in [backend/app/apis/ai_agent_tools/__init__.py]) *)

Module FilePackages.
Import Py PyText CodeValidator Healing.

(** The two manifests the step writes: the text of [pyproject.toml] and
    what [json.load] gives for [package.json], [None] for a file that
    does not exist. *)
Record manifests := {
  pyproject : option str;
  package_json : option json
}.

(** What the step calls: the two detectors of [app.apis.preview],
    [uv_path.exists()], [subprocess.run] on the installer and
    [str(e)]. *)
Record collaborators := {
  detect_python_imports : str -> result (list str);
  detect_npm_imports : str -> result (list str);
  uv_exists : bool;
  run : str -> result PackageManager.completed;
  exn_text : exn -> str
}.

(** [[PYTHON_IMPORT_TO_PACKAGE.get(imp, imp) for imp in
    validation_result.imports]] *)
Definition mapped_imports (imports : list str) : list str :=
  (λ imp, default imp (dict_get imp PYTHON_IMPORT_TO_PACKAGE)) <$> imports.

(** The body of the [try] for a Python file. *)
Definition install_python_packages (C : collaborators)
    (request : AgentTools.CreateFileRequest)
    (validation_result : option ValidationResult) (m : manifests)
  : manifests * option exn :=
  let detected :=
    match validation_result with
    | Some v =>
        match imports v with
        | [] => detect_python_imports C (AgentTools.file_content request)
        | imp :: imps => Ok (mapped_imports (imp :: imps))
        end
    | None => detect_python_imports C (AgentTools.file_content request)
    end in
  match detected with
  | Raise e => (m, Some e)
  | Ok [] => (m, None)
  | Ok packages_to_install =>
      let '(text, install_result) :=
        PreviewPackages.install_packages_in_project (pyproject m)
          (uv_exists C) (run C) (exn_text C) packages_to_install in
      ({| pyproject := text; package_json := package_json m |},
       match install_result with
       | Ok _ => None
       | Raise e => Some e
       end)
  end.

(** The body of the [try] for a TypeScript file of the frontend. *)
Definition add_npm_packages (C : collaborators)
    (request : AgentTools.CreateFileRequest) (m : manifests)
  : manifests * option exn :=
  match detect_npm_imports C (AgentTools.file_content request) with
  | Raise e => (m, Some e)
  | Ok [] => (m, None)
  | Ok packages =>
      match PreviewPackages.update_project_package_json (package_json m)
              packages with
      | Ok written =>
          ({| pyproject := pyproject m; package_json := written |}, None)
      | Raise e => (m, Some e)
      end
  end.

(** The step that follows the [INSERT] of [create_file]: the manifests
    afterwards, and the exception that leaves [create_file], if any.
    The two handlers [except Exception] only log. *)
Definition install_detected_packages (C : collaborators)
    (request : AgentTools.CreateFileRequest)
    (validation_result : option ValidationResult) (m : manifests)
  : manifests * option exn :=
  let '(m', raised) :=
    if decide (AgentTools.language request = Some "python"%string) then
      install_python_packages C request validation_result m
    else if decide (AgentTools.language request = Some "typescript"%string
                    ∧ startswith (lit "frontend/")
                        (AgentTools.file_path request) = true) then
      add_npm_packages C request m
    else (m, None) in
  match raised with
  | Some e => if is_Exception e then (m', None) else (m', Some e)
  | None => (m', None)
  end.

End FilePackages.

(** * Properties *)

(** ** Python string primitives *)

Section PyFacts.
Import Py.

Lemma eqb_decide (a b : ascii) : Ascii.eqb a b = bool_decide (a = b).
Proof.
  destruct (Ascii.eqb_spec a b) as [->|Hne].
  - by rewrite bool_decide_eq_true_2.
  - by rewrite bool_decide_eq_false_2.
Qed.

Lemma startswith_app (p s : str) : startswith p (p ++ s) = true.
Proof.
  induction p as [|c p IH]; simpl; [done|].
  by rewrite Ascii.eqb_refl, IH.
Qed.



(** A separator-free piece in front of a separator is the first field. *)
Lemma split_app_sep (sep : ascii) (a b : str) :
  sep ∉ a → split sep (a ++ sep :: b) = a :: split sep b.
Proof.
  induction a as [|c a IH]; intros Hin; simpl.
  - by rewrite Ascii.eqb_refl.
  - apply not_elem_of_cons in Hin as [Hne Hin].
    rewrite eqb_decide, bool_decide_eq_false_2 by congruence.
    by rewrite IH.
Qed.

Lemma split_no_sep (sep : ascii) (a : str) :
  sep ∉ a → split sep a = [a].
Proof.
  induction a as [|c a IH]; intros Hin; simpl; [done|].
  apply not_elem_of_cons in Hin as [Hne Hin].
  rewrite eqb_decide, bool_decide_eq_false_2 by congruence.
  by rewrite IH.
Qed.

Lemma span_app (p : ascii → bool) (x rest : str) :
  Forall (λ c, p c = true) x →
  match rest with [] => True | c :: _ => p c = false end →
  span p (x ++ rest) = (x, rest).
Proof.
  intros Hx Hrest. induction Hx as [|c x Hc Hx IH].
  - destruct rest as [|c rest]; [done|]. simpl. by rewrite Hrest.
  - simpl. by rewrite Hc, IH.
Qed.

Lemma span_spec (p : ascii → bool) (s : str) :
  s = (span p s).1 ++ (span p s).2
  ∧ Forall (λ c, p c = true) (span p s).1.
Proof.
  induction s as [|c s [IH1 IH2]]; simpl; [done|].
  destruct (p c) eqn:Hc; [|done].
  destruct (span p s) as [a r]. simpl in *. split; [by f_equal|].
  by constructor.
Qed.

Lemma split_nonempty (sep : ascii) (s : str) : split sep s ≠ [].
Proof.
  destruct s as [|c s]; simpl; [done|].
  destruct (Ascii.eqb c sep); [done|]. by destruct (split sep s).
Qed.

End PyFacts.

(** ** Code validator *)

Section CodeValidatorFacts.
Import Py CodeValidator.






(** *** The texts the import pattern matches *)
















(** *** The scan of [re.finditer] *)







End CodeValidatorFacts.

Section CodeValidatorSpec.
Import Py CodeValidator.







End CodeValidatorSpec.

(** ** File tools *)

Section AgentToolsFacts.
Import Py CodeValidator AgentTools.

(** When the validation of TypeScript code fails and the healing does
    not give valid code, the inner handler raises status 400 and the
    outer handler of [create_file] turns it into status 500; the table
    is left as it was. *)
Lemma create_file_typescript_unhealed (E : env) (request : CreateFileRequest)
    (db : list file_row) :
  language request = Some "typescript"%string →
  is_valid (validate_typescript_syntax (file_content request)) = false →
  (∀ healed,
     auto_heal_code E (file_content request)
       (errors (validate_typescript_syntax (file_content request)))
       "typescript" = Ok healed →
     is_valid (validate_typescript_syntax healed) = false) →
  (∀ e,
     auto_heal_code E (file_content request)
       (errors (validate_typescript_syntax (file_content request)))
       "typescript" = Raise e →
     is_Exception e = true) →
  create_file E request db
  = (Raise (HTTPException 500
       (lit "File creation failed: "
        ++ http_exception_str E 400
             (lit "TypeScript syntax validation failed:
" ++ typescript_error_details
     (errors (validate_typescript_syntax (file_content request)))))),
     db).
Proof.
  intros Hlang Hbad Hheal Hexn.
  unfold create_file, create_file_body. rewrite Hlang.
  rewrite decide_False by done. rewrite decide_True by done.
  unfold validate_and_heal. rewrite Hbad.
  destruct (auto_heal_code E _ _ _) as [healed|e] eqn:Hh;
    cbn [bind try_except].
  - by rewrite (Hheal healed eq_refl).
  - by rewrite (Hexn e eq_refl).
Qed.

(** [str(e)] of the framework's [HTTPException]: status, colon, detail. *)
Definition status_colon_detail (status_code : nat) (detail : str) : str :=
  str_of_nat status_code ++ lit ": " ++ detail.

Definition no_python : str -> ValidationResult :=
  λ _, {| is_valid := true; errors := []; warnings := []; imports := [] |}.

(** A host whose healing call hands the code back unchanged. *)
Definition unhealing_env : env :=
  {| validate_python_syntax := no_python;
     auto_heal_code := λ code _ _, Ok code;
     http_exception_str := status_colon_detail;
     workspace_exists := λ _, true;
     create_backend_workspace := λ _, Ok ();
     get_db_connection := Ok ();
     close_connection := Ok ();
     parse_uuid := Ok;
     uuid4 := λ _, "00000000-0000-4000-8000-000000000000"%string;
     python_package_step := λ _ _ _, None;
     npm_package_step := λ _ _, None |}.

Definition broken_request : CreateFileRequest :=
  {| project_id := "7f2c1d9e-51aa-4c0b-9a57-0d4f6f0e2b11";
     file_path := lit "frontend/src/pages/Home.tsx";
     file_content := lit "export function Home() { return null;";
     language := Some "typescript"%string;
     file_type := None |}.

Lemma typescript_error_details_cons (err : ValidationError)
    (errs : list ValidationError) :
  ∃ rest, typescript_error_details (err :: errs) = message err ++ rest.
Proof.
  unfold typescript_error_details. rewrite fmap_cons. cbn [join].
  destruct (_ <$> errs) as [|x xs].
  - by eexists.
  - eexists. by rewrite <- app_assoc.
Qed.

(** C6.  [create_file] on TypeScript code whose braces do not match in
    number and that the healing does not repair: the call fails with
    status 500, not 400, whatever the host; the text of the inner
    exception, with the detail that names the unmatched braces, is part
    of the detail, and no row is inserted. *)
Theorem create_file_unmatched_brace_status_500 (E : env)
    (request : CreateFileRequest) (db : list file_row) :
  language request = Some "typescript"%string →
  count "{" (file_content request) ≠ count "}" (file_content request) →
  (∀ healed,
     auto_heal_code E (file_content request)
       (errors (validate_typescript_syntax (file_content request)))
       "typescript" = Ok healed →
     is_valid (validate_typescript_syntax healed) = false) →
  (∀ e,
     auto_heal_code E (file_content request)
       (errors (validate_typescript_syntax (file_content request)))
       "typescript" = Raise e →
     is_Exception e = true) →
  ∃ rest,
    create_file E request db
    = (Raise (HTTPException 500
         (lit "File creation failed: "
          ++ http_exception_str E 400
               (lit "TypeScript syntax validation failed:
" ++ (lit "Unmatched braces: "
      ++ str_of_nat (count "{" (file_content request)) ++ lit " open, "
      ++ str_of_nat (count "}" (file_content request)) ++ lit " close")
  ++ rest))),
       db).
Proof.
  intros Hlang Hbraces Hheal Hexn.
  assert (Herrs : ∃ errs,
    errors (validate_typescript_syntax (file_content request))
    = syntax_error
        (lit "Unmatched " ++ lit "braces" ++ lit ": "
         ++ str_of_nat (count "{" (file_content request)) ++ lit " open, "
         ++ str_of_nat (count "}" (file_content request)) ++ lit " close")
        (lit "Check for missing or extra " ++ lit "braces") :: errs).
  { unfold validate_typescript_syntax. cbn [errors].
    unfold unmatched at 1. rewrite decide_True by done. by eexists. }
  destruct Herrs as [errs Herrs].
  assert (Hbad : is_valid (validate_typescript_syntax (file_content request))
                 = false).
  { pose proof (f_equal length Herrs) as Hlen.
    unfold validate_typescript_syntax in *. cbn [is_valid errors] in *.
    apply bool_decide_eq_false. rewrite Hlen. simpl. lia. }
  rewrite (create_file_typescript_unhealed E request db Hlang Hbad Hheal Hexn).
  rewrite Herrs.
  destruct (typescript_error_details_cons
              (syntax_error
                 (lit "Unmatched " ++ lit "braces" ++ lit ": "
                  ++ str_of_nat (count "{" (file_content request))
                  ++ lit " open, "
                  ++ str_of_nat (count "}" (file_content request))
                  ++ lit " close")
                 (lit "Check for missing or extra " ++ lit "braces")) errs)
    as [rest ->].
  exists rest. reflexivity.
Qed.

Lemma create_file_unmatched_brace_status_500_witness :
  ∃ rest,
    create_file unhealing_env broken_request []
    = (Raise (HTTPException 500
         (lit "File creation failed: "
          ++ status_colon_detail 400
               (lit "TypeScript syntax validation failed:
" ++ (lit "Unmatched braces: " ++ str_of_nat 1 ++ lit " open, "
      ++ str_of_nat 0 ++ lit " close")
  ++ rest))),
       []).
Proof.
  apply (create_file_unmatched_brace_status_500 unhealing_env broken_request
           []).
  - reflexivity.
  - vm_compute. discriminate.
  - intros healed [= <-]. reflexivity.
  - intros e He. discriminate He.
Defined.

(** On that request the whole detail, with the status and the
    suggestion. *)
Lemma create_file_broken_request :
  create_file unhealing_env broken_request []
  = (Raise (HTTPException 500
       (lit "File creation failed: 400: TypeScript syntax validation failed:
Unmatched braces: 1 open, 0 close (Suggestion: Check for missing or extra braces)")),
     []).
Proof. vm_compute. reflexivity. Qed.

End AgentToolsFacts.

(** ** Orchestrator: tool dispatch *)

Section ExecuteToolFacts.
Import Py Orchestrator.

(** The dict [execute_tool] returns for an exception [e]. *)
Definition failure_dict (E : tool_env) (e : exn) : json :=
  JObj [("success", JBool false);
        ("error", JStr (lit "Tool execution failed: " ++ exn_text E e));
        ("traceback", JStr (format_exc E e))]%string.

(** The dict it returns for a name outside the chain. *)
Definition unknown_tool_dict (tool_name : str) : json :=
  JObj [("success", JBool false);
        ("error", JStr (lit "Unknown tool: " ++ tool_name))]%string.

Lemma eval_fields_keys r fs d :
  eval_fields r fs = Ok d → fst <$> d = fst <$> fs.
Proof.
  revert d. induction fs as [|[k f] fs IH]; intros d; simpl.
  - by intros [= <-].
  - destruct (eval_field r f) as [v|]; simpl; [|done].
    destruct (eval_fields r fs) as [vs|]; simpl; [|done].
    intros [= <-]. simpl. f_equal. by apply IH.
Qed.

Lemma branches_return_success :
  Forall (λ nb, ∃ f rest, returns (snd nb) = ("success"%string, f) :: rest)
    branches.
Proof. unfold branches. repeat constructor; simpl; eauto. Qed.

Lemma assoc_elem_of {V} k (d : list (string * V)) v :
  assoc k d = Some v → (k, v) ∈ d.
Proof.
  induction d as [|[k' v'] d IH]; simpl; [done|].
  destruct (String.eqb_spec k k') as [->|Hne].
  - intros [= ->]. apply list_elem_of_here.
  - intros H. apply list_elem_of_further. by apply IH.
Qed.

Lemma assoc_not_elem_of {V} k (d : list (string * V)) :
  k ∉ (fst <$> d) → assoc k d = None.
Proof.
  induction d as [|[k' v'] d IH]; simpl; [done|].
  intros [Hne Hin]%not_elem_of_cons.
  destruct (String.eqb_spec k k') as [->|_]; [done|]. by apply IH.
Qed.

(** C8, as amended.  [execute_tool] raises nothing that is an
    [Exception]: what it raises, if anything, is an exception outside
    that class which the branch of the tool raised.  What it returns is a
    dict with a [success] entry.  An [Exception] raised while the branch
    of a tool runs, and so one raised by its handler, gives the dict with
    [success] false, the error text and the traceback.  A name outside
    the chain gives the dict with [success] false and the error text that
    names the tool. *)
Theorem execute_tool_catches_exceptions (E : tool_env) (project_id : string)
    (tool_name : str) (parameters : json) :
  (∀ e, execute_tool E project_id tool_name parameters = Raise e →
        is_Exception e = false
        ∧ execute_tool_body E project_id tool_name parameters = Raise e)
  ∧ (∀ v, execute_tool E project_id tool_name parameters = Ok v →
          ∃ d, v = JObj d ∧ is_Some (assoc "success" d))
  ∧ (∀ e, execute_tool_body E project_id tool_name parameters = Raise e →
          is_Exception e = true →
          execute_tool E project_id tool_name parameters
          = Ok (failure_dict E e))
  ∧ (∀ b args e,
       assoc (string_of_list_ascii tool_name) branches = Some b →
       read_all parameters (reads b) = Ok args →
       call E (endpoint b) (keyword_arguments project_id b args) = Raise e →
       is_Exception e = true →
       execute_tool E project_id tool_name parameters = Ok (failure_dict E e))
  ∧ (string_of_list_ascii tool_name ∉ registered_tools →
     execute_tool E project_id tool_name parameters
     = Ok (unknown_tool_dict tool_name)).
Proof.
  split; [|split; [|split; [|split]]].
  - intros e. unfold execute_tool, try_except.
    destruct (execute_tool_body E project_id tool_name parameters) as [v|e'];
      [done|].
    destruct (is_Exception e') eqn:He'; [done|]. by intros [= <-].
  - intros v. unfold execute_tool, try_except.
    destruct (execute_tool_body E project_id tool_name parameters)
      as [v'|e] eqn:Hbody.
    + intros [= <-]. unfold execute_tool_body in Hbody.
      destruct (assoc _ branches) as [b|] eqn:Hb.
      * destruct (read_all parameters (reads b)) as [args|]; [|done].
        simpl in Hbody. destruct (call E _ _) as [r|]; [|done].
        simpl in Hbody.
        destruct (eval_fields r (returns b)) as [d|] eqn:Hd; [|done].
        simpl in Hbody. injection Hbody as <-.
        exists d. split; [done|].
        apply assoc_elem_of in Hb.
        pose proof branches_return_success as Hall.
        rewrite Forall_forall in Hall.
        destruct (Hall _ Hb) as (f & rest & Hret). simpl in Hret.
        apply eval_fields_keys in Hd. rewrite Hret in Hd.
        destruct d as [|[k v] d]; [done|]. simpl in Hd.
        injection Hd as -> _. simpl. eauto.
      * injection Hbody as <-. eexists. split; [done|]. simpl. eauto.
    + destruct (is_Exception e); [|done]. intros [= <-].
      eexists. split; [done|]. simpl. eauto.
  - intros e Hbody He. unfold execute_tool, try_except.
    by rewrite Hbody, He.
  - intros b args e Hb Hread Hcall He.
    unfold execute_tool, execute_tool_body, try_except.
    rewrite Hb, Hread. simpl. rewrite Hcall. simpl. by rewrite He.
  - intros Hout. unfold execute_tool, execute_tool_body.
    by rewrite (assoc_not_elem_of _ _ Hout).
Qed.

(** A host whose handlers all raise. *)
Definition raising_tools : tool_env :=
  {| call := λ _ _, Raise (OtherError (lit "connection refused"));
     exn_text := exn_message;
     format_exc := λ _, lit "Traceback (most recent call last): ..." |}.

Lemma execute_tool_catches_exceptions_witness :
  execute_tool raising_tools "p" (lit "delete_task")
    (JObj [("task_id", JStr (lit "t1"))]%string)
  = Ok (failure_dict raising_tools (OtherError (lit "connection refused")))
  ∧ execute_tool raising_tools "p" (lit "launch_rocket") JNull
    = Ok (unknown_tool_dict (lit "launch_rocket")).
Proof.
  split.
  - destruct (execute_tool_catches_exceptions raising_tools "p"
                (lit "delete_task")
                (JObj [("task_id", JStr (lit "t1"))]%string))
      as (_ & _ & Hraise & _).
    apply Hraise; reflexivity.
  - destruct (execute_tool_catches_exceptions raising_tools "p"
                (lit "launch_rocket") JNull) as (_ & _ & _ & _ & Hunknown).
    apply Hunknown. intros Hin%list_elem_of_In. vm_compute in Hin.
    repeat (destruct Hin as [Hin|Hin]; [discriminate Hin|]). exact Hin.
Defined.

(** What [exec] does with two scripts: the first prints, the second
    leaves through [sys.exit], which raises [SystemExit]. *)
Definition python_exec (code : str) : (str * str) * option exn :=
  if decide (code = lit "import sys; sys.exit(1)")
  then (([], []), Some (BaseOnly "SystemExit"))
  else ((lit "ok", []), None).

Definition exn_class (e : exn) : str :=
  match e with
  | HTTPException _ _ => lit "HTTPException"
  | JSONDecodeError _ => lit "JSONDecodeError"
  | OtherError _ => lit "Exception"
  | BaseOnly class => lit class
  end.

Definition traceback_of (e : exn) : str :=
  lit "Traceback (most recent call last): ...".

(** A host on which the script tool is the handler of the sources and
    every other endpoint answers with an empty model. *)
Definition script_host : tool_env :=
  {| call := λ endpoint args,
       if String.eqb endpoint "run_python_script" then
         match assoc "code" args with
         | Some (JStr code) =>
             AgentTools.run_python_script exn_class exn_message traceback_of
               (Ok ()) (python_exec code).1 (python_exec code).2
         | _ => Raise (OtherError (lit "validation error"))
         end
       else Ok (Obj []);
     exn_text := exn_message;
     format_exc := λ _, lit "Traceback (most recent call last): ..." |}.

(** C8, as stated, fails on a script that calls [sys.exit]: the
    [SystemExit] it raises is not an [Exception], passes the handler of
    [run_python_script] and the handler of [execute_tool], and
    [execute_tool] raises it. *)
Lemma execute_tool_raises_system_exit :
  execute_tool script_host "p" (lit "run_python_script")
    (JObj [("code", JStr (lit "import sys; sys.exit(1)"))]%string)
  = Raise (BaseOnly "SystemExit")
  ∧ ¬ (∀ (E : tool_env) (project_id : string) (tool_name : str)
         (parameters : json),
         ∃ d, execute_tool E project_id tool_name parameters = Ok d).
Proof.
  assert (H : execute_tool script_host "p" (lit "run_python_script")
                (JObj [("code", JStr (lit "import sys; sys.exit(1)"))]%string)
              = Raise (BaseOnly "SystemExit")) by (vm_compute; reflexivity).
  split; [exact H|]. intros Hall.
  destruct (Hall script_host "p"%string (lit "run_python_script")
              (JObj [("code", JStr (lit "import sys; sys.exit(1)"))]%string))
    as [d Hd].
  rewrite H in Hd. discriminate Hd.
Qed.

End ExecuteToolFacts.

(** ** Orchestrator: the tool-calling loop *)

Section StreamFacts.
Import Py Orchestrator.

Lemma report_result_model_calls name args res ok st st' :
  report_result name args res ok st = Ok st' →
  model_calls st' = model_calls st.
Proof.
  unfold report_result. destruct (truthy ok); [by intros [= <-]|].
  destruct (result_get res _ _); simpl; [by intros [= <-]|done].
Qed.

Lemma report_result_no_warning name args res ok st st' :
  report_result name args res ok st = Ok st' →
  MaxIterationsWarning ∉ yielded st →
  MaxIterationsWarning ∉ yielded st'.
Proof.
  unfold report_result. destruct (truthy ok).
  - intros [= <-] ?. simpl. set_solver.
  - destruct (result_get res _ _); simpl; [|done].
    intros [= <-] ?. simpl. set_solver.
Qed.

(** What a step of the generator keeps: the number of model calls, and
    the absence of the warning among the chunks. *)
Definition kept_by (st st' : state) : Prop :=
  model_calls st' = model_calls st
  ∧ (MaxIterationsWarning ∉ yielded st → MaxIterationsWarning ∉ yielded st').

Lemma kept_by_refl st : kept_by st st.
Proof. by split. Qed.

Lemma kept_by_trans st1 st2 st3 :
  kept_by st1 st2 → kept_by st2 st3 → kept_by st1 st3.
Proof. intros [? ?] [? ?]. split; [congruence|auto]. Qed.

Lemma kept_by_yield c st :
  c ≠ MaxIterationsWarning → kept_by st (yield c st).
Proof.
  intros Hc. split; [done|]. intros Hst. simpl.
  rewrite not_elem_of_app, not_elem_of_cons.
  split; [done|]. split; [done|]. apply not_elem_of_nil.
Qed.

Lemma kept_by_append_history m st : kept_by st (append_history m st).
Proof. by split. Qed.

Lemma kept_by_yield_text text st : kept_by st (yield_text text st).
Proof.
  unfold yield_text. case_decide; [apply kept_by_refl|].
  by apply kept_by_yield.
Qed.

Lemma try_tool_call_kept E tc st : kept_by st (try_tool_call E tc st).1.
Proof.
  unfold try_tool_call.
  destruct (json_loads E _); [|apply kept_by_refl].
  assert (H1 : kept_by st (yield (ToolName (tc_name tc)) st))
    by by apply kept_by_yield.
  destruct (execute_tool _ _ _ _); [|done].
  destruct (result_get _ _ _); [|done].
  destruct (report_result _ _ _ _ _) as [st'|] eqn:Hr; [|done].
  assert (H2 : kept_by st st').
  { eapply kept_by_trans; [exact H1|]. split.
    - by eapply report_result_model_calls.
    - by eapply report_result_no_warning. }
  by destruct (json_dumps E _).
Qed.

Lemma handle_failure_kept E tc msg st :
  kept_by st (handle_failure E tc msg st).1.
Proof.
  unfold handle_failure.
  assert (H1 : kept_by st (yield (ToolError msg) st))
    by by apply kept_by_yield.
  by destruct (json_dumps E _).
Qed.

Lemma run_tool_call_kept E tc st : kept_by st (run_tool_call E tc st).1.
Proof.
  unfold run_tool_call.
  pose proof (try_tool_call_kept E tc st) as H.
  destruct (try_tool_call E tc st) as [st' [e|]]; [|done]. simpl in H.
  destruct e; simpl;
    try (eapply kept_by_trans; [exact H|apply handle_failure_kept]).
  exact H.
Qed.

Lemma run_tool_calls_kept E tcs st : kept_by st (run_tool_calls E tcs st).1.
Proof.
  revert st. induction tcs as [|tc tcs IH]; intros st; simpl;
    [apply kept_by_refl|].
  pose proof (run_tool_call_kept E tc st) as H.
  destruct (run_tool_call E tc st) as [st' [e|]]; [done|].
  eapply kept_by_trans; [exact H|apply IH].
Qed.

(** What the loop keeps: every iteration is one call of the model, the
    counter does not pass the bound, the loop itself yields no warning,
    and with the fuel it is given it stops on the test of the [while]
    only when the bound is reached. *)
Lemma tool_loop_invariant E sp max fuel it st :
  let r := tool_loop E sp max fuel it st in
  model_calls (final r) + it = model_calls st + iteration r
  ∧ it ≤ iteration r
  ∧ (it ≤ max → iteration r ≤ max)
  ∧ (MaxIterationsWarning ∉ yielded st →
     MaxIterationsWarning ∉ yielded (final r))
  ∧ (max ≤ it + fuel → ended r = Exhausted → max ≤ iteration r).
Proof.
  revert it st. induction fuel as [|fuel IH]; intros it st; cbn zeta.
  { simpl. repeat split; auto with lia. }
  cbn [tool_loop]. case_decide as Hlt.
  2:{ simpl. repeat split; auto with lia. }
  destruct (chat E sp (conversation_history st)) as [m|e].
  2:{ simpl. repeat split; auto with lia. done. }
  assert (H0 : kept_by st
                 (yield_text (default [] (content m)) (count_call st)) →
               False ∨ True) by auto.
  clear H0.
  pose proof (kept_by_yield_text (default [] (content m)) (count_call st))
    as [Hc0 Hw0].
  destruct (tool_calls m) as [|tc tcs] eqn:Htcs.
  { cbn [final iteration ended]. repeat split; try lia.
    - simpl. rewrite Hc0. simpl. lia.
    - intros Hst. simpl. by apply Hw0.
    - done. }
  match goal with
  | |- context [run_tool_calls E (tc :: tcs) ?s] =>
      pose proof (run_tool_calls_kept E (tc :: tcs) s) as [Hc1 Hw1];
      destruct (run_tool_calls E (tc :: tcs) s) as [st1 [e|]]
  end; cbn [fst] in Hc1, Hw1; cbn [model_calls append_history yield] in Hc1.
  { cbn [final iteration ended]. repeat split; try lia.
    - rewrite Hc1, Hc0. simpl. lia.
    - intros Hst. apply Hw1. simpl.
      rewrite not_elem_of_app, not_elem_of_cons.
      split; [by apply Hw0|]. split; [done|apply not_elem_of_nil].
    - done. }
  specialize (IH (it + 1) (yield Newline st1)).
  destruct IH as (Hcalls & Hle & Hmax & Hwarn & Hfuel).
  cbn [model_calls yield] in Hcalls.
  repeat split; try lia.
  - rewrite Hc1, Hc0 in Hcalls. simpl in Hcalls. lia.
  - intros Hst. apply Hwarn. apply kept_by_yield; [done|].
    apply Hw1. simpl. rewrite not_elem_of_app, not_elem_of_cons.
    split; [by apply Hw0|]. split; [done|apply not_elem_of_nil].
  - intros ? ?. apply Hfuel; [lia|done].
Qed.

(** The model is called at most [max_iterations] times, whatever it
    answers. *)
Lemma stream_with_tools_calls_bounded E msg sp max history :
  model_calls (final (stream_with_tools E msg sp max history)) ≤ max.
Proof.
  unfold stream_with_tools.
  match goal with
  | |- context [tool_loop E sp max max 0 ?s] =>
      pose proof (tool_loop_invariant E sp max max 0 s) as (Hc & _ & Hm & _);
      set (r := tool_loop E sp max max 0 s) in *
  end.
  simpl in Hc. specialize (Hm (Nat.le_0_l _)).
  destruct (ended r); [case_decide; simpl; lia ..|lia].
Qed.

(** The warning is yielded exactly when no exception ended the run and
    the counter reached the bound, whether the loop ended on its test or
    on its [break]. *)
Lemma stream_with_tools_warning_iff E msg sp max history :
  let r := stream_with_tools E msg sp max history in
  MaxIterationsWarning ∈ yielded (final r)
  ↔ (∀ e, ended r ≠ Raised e) ∧ max ≤ iteration r.
Proof.
  unfold stream_with_tools.
  match goal with
  | |- context [tool_loop E sp max max 0 ?s] =>
      pose proof (tool_loop_invariant E sp max max 0 s) as (_ & _ & _ & Hw & _);
      set (r := tool_loop E sp max max 0 s) in *
  end.
  specialize (Hw ltac:(simpl; set_solver)).
  destruct (ended r) eqn:Hend.
  1,2: case_decide; simpl; rewrite ?Hend;
       [rewrite elem_of_app, list_elem_of_singleton; naive_solver
       |naive_solver].
  rewrite Hend. naive_solver.
Qed.

(** A run with a model that asks for tools at every call does not end
    by the [break]; unless an exception leaves the generator, the model
    is called exactly [max_iterations] times and the last chunk is the
    warning. *)
Lemma tool_loop_always_tools E sp max fuel it st :
  (∀ h, ∃ c tc tcs, chat E sp h = Ok {| content := c; tool_calls := tc :: tcs |}) →
  ended (tool_loop E sp max fuel it st) ≠ Broke.
Proof.
  intros Hchat. revert it st.
  induction fuel as [|fuel IH]; intros it st; cbn [tool_loop]; [done|].
  case_decide; [|done].
  destruct (Hchat (conversation_history st)) as (c & tc & tcs & ->).
  cbn [tool_calls content].
  match goal with
  | |- context [run_tool_calls E (tc :: tcs) ?s] =>
      destruct (run_tool_calls E (tc :: tcs) s) as [st' [e|]]; [done|]
  end.
  apply IH.
Qed.

Lemma stream_with_tools_always_tools E msg sp max history :
  (∀ h, ∃ c tc tcs, chat E sp h = Ok {| content := c; tool_calls := tc :: tcs |}) →
  let r := stream_with_tools E msg sp max history in
  (∀ e, ended r ≠ Raised e) →
  model_calls (final r) = max
  ∧ iteration r = max
  ∧ last (yielded (final r)) = Some MaxIterationsWarning.
Proof.
  intros Hchat. unfold stream_with_tools.
  match goal with
  | |- context [tool_loop E sp max max 0 ?s] =>
      pose proof (tool_loop_invariant E sp max max 0 s) as (Hc & _ & Hm & _ & Hf);
      pose proof (tool_loop_always_tools E sp max max 0 s Hchat) as Hend;
      set (r := tool_loop E sp max max 0 s) in *
  end.
  simpl in Hc. specialize (Hm (Nat.le_0_l _)).
  destruct (ended r) eqn:Hr; [done| |].
  - specialize (Hf ltac:(lia) eq_refl).
    rewrite decide_True by done. cbn [final iteration ended].
    intros _. simpl. rewrite last_snoc. repeat split; lia.
  - cbn zeta. rewrite Hr. intros Hno. by destruct (Hno e).
Qed.

(** A model that asks for one tool on each of its first four calls and
    answers in plain text on the fifth. *)
Definition is_assistant (m : message) : bool :=
  match m with AssistantMessage _ _ => true | _ => false end.

Definition assistant_turns (h : list message) : nat :=
  length (List.filter is_assistant h).

Definition list_tasks_call : tool_call :=
  {| tc_id := lit "call_1"; tc_name := lit "list_tasks";
     tc_arguments := lit "{}" |}.

Definition four_tools_then_text : env :=
  {| tools := {| call := λ _ _, Ok (Items []);
                 exn_text := λ _, [];
                 format_exc := λ _, [] |};
     project := "p";
     chat := λ _ h,
       if decide (assistant_turns h < 4) then
         Ok {| content := None; tool_calls := [list_tasks_call] |}
       else
         Ok {| content := Some (lit "All tasks are listed.");
               tool_calls := [] |};
     json_loads := λ _, Ok (JObj []);
     json_dumps := λ _, Ok (lit "{...}") |}.

(** C1.  With the default bound of five the model is called at most
    five times in every run.  A model that asks for tools four times and
    then answers without a tool call ends the loop by its [break] on the
    fifth call; the warning about the maximum of iterations is yielded
    all the same, as the last chunk. *)
Theorem stream_with_tools_warns_after_break :
  (∀ (E : env) (user_message system_prompt : str) (history : list message),
     model_calls (final (stream_with_tools E user_message system_prompt
                           default_max_iterations history)) ≤ 5)
  ∧ let r := stream_with_tools four_tools_then_text (lit "list my tasks")
               (lit "You are a helpful assistant.") default_max_iterations []
    in
    ended r = Broke
    ∧ model_calls (final r) = 5
    ∧ last (conversation_history (final r))
      = Some (AssistantMessage (lit "All tasks are listed.") [])
    ∧ last (yielded (final r)) = Some MaxIterationsWarning.
Proof.
  split.
  - intros E user_message system_prompt history.
    apply stream_with_tools_calls_bounded.
  - vm_compute. repeat split.
Qed.

End StreamFacts.

(** ** Context loader *)

Section ContextLoaderFacts.
Import Py ContextLoader.

(** The stored dict holds lists under the three list keys and a dict
    under [ai_memory], where these keys are present. *)
Definition well_formed (c : gmap string value) : Prop :=
  (∀ k, k ∈ ["files_generated"; "tasks_completed"; "recent_errors"]%string →
        ∀ v, c !! k = Some v → ∃ l, v = VList l)
  ∧ (∀ v, c !! "ai_memory"%string = Some v → ∃ m, v = VDict m).

Lemma set_if_given_lookup {A} k (inj : A → value) x c k' :
  set_if_given k inj x c !! k'
  = if decide (k = k') then
      match x with Some v => Some (inj v) | None => c !! k' end
    else c !! k'.
Proof.
  unfold set_if_given. destruct x; case_decide; subst;
    by rewrite ?lookup_insert_eq, ?lookup_insert_ne.
Qed.

Lemma build_update_data_lookup u :
  let c := build_update_data u in
  c !! "current_phase"%string = VStr <$> current_phase u
  ∧ c !! "current_task"%string = VStr <$> current_task u
  ∧ c !! "files_generated"%string = VList <$> files_generated u
  ∧ c !! "tasks_completed"%string = VList <$> tasks_completed u
  ∧ c !! "recent_errors"%string = VList <$> recent_errors u
  ∧ c !! "ai_memory"%string = VDict <$> ai_memory u.
Proof.
  unfold build_update_data.
  repeat split; rewrite !set_if_given_lookup; simpl;
    match goal with |- context [?f <$> ?x] => by destruct x end.
Qed.

Lemma merge_list_key_spec k f old c :
  (∀ v, old !! k = Some v → ∃ l, v = VList l) →
  (∀ v, c !! k = Some v → ∃ l, v = VList l) →
  ∃ c', merge_list_key k f old c = Ok c'
        ∧ (∀ k', k' ≠ k → c' !! k' = c !! k')
        ∧ c' !! k = match c !! k, old !! k with
                    | Some (VList n), Some (VList o) => Some (VList (f o n))
                    | x, _ => x
                    end.
Proof.
  intros Hold Hc. unfold merge_list_key.
  destruct (c !! k) as [vn|] eqn:Hn; [|by exists c].
  destruct (Hc _ eq_refl) as [n ->].
  destruct (old !! k) as [vo|] eqn:Ho; [|by exists c].
  destruct (Hold _ eq_refl) as [o ->].
  eexists. split; [done|]. split.
  - intros k' Hk'. by rewrite lookup_insert_ne.
  - by rewrite lookup_insert_eq.
Qed.

Lemma merge_memory_spec old c :
  (∀ v, old !! "ai_memory"%string = Some v → ∃ m, v = VDict m) →
  (∀ v, c !! "ai_memory"%string = Some v → ∃ m, v = VDict m) →
  ∃ c', merge_memory old c = Ok c'
        ∧ (∀ k', k' ≠ "ai_memory"%string → c' !! k' = c !! k')
        ∧ c' !! "ai_memory"%string
          = match c !! "ai_memory"%string, old !! "ai_memory"%string with
            | Some (VDict n), Some (VDict o) => Some (VDict (n ∪ o))
            | x, _ => x
            end.
Proof.
  intros Hold Hc. unfold merge_memory.
  destruct (c !! "ai_memory"%string) as [vn|] eqn:Hn; [|by exists c].
  destruct (Hc _ eq_refl) as [n ->].
  destruct (old !! "ai_memory"%string) as [vo|] eqn:Ho; [|by exists c].
  destruct (Hold _ eq_refl) as [o ->].
  eexists. split; [done|]. split.
  - intros k' Hk'. by rewrite lookup_insert_ne.
  - by rewrite lookup_insert_eq.
Qed.

(** The dict stored by a merge, key by key. *)
Lemma merge_into_spec old u :
  well_formed old →
  ∃ new, merge_into old (build_update_data u) = Ok new
    ∧ new !! "files_generated"%string
      = match files_generated u, old !! "files_generated"%string with
        | Some n, Some (VList o) => Some (VList (union_list o n))
        | Some n, _ => Some (VList n)
        | None, x => x
        end
    ∧ new !! "tasks_completed"%string
      = match tasks_completed u, old !! "tasks_completed"%string with
        | Some n, Some (VList o) => Some (VList (union_list o n))
        | Some n, _ => Some (VList n)
        | None, x => x
        end
    ∧ new !! "recent_errors"%string
      = match recent_errors u, old !! "recent_errors"%string with
        | Some n, Some (VList o) => Some (VList (concat_last_10 o n))
        | Some n, _ => Some (VList n)
        | None, x => x
        end
    ∧ new !! "ai_memory"%string
      = match ai_memory u, old !! "ai_memory"%string with
        | Some n, Some (VDict o) => Some (VDict (n ∪ o))
        | Some n, _ => Some (VDict n)
        | None, x => x
        end
    ∧ new !! "current_phase"%string
      = match current_phase u with
        | Some p => Some (VStr p)
        | None => old !! "current_phase"%string
        end
    ∧ new !! "current_task"%string
      = match current_task u with
        | Some t => Some (VStr t)
        | None => old !! "current_task"%string
        end.
Proof.
  intros [Hlists Hmem].
  destruct (build_update_data_lookup u) as (Hp & Ht & Hf & Hc & Hr & Hm).
  set (c0 := build_update_data u) in *.
  assert (Hin : ∀ k, k ∈ ["files_generated"; "tasks_completed";
                          "recent_errors"]%string →
                     ∀ v, old !! k = Some v → ∃ l, v = VList l)
    by exact Hlists.
  destruct (merge_list_key_spec "files_generated" union_list old c0)
    as (c1 & E1 & O1 & K1).
  { apply Hin. set_solver. }
  { rewrite Hf. intros v. destruct (files_generated u); naive_solver. }
  destruct (merge_list_key_spec "tasks_completed" union_list old c1)
    as (c2 & E2 & O2 & K2).
  { apply Hin. set_solver. }
  { rewrite O1, Hc by done. intros v.
    destruct (tasks_completed u); naive_solver. }
  destruct (merge_list_key_spec "recent_errors" concat_last_10 old c2)
    as (c3 & E3 & O3 & K3).
  { apply Hin. set_solver. }
  { rewrite O2, O1, Hr by done. intros v.
    destruct (recent_errors u); naive_solver. }
  destruct (merge_memory_spec old c3) as (c4 & E4 & O4 & K4).
  { exact Hmem. }
  { rewrite O3, O2, O1, Hm by done. intros v.
    destruct (ai_memory u); naive_solver. }
  exists (c4 ∪ old). unfold merge_into. fold c0.
  rewrite E1. simpl. rewrite E2. simpl. rewrite E3. simpl. rewrite E4.
  simpl. split; [done|].
  repeat split; rewrite lookup_union.
  - rewrite O4, O3, O2, K1, Hf by done.
    destruct (files_generated u) as [n|]; simpl.
    + destruct (old !! "files_generated"%string) as [[]|]; by simpl.
    + by rewrite (left_id_L None _).
  - rewrite O4, O3, K2, O1, Hc by done.
    destruct (tasks_completed u) as [n|]; simpl.
    + destruct (old !! "tasks_completed"%string) as [[]|]; by simpl.
    + by rewrite (left_id_L None _).
  - rewrite O4, K3, O2, O1, Hr by done.
    destruct (recent_errors u) as [n|]; simpl.
    + destruct (old !! "recent_errors"%string) as [[]|]; by simpl.
    + by rewrite (left_id_L None _).
  - rewrite K4, O3, O2, O1, Hm by done.
    destruct (ai_memory u) as [n|]; simpl.
    + destruct (old !! "ai_memory"%string) as [[]|]; by simpl.
    + by rewrite (left_id_L None _).
  - rewrite O4, O3, O2, O1, Hp by done.
    destruct (current_phase u); simpl; [|by rewrite (left_id_L None _)].
    by destruct (old !! "current_phase"%string).
  - rewrite O4, O3, O2, O1, Ht by done.
    destruct (current_task u); simpl; [|by rewrite (left_id_L None _)].
    by destruct (old !! "current_task"%string).
Qed.

Lemma last_n_suffix {A} n (l : list A) : last_n n l `suffix_of` l.
Proof. unfold last_n. apply suffix_drop. Qed.

Lemma last_n_length {A} n (l : list A) :
  length (last_n n l) = n `min` length l.
Proof. unfold last_n. rewrite length_drop. lia. Qed.

Lemma union_list_spec (a b : list str) :
  NoDup (union_list a b) ∧ ∀ x, x ∈ union_list a b ↔ x ∈ a ∨ x ∈ b.
Proof.
  unfold union_list. split; [apply NoDup_remove_dups|].
  intros x. by rewrite elem_of_remove_dups, elem_of_app.
Qed.

Definition context_keys : list string :=
  ["current_phase"; "current_task"; "files_generated"; "tasks_completed";
   "recent_errors"; "ai_memory"]%string.

Lemma build_update_data_other u k :
  k ∉ context_keys → build_update_data u !! k = None.
Proof.
  intros Hk. unfold build_update_data, context_keys in *.
  rewrite !not_elem_of_cons in Hk.
  rewrite !set_if_given_lookup.
  repeat (case_decide; [naive_solver|]). apply lookup_empty.
Qed.

Definition err (n : nat) : str := lit "err-" ++ str_of_nat n.

(** The call that [generate_with_planning] makes once the code of a
    feature is generated: no list of files and no list of errors. *)
Definition after_feature_request : update :=
  {| current_phase := Some (lit "code_generation_complete");
     current_task := Some (lit "feature_request");
     files_generated := None;
     tasks_completed := Some [lit "t1"; lit "t2"];
     recent_errors := None;
     ai_memory := Some {[ "plan_type"%string := lit "full_feature" ]} |}.

(** A later call, with eleven errors and a file named twice. *)
Definition errors_and_files : update :=
  {| current_phase := None; current_task := None;
     files_generated := Some [lit "a.py"; lit "a.py"];
     tasks_completed := None;
     recent_errors := Some (err <$> seq 1 11);
     ai_memory := None |}.

(** C2.  On a project whose row was written by the call of
    [generate_with_planning], and so holds neither [recent_errors] nor
    [files_generated], [update_memory] with [merge] true stores the
    eleven errors it is given, not the last ten, and the list of files
    with its duplicate, not a union.  In general, on a project that has
    a row, a list that the call supplies is merged with the stored one
    only when the row holds that key: then [files_generated] and
    [tasks_completed] hold, without duplicates, the members of the old
    and of the new list, and [recent_errors] is the last ten entries of
    the old list followed by the new one; under a key that the row
    lacks the new list is stored as it is given.  [ai_memory] has the
    new entries and, under the other keys, the old ones; the phase and
    the task are the ones given.  With [merge] false the stored dict is
    made of the given fields alone. *)
Theorem update_memory_merge :
  (∃ row stored,
     update_memory true "p" after_feature_request true ∅
     = Ok {[ "p"%string := row ]}
     ∧ update_memory true "p" errors_and_files true {[ "p"%string := row ]}
       = Ok {[ "p"%string := stored ]}
     ∧ length (stored_list "recent_errors" stored) = 11
     ∧ stored_list "files_generated" stored = [lit "a.py"; lit "a.py"])
  ∧ (∀ (project_id : string) (u : update)
       (agent_context : gmap string (gmap string value))
       (old : gmap string value),
       agent_context !! project_id = Some old →
       well_formed old →
       (∃ new,
          update_memory true project_id u true agent_context
          = Ok (<[project_id := new]> agent_context)
          ∧ (∀ n, files_generated u = Some n →
                  ∃ l, new !! "files_generated"%string = Some (VList l)
                       ∧ match old !! "files_generated"%string with
                         | Some (VList o) =>
                             NoDup l ∧ ∀ x, x ∈ l ↔ x ∈ o ∨ x ∈ n
                         | _ => l = n
                         end)
          ∧ (∀ n, tasks_completed u = Some n →
                  ∃ l, new !! "tasks_completed"%string = Some (VList l)
                       ∧ match old !! "tasks_completed"%string with
                         | Some (VList o) =>
                             NoDup l ∧ ∀ x, x ∈ l ↔ x ∈ o ∨ x ∈ n
                         | _ => l = n
                         end)
          ∧ (∀ n, recent_errors u = Some n →
                  ∃ l, new !! "recent_errors"%string = Some (VList l)
                       ∧ match old !! "recent_errors"%string with
                         | Some (VList o) =>
                             l `suffix_of` (o ++ n)
                             ∧ length l = 10 `min` length (o ++ n)
                         | _ => l = n
                         end)
          ∧ (∀ n, ai_memory u = Some n →
                  ∃ m, new !! "ai_memory"%string = Some (VDict m)
                       ∧ ∀ k, m !! k
                              = match n !! k with
                                | Some v => Some v
                                | None =>
                                    match old !! "ai_memory"%string with
                                    | Some (VDict o) => o !! k
                                    | _ => None
                                    end
                                end)
          ∧ (∀ p, current_phase u = Some p →
                  new !! "current_phase"%string = Some (VStr p))
          ∧ (∀ t, current_task u = Some t →
                  new !! "current_task"%string = Some (VStr t)))
       ∧ (∃ new,
            update_memory true project_id u false agent_context
            = Ok (<[project_id := new]> agent_context)
            ∧ new !! "current_phase"%string = VStr <$> current_phase u
            ∧ new !! "current_task"%string = VStr <$> current_task u
            ∧ new !! "files_generated"%string = VList <$> files_generated u
            ∧ new !! "tasks_completed"%string = VList <$> tasks_completed u
            ∧ new !! "recent_errors"%string = VList <$> recent_errors u
            ∧ new !! "ai_memory"%string = VDict <$> ai_memory u
            ∧ ∀ k, k ∉ context_keys → new !! k = None)).
Proof.
  split.
  { exists (build_update_data after_feature_request).
    eexists. split; [vm_compute; reflexivity|].
    split; [vm_compute; reflexivity|]. split; vm_compute; reflexivity. }
  intros project_id u agent_context old Hrow Hwf. split.
  - destruct (merge_into_spec old u Hwf)
      as (new & Hnew & Hf & Hc & Hr & Hm & Hp & Ht).
    exists new. split.
    { unfold update_memory. simpl. rewrite Hrow, Hnew. done. }
    repeat split.
    + intros n Hn. rewrite Hn in Hf.
      destruct (old !! "files_generated"%string) as [[|o|]|];
        try (by exists n).
      exists (union_list o n). split; [done|]. apply union_list_spec.
    + intros n Hn. rewrite Hn in Hc.
      destruct (old !! "tasks_completed"%string) as [[|o|]|];
        try (by exists n).
      exists (union_list o n). split; [done|]. apply union_list_spec.
    + intros n Hn. rewrite Hn in Hr.
      destruct (old !! "recent_errors"%string) as [[|o|]|];
        try (by exists n).
      exists (concat_last_10 o n). split; [done|]. unfold concat_last_10.
      split; [apply last_n_suffix|apply last_n_length].
    + intros n Hn. rewrite Hn in Hm.
      destruct (old !! "ai_memory"%string) as [[| |o]|];
        try (exists n; split; [done|]; intros k; by destruct (n !! k)).
      exists (n ∪ o). split; [done|]. intros k. rewrite lookup_union.
      destruct (n !! k), (o !! k); done.
    + intros p' Hp'. by rewrite Hp' in Hp.
    + intros t' Ht'. by rewrite Ht' in Ht.
  - exists (build_update_data u). split; [done|].
    destruct (build_update_data_lookup u) as (? & ? & ? & ? & ? & ?).
    repeat split; try done. apply build_update_data_other.
Qed.

Definition old_context : gmap string value :=
  {[ "current_phase"%string := VStr (lit "planning");
     "files_generated"%string := VList [lit "a.py"; lit "b.py"];
     "tasks_completed"%string := VList [lit "t1"];
     "recent_errors"%string := VList (err <$> seq 1 8);
     "ai_memory"%string := VDict {[ "plan_type"%string := lit "draft" ]} ]}.

Definition an_update : update :=
  {| current_phase := Some (lit "code_generation_complete");
     current_task := Some (lit "feature_request");
     files_generated := Some [lit "b.py"; lit "c.py"];
     tasks_completed := Some [lit "t1"; lit "t2"];
     recent_errors := Some (err <$> seq 9 5);
     ai_memory := Some {[ "plan_type"%string := lit "full_feature" ]} |}.

Lemma old_context_well_formed : well_formed old_context.
Proof.
  split.
  - intros k Hk v. rewrite !elem_of_cons in Hk.
    destruct Hk as [->|[->|[->|Hk]]]; [| | |by apply elem_of_nil in Hk];
      vm_compute; intros [= <-]; eauto.
  - intros v. vm_compute. intros [= <-]. eauto.
Defined.

Lemma update_memory_merge_witness :
  ∃ new l,
    update_memory true "p" an_update true {[ "p"%string := old_context ]}
    = Ok (<["p"%string := new]> {[ "p"%string := old_context ]})
    ∧ new !! "recent_errors"%string = Some (VList l)
    ∧ length l = 10
    ∧ new !! "current_phase"%string
      = Some (VStr (lit "code_generation_complete")).
Proof.
  destruct update_memory_merge as [_ Hgeneral].
  destruct (Hgeneral "p" an_update {[ "p"%string := old_context ]}
              old_context (lookup_singleton_eq _ _) old_context_well_formed)
    as [(new & Hnew & _ & _ & Herr & _ & Hphase & _) _].
  destruct (Herr (err <$> seq 9 5) eq_refl) as (l & Hl & Hcap).
  change (old_context !! "recent_errors"%string)
    with (Some (VList (err <$> seq 1 8))) in Hcap.
  destruct Hcap as [_ Hlen].
  exists new, l. repeat split; [exact Hnew|exact Hl|exact Hlen|].
  apply Hphase. reflexivity.
Defined.

Definition eleven_errors : update :=
  {| current_phase := None; current_task := None;
     files_generated := None; tasks_completed := None;
     recent_errors := Some (err <$> seq 1 11);
     ai_memory := None |}.

(** C3.  The first [update_memory] of a project, and so a call on a
    project without a row, stores the list of recent errors as it is
    given: eleven entries stay eleven.  The same holds with [merge]
    false on a project that has a row. *)
Theorem update_memory_first_call_keeps_eleven :
  (∃ stored,
     update_memory true "p" eleven_errors true ∅
     = Ok (<["p"%string := stored]> ∅)
     ∧ length (stored_list "recent_errors" stored) = 11)
  ∧ (∃ stored,
       update_memory true "p" eleven_errors false
         {[ "p"%string := old_context ]}
       = Ok (<["p"%string := stored]> {[ "p"%string := old_context ]})
       ∧ length (stored_list "recent_errors" stored) = 11).
Proof.
  split; exists (build_update_data eleven_errors); (split; [done|]);
    unfold stored_list;
    destruct (build_update_data_lookup eleven_errors)
      as (_ & _ & _ & _ & -> & _); reflexivity.
Qed.

End ContextLoaderFacts.

(** ** Backend process manager *)

Section BackendManagerFacts.
Import Py BackendManager.

Lemma elem_of_used_ports (rb : gmap string backend_info) (p : Z) :
  p ∈ used_ports rb ↔ ∃ id info, rb !! id = Some info ∧ port info = p.
Proof.
  unfold used_ports. rewrite elem_of_list_to_set, list_elem_of_fmap.
  split.
  - intros (info & -> & Hin). apply list_elem_of_fmap in Hin
      as ([id info'] & -> & Hin). apply elem_of_map_to_list in Hin. eauto.
  - intros (id & info & Hlk & <-). exists info. split; [done|].
    apply list_elem_of_fmap. exists (id, info). split; [done|].
    by apply elem_of_map_to_list.
Qed.

Lemma candidates_lookup (i : nat) :
  candidates !! i
  = if decide (i < MAX_BACKENDS) then Some (BASE_PORT + Z.of_nat i)%Z
    else None.
Proof.
  unfold candidates. rewrite list_lookup_fmap.
  case_decide.
  - by rewrite lookup_seq_lt.
  - by rewrite lookup_seq_ge by lia.
Qed.

(** The port returned is in the range, free, and every lower port of
    the range is held; an exception means that the whole range is
    held. *)
Lemma allocate_port_spec (rb : gmap string backend_info) :
  match allocate_port rb with
  | Ok p =>
      (BASE_PORT ≤ p < BASE_PORT + Z.of_nat MAX_BACKENDS)%Z
      ∧ (p ∉ used_ports rb)
      ∧ ∀ q, (BASE_PORT ≤ q < p)%Z → q ∈ used_ports rb
  | Raise _ =>
      ∀ q, (BASE_PORT ≤ q < BASE_PORT + Z.of_nat MAX_BACKENDS)%Z →
           q ∈ used_ports rb
  end.
Proof.
  unfold allocate_port.
  destruct (list_find _ candidates) as [[i p]|] eqn:Hfind.
  - apply list_find_Some in Hfind as (Hi & Hfree & Hmin).
    rewrite candidates_lookup in Hi. case_decide as Hlt; [|done].
    injection Hi as <-. split; [lia|]. split; [done|].
    intros q Hq.
    destruct (decide (q ∈ used_ports rb)) as [|Hnot]; [done|].
    exfalso. apply (Hmin (Z.to_nat (q - BASE_PORT)) q); [|lia|done].
    rewrite candidates_lookup. rewrite decide_True by lia.
    f_equal. lia.
  - apply list_find_None in Hfind. rewrite Forall_forall in Hfind.
    intros q Hq.
    destruct (decide (q ∈ used_ports rb)) as [|Hnot]; [done|].
    exfalso. apply (Hfind q); [|done].
    apply list_elem_of_lookup. exists (Z.to_nat (q - BASE_PORT)).
    rewrite candidates_lookup, decide_True by lia. f_equal. lia.
Qed.

(** No two entries of the map hold the same port. *)
Definition ports_distinct (rb : gmap string backend_info) : Prop :=
  ∀ i j a b, rb !! i = Some a → rb !! j = Some b → port a = port b → i = j.

Lemma ports_distinct_delete rb k :
  ports_distinct rb → ports_distinct (delete k rb).
Proof.
  intros H i j a b Hi Hj. apply lookup_delete_Some in Hi as [_ Hi].
  apply lookup_delete_Some in Hj as [_ Hj]. by apply H.
Qed.

Lemma ports_distinct_insert rb k info :
  ports_distinct rb → port info ∉ used_ports rb →
  ports_distinct (<[k := info]> rb).
Proof.
  intros H Hfree i j a b Hi Hj Hab.
  apply lookup_insert_Some in Hi as [[<- <-]|[Hki Hi]];
  apply lookup_insert_Some in Hj as [[<- <-]|[Hkj Hj]]; [done| | |by eapply H].
  - exfalso. apply Hfree, elem_of_used_ports. eauto.
  - exfalso. apply Hfree, elem_of_used_ports. eauto.
Qed.

Lemma start_backend_distinct H p rb :
  ports_distinct rb → ports_distinct (start_backend H p rb).2.
Proof.
  intros Hrb. unfold start_backend.
  destruct (rb !! p); [done|].
  destruct (workspace_exists H); [|done].
  destruct (main_py_exists H); [|done]. simpl.
  pose proof (allocate_port_spec rb) as Hspec.
  destruct (allocate_port rb) as [q|]; [|done]. simpl.
  destruct (spawn H); [|done]. simpl.
  apply ports_distinct_insert; [done|]. simpl. tauto.
Qed.

Lemma stop_backend_process_distinct H p rb :
  ports_distinct rb → ports_distinct (stop_backend_process H p rb).2.
Proof.
  intros Hrb. unfold stop_backend_process.
  destruct (rb !! p); [|done]. by apply ports_distinct_delete.
Qed.

(** Induction on a request, with the requests served during a
    restart. *)
Lemma request_nested_ind (P : request → Prop) :
  (∀ H p, P (Start H p)) →
  (∀ H p, P (Stop H p)) →
  (∀ H p during, Forall P during → P (Restart H p during)) →
  (∀ H p, P (Status H p)) →
  (∀ H, P (StopAll H)) →
  ∀ r, P r.
Proof.
  intros Hstart Hstop Hrestart Hstatus Hall.
  fix IH 1. intros [H p|H p|H p during|H p|H].
  - apply Hstart.
  - apply Hstop.
  - apply Hrestart. induction during as [|r during IHd].
    + apply Forall_nil_2.
    + apply Forall_cons_2; [apply IH|exact IHd].
  - apply Hstatus.
  - apply Hall.
Qed.

Lemma stop_backend_process_delete H p rb :
  (stop_backend_process H p rb).2 = delete p rb.
Proof.
  unfold stop_backend_process. destruct (rb !! p) eqn:Hp; [done|].
  simpl. symmetry. by apply delete_id.
Qed.

(** What every start and every removal of an entry keeps, every request
    keeps. *)
Lemma handle_invariant (P : gmap string backend_info → Prop) :
  (∀ H p rb, P rb → P (start_backend H p rb).2) →
  (∀ p rb, P rb → P (delete p rb)) →
  ∀ r rb, P rb → P (handle rb r).
Proof.
  intros Hstart Hdelete r.
  induction r as [H p|H p|H p during IH|H p|H] using request_nested_ind;
    intros rb Hrb; cbn [handle].
  - by apply Hstart.
  - unfold stop_backend. destruct (rb !! p) eqn:Hp; [|done].
    pose proof (stop_backend_process_delete H p rb) as Hd.
    destruct (stop_backend_process H p rb) as [ok rb']. simpl in *.
    subst. by apply Hdelete.
  - unfold restart_backend. apply Hstart.
    destruct (rb !! p); [|done]. rewrite stop_backend_process_delete.
    generalize (delete p rb) (Hdelete p rb Hrb). clear rb Hrb.
    induction IH as [|r during Hr _ IHd]; intros rb Hrb; [done|].
    cbn [fold_left]. apply IHd. by apply Hr.
  - unfold get_backend_status. destruct (rb !! p); [|done].
    destruct (no_such_process H); [|done]. by apply Hdelete.
  - unfold stop_all_backends.
    generalize (map_to_list rb).*1. intros ids. revert rb Hrb.
    induction ids as [|id ids IH]; intros rb Hrb; simpl; [done|].
    apply IH. rewrite stop_backend_process_delete. by apply Hdelete.
Qed.

Lemma handle_distinct rb r :
  ports_distinct rb → ports_distinct (handle rb r).
Proof.
  apply handle_invariant.
  - intros H p rb'. apply start_backend_distinct.
  - intros p rb'. apply ports_distinct_delete.
Qed.

Lemma serve_distinct rs : ports_distinct (serve rs).
Proof.
  unfold serve.
  assert (Hempty : ports_distinct (∅ : gmap string backend_info)).
  { intros i j a b Hi. by rewrite lookup_empty in Hi. }
  revert Hempty. generalize (∅ : gmap string backend_info).
  induction rs as [|r rs IH]; intros rb Hrb; simpl; [done|].
  by apply IH, handle_distinct.
Qed.

(** A host on which every start succeeds. *)
Definition ready (process_pid : Z) : host :=
  {| workspace_exists := true; main_py_exists := true;
     spawn := Ok process_pid; now := 0; stop_ok := true;
     no_such_process := false |}.

Definition port_of (rb : gmap string backend_info) (project_id : string)
  : option Z :=
  port <$> rb !! project_id.

Definition three_started : gmap string backend_info :=
  serve [Start (ready 501) "alpha"; Start (ready 502) "beta";
         Start (ready 503) "gamma"].




End BackendManagerFacts.

(** ** Preview builder: staging *)

Section StagingFacts.
Import Py Preview.



Definition keys (d : list (str * str)) : list str := fst <$> d.



















(** The workspace of the project [p1]. *)
Definition p1_frontend : list str :=
  [lit "disk"; lit "backend"; lit ".preview-builds"; lit "p1";
   lit "frontend"].



(** What the disk decides, on three sets of rows.  A row whose path is
    a directory of a later row stops the staging at the later row; two
    normalized paths that differ in a repeated slash are one file, which
    keeps the text of the later one; a path that climbs with [..] is
    written outside of the workspace. *)
Example stage_file_in_the_way :
  (stage linkfree (Ok ()) (lit "p1")
     [(lit "src/a", lit "x"); (lit "src/a/b.tsx", lit "y")] ∅).1
  = Interrupted (os_exn FileExistsError)
      [(p1_frontend ++ [lit "src"; lit "a"], lit "x")].
Proof. by vm_compute. Qed.

Example stage_same_file_twice :
  let run := stage linkfree (Ok ()) (lit "p1")
               [(lit "src/a.tsx", lit "x"); (lit "src//a.tsx", lit "y")] ∅ in
  run.1 = Written [(p1_frontend ++ [lit "src"; lit "a.tsx"], lit "x");
                   (p1_frontend ++ [lit "src"; lit "a.tsx"], lit "y")]
  ∧ run.2 !! (p1_frontend ++ [lit "src"; lit "a.tsx"]) = Some (File (lit "y")).
Proof. by vm_compute. Qed.

Example stage_outside_workspace :
  let run := stage linkfree (Ok ()) (lit "p1")
               [(lit "../../main.py", lit "x")] ∅ in
  run.1 = Written [(p1_frontend ++ [lit "src"; lit ".."; lit ".."; lit "main.py"],
                    lit "x")]
  ∧ run.2 !! [lit "disk"; lit "backend"; lit ".preview-builds"; lit "p1";
              lit "main.py"] = Some (File (lit "x")).
Proof. by vm_compute. Qed.

End StagingFacts.

(** ** Preview builder: serving assets *)

Section AssetFacts.
Import Py Preview.

(** What the code ensures in each of its outcomes: status 404 without a
    cache entry and for a path that is not an existing regular file;
    status 403 when the text of the resolved path does not start with
    the text of the resolved assets directory; otherwise the file is
    served, with the media type of its extension.  What a question to
    the file system raises leaves the function as it is. *)
Lemma serve_preview_assets_cases fs cache project_id filepath :
  match serve_preview_assets fs cache project_id filepath with
  | Ok rsp =>
      ∃ dist_dir root, cache !! project_id = Some dist_dir
        ∧ path_exists fs (joinpath (dist_dir ++ [lit "assets"]) filepath)
          = Ok true
        ∧ path_is_file fs (joinpath (dist_dir ++ [lit "assets"]) filepath)
          = Ok true
        ∧ path_resolve fs (joinpath (dist_dir ++ [lit "assets"]) filepath)
          = Ok (served rsp)
        ∧ path_resolve fs (dist_dir ++ [lit "assets"]) = Ok root
        ∧ startswith (path_str root) (path_str (served rsp)) = true
        ∧ media_type rsp = media_type_of filepath
  | Raise e =>
      (cache !! project_id = None
       ∧ e = HTTPException 404 (lit "Preview not built"))
      ∨ ∃ dist_dir, cache !! project_id = Some dist_dir
          ∧ let asset_path := joinpath (dist_dir ++ [lit "assets"]) filepath in
            path_exists fs asset_path = Raise e
            ∨ (path_exists fs asset_path = Ok false
               ∧ e = HTTPException 404 (lit "Asset not found"))
            ∨ (path_exists fs asset_path = Ok true
               ∧ (path_is_file fs asset_path = Raise e
                  ∨ (path_is_file fs asset_path = Ok false
                     ∧ e = HTTPException 404 (lit "Asset not found"))
                  ∨ (path_is_file fs asset_path = Ok true
                     ∧ (path_resolve fs asset_path = Raise e
                        ∨ ∃ resolved,
                            path_resolve fs asset_path = Ok resolved
                            ∧ (path_resolve fs (dist_dir ++ [lit "assets"])
                               = Raise e
                               ∨ ∃ root,
                                   path_resolve fs (dist_dir ++ [lit "assets"])
                                   = Ok root
                                   ∧ startswith (path_str root)
                                       (path_str resolved) = false
                                   ∧ e = HTTPException 403
                                           (lit "Invalid asset path"))))))
  end.
Proof.
  unfold serve_preview_assets.
  destruct (cache !! project_id) as [dist_dir|]; [|by left].
  destruct (path_exists fs _) as [found|e] eqn:Hex; cbn [bind].
  2:{ right. exists dist_dir. split; [done|]. by left. }
  destruct found; cbn [bind].
  2:{ right. exists dist_dir. split; [done|]. right. by left. }
  destruct (path_is_file fs _) as [regular|e] eqn:Hfile; cbn [bind].
  2:{ right. exists dist_dir. split; [done|]. right. right.
      split; [done|]. by left. }
  destruct regular; cbn [negb].
  2:{ right. exists dist_dir. split; [done|]. right. right.
      split; [done|]. right. by left. }
  destruct (path_resolve fs (joinpath _ _)) as [resolved|e] eqn:Hres;
    cbn [bind].
  2:{ right. exists dist_dir. split; [done|]. right. right.
      split; [done|]. right. right. split; [done|]. by left. }
  destruct (path_resolve fs (dist_dir ++ _)) as [root|e] eqn:Hroot;
    cbn [bind].
  2:{ right. exists dist_dir. split; [done|]. right. right.
      split; [done|]. right. right. split; [done|]. right.
      exists resolved. split; [done|]. by left. }
  destruct (startswith _ _) eqn:Hpre; cbn [negb].
  - by exists dist_dir, root.
  - right. exists dist_dir. split; [done|]. right. right.
    split; [done|]. right. right. split; [done|]. right.
    exists resolved. split; [done|]. right. by exists root.
Qed.

Lemma media_type_of_extensions :
  media_type_of (lit "index-4f3a.js") = "application/javascript"%string
  ∧ media_type_of (lit "index-4f3a.css") = "text/css"%string
  ∧ media_type_of (lit "manifest.json") = "application/json"%string
  ∧ media_type_of (lit "logo.svg") = "image/svg+xml"%string
  ∧ media_type_of (lit "font.woff2") = "application/octet-stream"%string.
Proof. repeat split. Qed.

Definition dist : list str :=
  [lit "disk"; lit "backend"; lit ".preview-builds"; lit "p1";
   lit "frontend"; lit "dist"].

(** A dist directory with its [assets] folder and, next to it, a folder
    [assets-old] that holds a file. *)
Definition with_sibling : filesystem :=
  plain
  {| is_dir_at := λ p,
       bool_decide (p `prefix_of` dist)
       || bool_decide (p = dist ++ [lit "assets"])
       || bool_decide (p = dist ++ [lit "assets-old"]);
     is_file_at := λ p,
       bool_decide (p = dist ++ [lit "assets"; lit "index-4f3a.js"])
       || bool_decide (p = dist ++ [lit "assets-old"; lit "secret.js"]) |}.

(** C10.  A file in a folder next to [assets] whose name starts with
    [assets] is served: the test compares the texts of the two resolved
    paths, and the text of the one starts with the text of the other
    although the file is not inside the assets folder. *)
Theorem serve_preview_assets_serves_sibling :
  serve_preview_assets with_sibling {[ "p1"%string := dist ]} "p1"
    (lit "../assets-old/secret.js")
  = Ok {| served := dist ++ [lit "assets-old"; lit "secret.js"];
          media_type := "application/javascript" |}
  ∧ ¬ inside (dist ++ [lit "assets"])
        (dist ++ [lit "assets-old"; lit "secret.js"]).
Proof.
  split; [vm_compute; reflexivity|].
  unfold inside. intros [k Hk].
  rewrite <- app_assoc in Hk. apply app_inv_head in Hk.
  discriminate Hk.
Qed.

End AssetFacts.

(** ** Preview builder: the Python manifest *)

Section ManifestFacts.
Import Py Preview.

(** *** Splitting and joining lines *)

Lemma split_cons_sep (sep : ascii) (s : str) :
  split sep (sep :: s) = [] :: split sep s.
Proof. simpl. by rewrite Ascii.eqb_refl. Qed.

Lemma split_pieces_free (sep : ascii) (s : str) :
  Forall (λ l, sep ∉ l) (split sep s).
Proof.
  induction s as [|c s IH]; simpl.
  - repeat constructor. apply not_elem_of_nil.
  - rewrite eqb_decide. case_bool_decide as Hc.
    + constructor; [apply not_elem_of_nil|done].
    + destruct (split sep s) as [|w ws]; [repeat constructor|].
      * rewrite elem_of_cons, elem_of_nil. naive_solver.
      * apply Forall_cons in IH as [Hw Hws]. constructor; [|done].
        rewrite not_elem_of_cons. naive_solver.
Qed.

Lemma split_join (sep : ascii) (ls : list str) :
  ls ≠ [] → Forall (λ l, sep ∉ l) ls → split sep (join [sep] ls) = ls.
Proof.
  induction ls as [|l ls IH]; [done|]. intros _ Hall.
  apply Forall_cons in Hall as [Hl Hls].
  destruct ls as [|l' ls].
  - simpl. by apply split_no_sep.
  - change (join [sep] (l :: l' :: ls))
      with (l ++ sep :: join [sep] (l' :: ls)).
    rewrite split_app_sep by done. f_equal. by apply IH.
Qed.

(** *** The first line of the group *)

Lemma find_line_Some (p : str → bool) (ls : list str) (i : nat) :
  find_line p ls = Some i
  ↔ ∃ l, ls !! i = Some l ∧ p l = true
         ∧ ∀ j l', j < i → ls !! j = Some l' → p l' = false.
Proof.
  revert i. induction ls as [|l ls IH]; intros i; simpl.
  - split; [done|]. by intros (l & ? & _).
  - destruct (p l) eqn:Hl.
    + split.
      * intros [= <-]. exists l. repeat split; [done|]. intros; lia.
      * intros (l' & Hi & Hp & Hmin). destruct i as [|i]; [done|].
        specialize (Hmin 0 l ltac:(lia) eq_refl). congruence.
    + split.
      * intros Hfind. destruct (find_line p ls) as [i'|] eqn:Hf; [|done].
        injection Hfind as <-.
        destruct (proj1 (IH i') eq_refl) as (l' & Hi & Hp & Hmin).
        exists l'. repeat split; [done..|].
        intros [|j] l'' Hj Hlk; simpl in Hlk; [congruence|].
        apply (Hmin j); [lia|done].
      * intros (l' & Hi & Hp & Hmin). destruct i as [|i].
        { simpl in Hi. congruence. }
        assert (Hf : find_line p ls = Some i).
        { apply IH. exists l'. repeat split; [done..|].
          intros j l'' Hj Hlk. apply (Hmin (S j)); [lia|done]. }
        by rewrite Hf.
Qed.

(** *** Stripping *)

Lemma lstrip_nonspace (c : ascii) (s : str) :
  isspace c = false → lstrip (c :: s) = c :: s.
Proof. intros Hc. unfold lstrip. simpl. by rewrite Hc. Qed.

Lemma strip_bounded (c d : ascii) (s : str) :
  isspace c = false → isspace d = false →
  strip (c :: s ++ [d]) = c :: s ++ [d].
Proof.
  intros Hc Hd. unfold strip, rstrip. rewrite lstrip_nonspace by done.
  change (c :: s ++ [d]) with ((c :: s) ++ [d]).
  rewrite rev_unit, lstrip_nonspace by done.
  by rewrite <- rev_unit, rev_involutive.
Qed.

(** *** The order of [sorted] *)

Lemma string_of_list_ascii_inj (a b : str) :
  string_of_list_ascii a = string_of_list_ascii b → a = b.
Proof.
  intros H. apply (f_equal list_ascii_of_string) in H.
  by rewrite !list_ascii_of_string_of_list_ascii in H.
Qed.

Global Instance str_le_trans : Transitive str_le.
Proof. intros a b c. unfold str_le. apply transitivity. Qed.

Global Instance str_le_total : Total str_le.
Proof. intros a b. unfold str_le. apply total, _. Qed.

Global Instance str_le_antisymm : AntiSymm (=) str_le.
Proof.
  intros a b Hab Hba. apply string_of_list_ascii_inj.
  by apply (anti_symm String.le).
Qed.

Lemma sorted_spec (l : list str) :
  Sorted str_le (sorted l) ∧ sorted l ≡ₚ l.
Proof.
  unfold sorted. split; [apply Sorted_merge_sort, _|apply merge_sort_Permutation].
Qed.

(** Two lists without duplicates and with the same members are sorted
    to the same list. *)
Lemma sorted_same_members (l k : list str) :
  NoDup l → NoDup k → (∀ x, x ∈ l ↔ x ∈ k) → sorted l = sorted k.
Proof.
  intros Hl Hk Hlk.
  destruct (sorted_spec l) as [Sl Pl], (sorted_spec k) as [Sk Pk].
  apply (Sorted_unique str_le); [done..|].
  rewrite Pl, Pk. by apply NoDup_Permutation.
Qed.

(** *** Reading back a line that was written *)

(** A name that survives the round trip through the line: not empty,
    not a lone bracket, and free of quotes, commas and line breaks. *)
Definition simple_name (p : str) : Prop :=
  p ≠ [] ∧ p ≠ lit "[" ∧ p ≠ lit "]"
  ∧ Forall (λ c, is_quoted_char c = true ∧ c ≠ newline) p.

(** [', '.join(quoted_packages)] *)
Definition body (names : list str) : str :=
  join (lit ", ") (quoted <$> names).

Lemma app_line_of_body names :
  app_line_of names = lit "app = [" ++ body (sorted names) ++ lit "]".
Proof. done. Qed.

Lemma findall_skip (m rest : str) :
  findall_from (length m) (m ++ rest) = findall_from 0 rest.
Proof. induction m as [|c m IH]; simpl; [by destruct rest|done]. Qed.

Lemma findall_from_0_cons (c : ascii) (s : str) :
  findall_from 0 (c :: s)
  = match match_package (c :: s) with
    | Some (name, rest) =>
        name :: findall_from (length (c :: s) - length rest - 1) s
    | None => findall_from 0 s
    end.
Proof. done. Qed.

Lemma match_package_quoted (x rest : str) :
  x ≠ [] → Forall (λ c, is_quoted_char c = true) x →
  match_package (dquote :: x ++ dquote :: rest) = Some (x, rest).
Proof.
  intros Hne Hx. unfold match_package.
  change (is_quote dquote) with true. cbv iota.
  rewrite span_app by done.
  destruct x as [|c x]; [done|]. done.
Qed.

Lemma findall_quoted (x rest : str) :
  x ≠ [] → Forall (λ c, is_quoted_char c = true) x →
  findall_from 0 (quoted x ++ rest) = x :: findall_from 0 rest.
Proof.
  intros Hne Hx. unfold quoted.
  change (([dquote] ++ x ++ [dquote]) ++ rest)
    with (dquote :: (x ++ [dquote]) ++ rest).
  rewrite findall_from_0_cons.
  rewrite <- (app_assoc x [dquote] rest) at 1.
  change ([dquote] ++ rest) with (dquote :: rest).
  rewrite match_package_quoted by done. f_equal.
  replace (length (dquote :: (x ++ [dquote]) ++ rest) - length rest - 1)
    with (length (x ++ [dquote])).
  - apply findall_skip.
  - simpl. rewrite !length_app. simpl. lia.
Qed.

Lemma findall_body (names : list str) :
  Forall simple_name names →
  findall_from 0 (body names ++ lit "]") = names.
Proof.
  intros Hall. unfold body.
  induction Hall as [|x names (Hne & _ & _ & Hx) Hall IH].
  - done.
  - assert (Hq : Forall (λ c, is_quoted_char c = true) x).
    { eapply Forall_impl; [exact Hx|]. by intros c [? _]. }
    rewrite fmap_cons. destruct names as [|y names].
    + simpl join. rewrite findall_quoted by done. done.
    + change (join (lit ", ") (quoted x :: (quoted <$> (y :: names))))
        with (quoted x ++ lit ", "
              ++ join (lit ", ") (quoted <$> (y :: names))).
      rewrite <- !app_assoc. rewrite findall_quoted by done.
      f_equal. exact IH.
Qed.

Lemma filter_all {A} (P : A → Prop) `{∀ x, Decision (P x)} (l : list A) :
  Forall P l → filter P l = l.
Proof.
  induction 1 as [|x l Hx Hl IH]; [done|].
  by rewrite filter_cons_True, IH.
Qed.

Lemma existing_packages_body (names : list str) :
  Forall simple_name names →
  existing_packages (lit "[" ++ body names ++ lit "]") = names.
Proof.
  intros Hall. unfold existing_packages.
  change (lit "[" ++ body names ++ lit "]")
    with ("["%char :: body names ++ lit "]").
  rewrite findall_from_0_cons.
  change (match_package ("["%char :: body names ++ lit "]")) with (@None (str * str)).
  cbv iota. rewrite (findall_body names) by done.
  apply filter_all. eapply Forall_impl; [exact Hall|].
  intros x (? & ? & ? & _). done.
Qed.

Lemma bare_is_quoted_char (c : ascii) :
  is_bare_char c = true → is_quoted_char c = true.
Proof. destruct c as [[] [] [] [] [] [] [] []]; vm_compute; done. Qed.

Lemma match_package_name (s name rest : str) :
  match_package s = Some (name, rest) →
  name ≠ [] ∧ Forall (λ c, is_quoted_char c = true) name
  ∧ ∀ c, c ∈ name → c ∈ s.
Proof.
  destruct s as [|c s]; [done|]. unfold match_package.
  destruct (is_quote c).
  - pose proof (span_spec is_quoted_char s) as [Hs Hall].
    destruct (span is_quoted_char s) as [[|x run] [|q r]]; try done.
    destruct (is_quote q); [|done]. intros [= <- <-]. simpl in *.
    repeat split; [done|done|]. intros d Hd. rewrite Hs.
    apply list_elem_of_further. change (d ∈ (x :: run) ++ q :: r).
    apply elem_of_app. by left.
  - destruct (is_bare_char c) eqn:Hc; [|done].
    pose proof (span_spec is_bare_char (c :: s)) as [Hs Hall].
    destruct (span is_bare_char (c :: s)) as [a r] eqn:Hspan.
    intros [= <- <-]. simpl in Hs, Hall.
    repeat split.
    + intros ->. simpl in Hspan. rewrite Hc in Hspan.
      by destruct (span is_bare_char s).
    + eapply Forall_impl; [exact Hall|]. apply bare_is_quoted_char.
    + intros d Hd. rewrite Hs. apply elem_of_app. by left.
Qed.

Lemma findall_from_names (skip : nat) (s : str) :
  Forall (λ name, name ≠ [] ∧ Forall (λ c, is_quoted_char c = true) name
                  ∧ ∀ c, c ∈ name → c ∈ s)
    (findall_from skip s).
Proof.
  revert skip. induction s as [|c s IH]; intros skip; [constructor|].
  assert (Hweak : ∀ k, Forall (λ name, name ≠ []
                   ∧ Forall (λ c, is_quoted_char c = true) name
                   ∧ ∀ d, d ∈ name → d ∈ c :: s) (findall_from k s)).
  { intros k. eapply Forall_impl; [apply IH|].
    intros name (? & ? & Hsub). repeat split; [done..|].
    intros d Hd. apply list_elem_of_further. by apply Hsub. }
  destruct skip as [|k]; [|apply Hweak].
  rewrite findall_from_0_cons.
  destruct (match_package (c :: s)) as [[name rest]|] eqn:Hm; [|apply Hweak].
  constructor; [|apply Hweak]. by apply match_package_name in Hm.
Qed.

Lemma existing_packages_simple (packages_str : str) :
  newline ∉ packages_str →
  Forall simple_name (existing_packages packages_str).
Proof.
  intros Hnl. unfold existing_packages. apply Forall_forall.
  intros name [(Hne & Hl & Hr) Hin]%list_elem_of_filter.
  pose proof (findall_from_names 0 packages_str) as Hall.
  rewrite Forall_forall in Hall.
  destruct (Hall name Hin) as (_ & Hq & Hsub).
  repeat split; [done..|]. apply Forall_forall. intros c Hc.
  rewrite Forall_forall in Hq. split; [by apply Hq|].
  intros ->. by apply Hnl, Hsub.
Qed.

(** *** Characters of a stripped or split text *)

Lemma lstrip_subset (s : str) (c : ascii) : c ∈ lstrip s → c ∈ s.
Proof.
  unfold lstrip. intros Hc.
  rewrite (proj1 (span_spec isspace s)). apply elem_of_app. by right.
Qed.

Lemma strip_subset (s : str) (c : ascii) : c ∈ strip s → c ∈ s.
Proof.
  unfold strip, rstrip. intros Hc.
  rewrite list_elem_of_In, <- in_rev, <- list_elem_of_In in Hc.
  apply lstrip_subset in Hc.
  rewrite list_elem_of_In, <- in_rev, <- list_elem_of_In in Hc.
  by apply lstrip_subset.
Qed.

Lemma split1_subset (sep : ascii) (s l : str) (c : ascii) :
  l ∈ split1 sep s → c ∈ l → c ∈ s.
Proof.
  revert l. induction s as [|d s IH]; intros l; simpl.
  - intros ->%list_elem_of_singleton. done.
  - destruct (Ascii.eqb d sep).
    + intros Hl Hc. apply elem_of_cons in Hl as [->|Hl];
        [by apply elem_of_nil in Hc|].
      apply list_elem_of_singleton in Hl as ->.
      by apply list_elem_of_further.
    + destruct (split1 sep s) as [|w ws] eqn:Hsp.
      * intros ->%list_elem_of_singleton Hc.
        apply list_elem_of_singleton in Hc as ->. apply list_elem_of_here.
      * intros Hl Hc. apply elem_of_cons in Hl as [->|Hl].
        -- apply elem_of_cons in Hc as [->|Hc]; [apply list_elem_of_here|].
           apply list_elem_of_further, (IH w); [apply list_elem_of_here|done].
        -- apply list_elem_of_further, (IH l); [|done].
           by apply list_elem_of_further.
Qed.

Lemma packages_str_free (app_line : str) :
  newline ∉ app_line →
  newline ∉ strip (default [] (split1 "="%char app_line !! 1)).
Proof.
  intros Hnl Hin%strip_subset.
  destruct (split1 "="%char app_line !! 1) as [l|] eqn:Hl; simpl in Hin.
  - apply Hnl, (split1_subset "="%char app_line l); [|done].
    by eapply list_elem_of_lookup_2.
  - by apply elem_of_nil in Hin.
Qed.

Lemma merged_packages_spec (app_line : str) (packages : list str) :
  NoDup (merged_packages app_line packages)
  ∧ ∀ x, x ∈ merged_packages app_line packages
         ↔ x ∈ existing_packages
                 (strip (default [] (split1 "="%char app_line !! 1)))
           ∨ x ∈ packages.
Proof.
  unfold merged_packages. split; [apply NoDup_remove_dups|].
  intros x. by rewrite elem_of_remove_dups, elem_of_app.
Qed.

Lemma merged_packages_simple (app_line : str) (packages : list str) :
  newline ∉ app_line → Forall simple_name packages →
  Forall simple_name (merged_packages app_line packages).
Proof.
  intros Hnl Hp. apply Forall_forall. intros x Hx.
  apply merged_packages_spec in Hx as [Hx|Hx].
  - pose proof (existing_packages_simple _ (packages_str_free _ Hnl)) as H.
    rewrite Forall_forall in H. by apply H.
  - rewrite Forall_forall in Hp. by apply Hp.
Qed.

(** *** The line that is written *)

Lemma join_free (sep : str) (ls : list str) :
  newline ∉ sep → Forall (λ l, newline ∉ l) ls → newline ∉ join sep ls.
Proof.
  intros Hsep Hls. induction Hls as [|l ls Hl Hls IH]; simpl.
  - apply not_elem_of_nil.
  - destruct ls as [|l' ls]; [done|].
    rewrite !not_elem_of_app. auto.
Qed.

Lemma simple_name_free (x : str) : simple_name x → newline ∉ x.
Proof.
  intros (_ & _ & _ & Hx) Hin. rewrite Forall_forall in Hx.
  by destruct (Hx _ Hin).
Qed.

Lemma written_line_free (names : list str) :
  Forall simple_name names →
  newline ∉ lit "app = [" ++ body names ++ lit "]".
Proof.
  intros Hall. rewrite !not_elem_of_app. repeat split.
  - vm_compute. intros H. repeat (apply elem_of_cons in H as [H|H]; [done|]).
    by apply elem_of_nil in H.
  - apply join_free.
    + vm_compute. intros H.
      repeat (apply elem_of_cons in H as [H|H]; [done|]).
      by apply elem_of_nil in H.
    + apply Forall_fmap. eapply Forall_impl; [exact Hall|].
      intros x Hx%simple_name_free. unfold quoted. simpl.
      rewrite not_elem_of_cons, not_elem_of_app, not_elem_of_cons.
      repeat split; [done|done|done|apply not_elem_of_nil].
  - vm_compute. intros H. repeat (apply elem_of_cons in H as [H|H]; [done|]).
    by apply elem_of_nil in H.
Qed.

(** Reading the written line gives the names back. *)
Lemma written_line_is_app_line (names : list str) :
  is_app_line (lit "app = [" ++ body names ++ lit "]") = true.
Proof.
  unfold is_app_line.
  change (lit "app = [" ++ body names ++ lit "]")
    with ("a"%char :: (lit "pp = [" ++ body names) ++ ["]"%char]).
  rewrite strip_bounded by done.
  change ("a"%char :: (lit "pp = [" ++ body names) ++ ["]"%char])
    with (lit "app = [" ++ body names ++ lit "]").
  apply startswith_app.
Qed.

Lemma written_line_packages_str (names : list str) :
  strip (default [] (split1 "="%char (lit "app = [" ++ body names ++ lit "]")
                       !! 1))
  = lit "[" ++ body names ++ lit "]".
Proof.
  assert (Hsp : split1 "="%char (lit "app = [" ++ body names ++ lit "]") !! 1
                = Some (lit " [" ++ body names ++ lit "]")) by reflexivity.
  rewrite Hsp. cbn [default from_option id]. unfold strip.
  change (lstrip (lit " [" ++ body names ++ lit "]"))
    with (lit "[" ++ body names ++ lit "]").
  unfold rstrip.
  change (lit "[" ++ body names ++ lit "]")
    with (("["%char :: body names) ++ ["]"%char]).
  rewrite rev_unit, lstrip_nonspace by done.
  by rewrite <- rev_unit, rev_involutive.
Qed.

Lemma update_project_pyproject_at (content : str) (packages : list str)
    (i : nat) (app_line : str) :
  find_line is_app_line (split newline content) = Some i →
  split newline content !! i = Some app_line →
  update_project_pyproject content packages
  = join [newline]
      (<[i := lit "app = ["
              ++ body (sorted (merged_packages app_line packages))
              ++ lit "]"]> (split newline content)).
Proof.
  intros Hfind Hline. unfold update_project_pyproject.
  rewrite Hfind, Hline. done.
Qed.

Lemma sorted_members (l : list str) (x : str) : x ∈ sorted l ↔ x ∈ l.
Proof. by rewrite (proj2 (sorted_spec l)). Qed.

Lemma sorted_merged_simple (app_line : str) (packages : list str) :
  newline ∉ app_line → Forall simple_name packages →
  Forall simple_name (sorted (merged_packages app_line packages)).
Proof.
  intros Hnl Hp. rewrite (proj2 (sorted_spec _)).
  by apply merged_packages_simple.
Qed.

(** The second application writes the line of the first. *)
Lemma update_project_pyproject_twice (content : str) (packages : list str) :
  Forall simple_name packages →
  update_project_pyproject (update_project_pyproject content packages)
    packages
  = update_project_pyproject content packages.
Proof.
  intros Hp.
  destruct (find_line is_app_line (split newline content)) as [i|] eqn:Hfind.
  2:{ unfold update_project_pyproject at 2. rewrite Hfind.
      unfold update_project_pyproject. by rewrite Hfind. }
  pose proof Hfind as (app_line & Hline & Happ & Hmin)%find_line_Some.
  set (lines := split newline content) in *.
  set (names := sorted (merged_packages app_line packages)).
  set (new_line := lit "app = [" ++ body names ++ lit "]").
  assert (Hfree : newline ∉ app_line).
  { pose proof (split_pieces_free newline content) as Hall.
    rewrite Forall_forall in Hall. apply Hall.
    by eapply list_elem_of_lookup_2. }
  assert (Hnames : Forall simple_name names)
    by by apply sorted_merged_simple.
  assert (Hi : i < length lines) by by eapply lookup_lt_Some.
  rewrite (update_project_pyproject_at content packages i app_line)
    by done.
  fold lines names new_line.
  assert (Hsplit : split newline (join [newline] (<[i := new_line]> lines))
                   = <[i := new_line]> lines).
  { apply split_join.
    - intros Hnil. apply (f_equal length) in Hnil.
      rewrite length_insert in Hnil. simpl in Hnil. lia.
    - apply Forall_insert; [apply split_pieces_free|].
      by apply written_line_free. }
  assert (Hfind' : find_line is_app_line (<[i := new_line]> lines) = Some i).
  { apply find_line_Some. exists new_line. repeat split.
    - by apply list_lookup_insert_eq.
    - apply written_line_is_app_line.
    - intros j l' Hj Hl'. rewrite list_lookup_insert_ne in Hl' by lia.
      by apply (Hmin j). }
  rewrite (update_project_pyproject_at _ packages i new_line);
    rewrite Hsplit; [|done|by apply list_lookup_insert_eq].
  rewrite list_insert_insert_eq.
  assert (Hsame : sorted (merged_packages new_line packages) = names);
    [|by rewrite Hsame].
  apply sorted_same_members.
  - apply merged_packages_spec.
  - apply merged_packages_spec.
  - intros x. rewrite !(proj2 (merged_packages_spec _ _)).
    unfold new_line. rewrite written_line_packages_str.
    rewrite existing_packages_body by done.
    unfold names at 1. rewrite sorted_members.
    rewrite (proj2 (merged_packages_spec _ _)). tauto.
Qed.

(** What the rewriting of the line ensures.  Where the manifest has a
    line that opens the [app] group, [update_project_pyproject] replaces
    it by the line of the names found on it and the new names: each name
    once, in sorted order, each in double quotes.  On a line written in
    that form the names found are the names written. *)
Lemma update_project_pyproject_line (content : str)
    (packages : list str) (i : nat) :
  find_line is_app_line (split newline content) = Some i →
  ∃ app_line names,
    split newline content !! i = Some app_line
    ∧ update_project_pyproject content packages
      = join [newline]
          (<[i := lit "app = [" ++ join (lit ", ") (quoted <$> names)
                  ++ lit "]"]> (split newline content))
    ∧ Sorted str_le names
    ∧ NoDup names
    ∧ (∀ x, x ∈ names
            ↔ x ∈ existing_packages
                    (strip (default [] (split1 "="%char app_line !! 1)))
              ∨ x ∈ packages)
    ∧ (∀ present,
         Forall simple_name present →
         app_line = lit "app = [" ++ join (lit ", ") (quoted <$> present)
                      ++ lit "]" →
         ∀ x, x ∈ names ↔ x ∈ present ∨ x ∈ packages).
Proof.
  intros Hfind.
  pose proof Hfind as (app_line & Hline & _)%find_line_Some.
  exists app_line, (sorted (merged_packages app_line packages)).
  destruct (sorted_spec (merged_packages app_line packages)) as [Hs Hperm].
  destruct (merged_packages_spec app_line packages) as [Hnd Hmem].
  repeat split; try done.
  - by apply update_project_pyproject_at.
  - by rewrite Hperm.
  - rewrite sorted_members. apply Hmem.
  - rewrite sorted_members. apply Hmem.
  - rewrite sorted_members, Hmem. subst app_line.
    fold (body present). rewrite written_line_packages_str.
    by rewrite existing_packages_body.
  - rewrite sorted_members, Hmem. subst app_line.
    fold (body present). rewrite written_line_packages_str.
    by rewrite existing_packages_body.
Qed.

(** A manifest whose group holds one requirement with a version range,
    and one whose group is written over several lines. *)
Definition pinned_manifest : str :=
  lit "[dependency-groups]
app = [" ++ quoted (lit "fastapi>=0.100,<1") ++ lit "]".

Definition multiline_manifest : str :=
  lit "[dependency-groups]
app = [
    " ++ quoted (lit "fastapi") ++ lit ",
]".

(** C7.  The names already present are not what the code reads.  On a
    group that holds the requirement [fastapi>=0.100,<1] the pattern
    finds [fastapi], [0], [100] and [1]: the line written back for the
    new name [httpx] holds these four and [httpx], and the requirement
    is gone.  On a group written over several lines only the line that
    opens it is read and replaced: the new name is written there and
    the old entries stay behind the closed group.  What does hold: the
    line is replaced by the names found on it and the new names, each
    once, sorted and quoted; on a line written in that form the names
    found are the names written; and with new names that are not empty,
    are not a lone bracket and hold no quote, comma or line break, a
    second application with the same names leaves the text unchanged. *)
Theorem update_project_pyproject_union :
  update_project_pyproject pinned_manifest [lit "httpx"]
  = lit "[dependency-groups]
app = [" ++ join (lit ", ")
              (quoted <$> [lit "0"; lit "1"; lit "100"; lit "fastapi";
                           lit "httpx"]) ++ lit "]"
  ∧ update_project_pyproject multiline_manifest [lit "httpx"]
    = lit "[dependency-groups]
app = [" ++ quoted (lit "httpx") ++ lit "]
    " ++ quoted (lit "fastapi") ++ lit ",
]"
  ∧ (∀ (content : str) (packages : list str) (i : nat),
       find_line is_app_line (split newline content) = Some i →
       ∃ app_line names,
         split newline content !! i = Some app_line
         ∧ update_project_pyproject content packages
           = join [newline]
               (<[i := lit "app = [" ++ join (lit ", ") (quoted <$> names)
                       ++ lit "]"]> (split newline content))
         ∧ Sorted str_le names
         ∧ NoDup names
         ∧ (∀ x, x ∈ names
                 ↔ x ∈ existing_packages
                         (strip (default [] (split1 "="%char app_line !! 1)))
                   ∨ x ∈ packages)
         ∧ (∀ present,
              Forall simple_name present →
              app_line = lit "app = [" ++ join (lit ", ") (quoted <$> present)
                           ++ lit "]" →
              ∀ x, x ∈ names ↔ x ∈ present ∨ x ∈ packages))
  ∧ (∀ (content : str) (packages : list str),
       Forall simple_name packages →
       update_project_pyproject
         (update_project_pyproject content packages) packages
       = update_project_pyproject content packages).
Proof.
  split; [vm_compute; reflexivity|]. split; [vm_compute; reflexivity|].
  split; [exact update_project_pyproject_line|].
  exact update_project_pyproject_twice.
Qed.

Definition sample_manifest : str :=
  lit "[project]
name = 'riff-backend'

[dependency-groups]
app = ['fastapi', httpx, 'python-dotenv']
dev = []".

Definition new_packages : list str :=
  [lit "scikit-learn"; lit "httpx"; lit "Pillow"].

Lemma new_packages_simple : Forall simple_name new_packages.
Proof.
  unfold new_packages.
  repeat (constructor; [repeat split; try discriminate;
            vm_compute; repeat (constructor; [split; [done|discriminate]|]);
            constructor|]).
  constructor.
Defined.

Lemma update_project_pyproject_union_witness :
  update_project_pyproject sample_manifest new_packages
  = lit "[project]
name = 'riff-backend'

[dependency-groups]
" ++ lit "app = [" ++ join (lit ", ")
      (quoted <$> [lit "Pillow"; lit "fastapi"; lit "httpx";
                   lit "python-dotenv"; lit "scikit-learn"]) ++ lit "]
dev = []"
  ∧ update_project_pyproject
      (update_project_pyproject sample_manifest new_packages) new_packages
    = update_project_pyproject sample_manifest new_packages.
Proof.
  destruct update_project_pyproject_union as (_ & _ & _ & Hidem).
  split; [vm_compute; reflexivity|].
  exact (Hidem sample_manifest new_packages new_packages_simple).
Defined.

End ManifestFacts.

(** * Further properties of the same files *)

(** ** Backend process manager: the range of ports and the requests *)

Section BackendManagerMore.
Import Py BackendManager.

(** Every port in the map lies in the range of the candidates. *)
Definition ports_in_range (rb : gmap string backend_info) : Prop :=
  ∀ i a, rb !! i = Some a →
         (BASE_PORT ≤ port a < BASE_PORT + Z.of_nat MAX_BACKENDS)%Z.

Lemma ports_in_range_delete rb k :
  ports_in_range rb → ports_in_range (delete k rb).
Proof.
  intros H i a [_ Hi]%lookup_delete_Some. by eapply H.
Qed.

Lemma start_backend_in_range H p rb :
  ports_in_range rb → ports_in_range (start_backend H p rb).2.
Proof.
  intros Hrb. unfold start_backend.
  destruct (rb !! p); [done|].
  destruct (workspace_exists H); [|done].
  destruct (main_py_exists H); [|done]. simpl.
  pose proof (allocate_port_spec rb) as Hspec.
  destruct (allocate_port rb) as [q|]; [|done]. simpl.
  destruct (spawn H) as [process_pid|]; [|done]. simpl.
  intros i info [[<- <-]|[_ Hi]]%lookup_insert_Some; [|by eapply Hrb].
  simpl. tauto.
Qed.

Lemma stop_all_backends_lookup H (ids : list string) rb k :
  fold_left (λ rb project_id, (stop_backend_process H project_id rb).2)
    ids rb !! k
  = if decide (k ∈ ids) then None else rb !! k.
Proof.
  revert rb. induction ids as [|id ids IH]; intros rb; cbn [fold_left].
  - rewrite decide_False; [done|apply not_elem_of_nil].
  - rewrite IH, stop_backend_process_delete.
    destruct (decide (k ∈ ids)) as [Hin|Hout].
    + rewrite decide_True; [done|by apply list_elem_of_further].
    + destruct (decide (k = id)) as [->|Hne].
      * rewrite lookup_delete_eq, decide_True; [done|apply list_elem_of_here].
      * rewrite lookup_delete_ne by done.
        rewrite decide_False; [done|].
        intros [?|?]%elem_of_cons; done.
Qed.

Lemma stop_all_backends_empty H rb : stop_all_backends H rb = ∅.
Proof.
  apply map_eq. intros k. unfold stop_all_backends.
  rewrite stop_all_backends_lookup, lookup_empty.
  case_decide as Hk; [done|].
  destruct (rb !! k) as [a|] eqn:Ha; [|done].
  exfalso. apply Hk. apply list_elem_of_fmap. exists (k, a).
  split; [done|]. by apply elem_of_map_to_list.
Qed.

Lemma handle_in_range rb r :
  ports_in_range rb → ports_in_range (handle rb r).
Proof.
  apply handle_invariant.
  - intros H p rb'. apply start_backend_in_range.
  - intros p rb'. apply ports_in_range_delete.
Qed.

Lemma serve_in_range rs : ports_in_range (serve rs).
Proof.
  unfold serve.
  assert (Hempty : ports_in_range (∅ : gmap string backend_info)).
  { intros i a Hi. by rewrite lookup_empty in Hi. }
  revert Hempty. generalize (∅ : gmap string backend_info).
  induction rs as [|r rs IH]; intros rb Hrb; simpl; [done|].
  by apply IH, handle_in_range.
Qed.

Lemma size_list_to_set_le (l : list Z) :
  size (list_to_set l : gset Z) ≤ length l.
Proof.
  induction l as [|x l IH].
  - rewrite list_to_set_nil, size_empty. simpl. lia.
  - rewrite list_to_set_cons, size_union_alt, size_singleton. simpl.
    assert (size ((list_to_set l : gset Z) ∖ {[x]}) ≤ size (list_to_set l : gset Z))
      by (apply subseteq_size; set_solver).
    lia.
Qed.

Lemma size_used_ports_le rb : size (used_ports rb) ≤ size rb.
Proof.
  unfold used_ports. etrans; [apply size_list_to_set_le|].
  by rewrite !length_fmap, length_map_to_list.
Qed.

Lemma size_used_ports rb :
  ports_distinct rb → size (used_ports rb) = size rb.
Proof.
  intros Hd. unfold used_ports. rewrite size_list_to_set.
  - by rewrite !length_fmap, length_map_to_list.
  - rewrite <- list_fmap_compose. apply NoDup_fmap_2_strong.
    + intros [i a] [j b] Hi%elem_of_map_to_list Hj%elem_of_map_to_list Hp.
      simpl in Hp. assert (i = j) as -> by by eapply Hd. congruence.
    + apply NoDup_map_to_list.
Qed.

Lemma NoDup_candidates : NoDup candidates.
Proof.
  unfold candidates. apply NoDup_fmap_2; [|apply NoDup_seq].
  intros i j Hij. lia.
Qed.

Lemma elem_of_candidates (q : Z) :
  q ∈ candidates
  ↔ (BASE_PORT ≤ q < BASE_PORT + Z.of_nat MAX_BACKENDS)%Z.
Proof.
  unfold candidates. rewrite list_elem_of_fmap. split.
  - intros (i & -> & Hi%elem_of_seq). lia.
  - intros Hq. exists (Z.to_nat (q - BASE_PORT)). split; [lia|].
    apply elem_of_seq. lia.
Qed.

Lemma size_candidates :
  size (list_to_set candidates : gset Z) = MAX_BACKENDS.
Proof.
  rewrite size_list_to_set by apply NoDup_candidates.
  unfold candidates. by rewrite length_fmap, length_seq.
Qed.

(** X1.  A free port is found whenever fewer than [MAX_BACKENDS]
    backends are in the map, whatever their ports.  On a map that the
    requests of the manager have built, the map never holds more than
    [MAX_BACKENDS] entries and [allocate_port] raises exactly when it
    holds that many. *)
Theorem allocate_port_raises_iff_full :
  (∀ rb : gmap string backend_info,
     size rb < MAX_BACKENDS → ∃ p, allocate_port rb = Ok p)
  ∧ (∀ rs : list request,
       size (serve rs) ≤ MAX_BACKENDS
       ∧ ((∃ e, allocate_port (serve rs) = Raise e)
          ↔ size (serve rs) = MAX_BACKENDS)).
Proof.
  assert (Hfull : ∀ rb : gmap string backend_info,
            (∃ e, allocate_port rb = Raise e) →
            (list_to_set candidates : gset Z) ⊆ used_ports rb).
  { intros rb [e He]. pose proof (allocate_port_spec rb) as Hspec.
    rewrite He in Hspec. intros q Hq%elem_of_list_to_set.
    by apply Hspec, elem_of_candidates. }
  split.
  - intros rb Hsize.
    destruct (allocate_port rb) as [p|e] eqn:Hp; [by exists p|].
    pose proof (subseteq_size _ _ (Hfull rb (ex_intro _ e Hp))) as Hle.
    rewrite size_candidates in Hle.
    pose proof (size_used_ports_le rb). lia.
  - intros rs.
    pose proof (serve_distinct rs) as Hd. pose proof (serve_in_range rs) as Hr.
    set (rb := serve rs) in *.
    assert (Hsub : used_ports rb ⊆ (list_to_set candidates : gset Z)).
    { intros q (i & a & Hi & <-)%elem_of_used_ports.
      apply elem_of_list_to_set, elem_of_candidates. by eapply Hr. }
    pose proof (subseteq_size _ _ Hsub) as Hle.
    rewrite size_candidates, size_used_ports in Hle by done.
    split; [done|]. split.
    + intros Hraise. pose proof (subseteq_size _ _ (Hfull rb Hraise)) as Hge.
      rewrite size_candidates, size_used_ports in Hge by done. lia.
    + intros Hsize.
      destruct (allocate_port rb) as [p|e] eqn:Hp; [|by exists e].
      exfalso. pose proof (allocate_port_spec rb) as Hspec.
      rewrite Hp in Hspec. destruct Hspec as (Hrange & Hfree & _).
      apply Hfree.
      assert (Heq : used_ports rb = list_to_set candidates).
      { apply set_subseteq_size_eq; [done|].
        rewrite size_candidates, size_used_ports by done. lia. }
      rewrite Heq. apply elem_of_list_to_set, elem_of_candidates. done.
Qed.

(** X2.  After [stop_all_backends] no backend is left in the map,
    whether or not the processes could be stopped, and the next port
    handed out is the base port. *)
Theorem stop_all_backends_clears (H : host)
    (running_backends : gmap string backend_info) :
  stop_all_backends H running_backends = ∅
  ∧ allocate_port (stop_all_backends H running_backends) = Ok BASE_PORT.
Proof.
  rewrite stop_all_backends_empty. split; [done|]. reflexivity.
Qed.

(** X3.  Starting a project twice is starting it once: when a start
    succeeds, a second start of the same project reports the same port
    and changes nothing, whatever the host answers the second time, so
    also when the workspace is gone by then. *)
Theorem start_backend_idempotent (H1 H2 : host) (project_id : string)
    (rb rb' : gmap string backend_info) (q : Z) :
  start_backend H1 project_id rb = (Ok q, rb') →
  start_backend H2 project_id rb' = (Ok q, rb').
Proof.
  unfold start_backend at 1.
  destruct (rb !! project_id) as [info|] eqn:Hp.
  - intros [= <- <-]. unfold start_backend. by rewrite Hp.
  - destruct (workspace_exists H1); [|done].
    destruct (main_py_exists H1); [|done]. simpl.
    destruct (allocate_port rb) as [p|]; simpl.
    2:{ by destruct (is_Exception e). }
    destruct (spawn H1) as [process_pid|]; simpl.
    2:{ by destruct (is_Exception e). }
    intros [= <- <-]. unfold start_backend.
    by rewrite lookup_insert_eq.
Qed.

(** A host whose workspaces are gone. *)
Definition no_workspace : host :=
  {| workspace_exists := false; main_py_exists := false;
     spawn := Raise (OtherError (lit "Virtual environment not found"));
     now := 0; stop_ok := false; no_such_process := true |}.

Lemma start_backend_idempotent_witness :
  start_backend no_workspace "alpha" (serve [Start (ready 501) "alpha"])
  = (Ok BASE_PORT, serve [Start (ready 501) "alpha"]).
Proof.
  apply (start_backend_idempotent (ready 501) no_workspace "alpha" ∅).
  reflexivity.
Defined.

Lemma fold_handle_distinct rs rb :
  ports_distinct rb → ports_distinct (fold_left handle rs rb).
Proof.
  revert rb. induction rs as [|r rs IH]; intros rb Hrb; simpl; [done|].
  by apply IH, handle_distinct.
Qed.

(** X4.  [restart_backend] stops the backend, sleeps, and starts it
    again on the map as the requests served during the sleep have left
    it.  When the start fails, the project is without a backend.  When
    it succeeds, the project holds the port that is reported, no other
    project holds that port, and the other projects have the entries
    that those requests left.  When no request is served during the
    sleep, the new port is the old one or a lower one that was free. *)
Theorem restart_backend_outcome (rs during : list request) (H : host)
    (project_id : string) (info : backend_info) :
  serve rs !! project_id = Some info →
  let paused := fold_left handle during (delete project_id (serve rs)) in
  match restart_backend H project_id (λ rb, fold_left handle during rb)
          (serve rs) with
  | (Ok q, rb') =>
      port <$> rb' !! project_id = Some q
      ∧ (∀ k, k ≠ project_id → rb' !! k = paused !! k)
      ∧ (∀ k b, k ≠ project_id → rb' !! k = Some b → port b ≠ q)
      ∧ (during = [] → (q ≤ port info)%Z)
  | (Raise e, rb') => rb' = paused ∧ paused !! project_id = None
  end.
Proof.
  intros Hp paused.
  pose proof (serve_distinct rs) as Hd. pose proof (serve_in_range rs) as Hr.
  assert (Hdp : ports_distinct paused).
  { apply fold_handle_distinct. by apply ports_distinct_delete. }
  unfold restart_backend. rewrite Hp, stop_backend_process_delete.
  fold paused. unfold start_backend.
  destruct (paused !! project_id) as [b|] eqn:Hpp.
  { split; [by rewrite Hpp|]. split; [done|]. split.
    - intros k b' Hk Hb' Heq. apply Hk. by eapply Hdp.
    - intros ->. subst paused. cbn [fold_left] in Hpp.
      by rewrite lookup_delete_eq in Hpp. }
  destruct (workspace_exists H); [|done].
  destruct (main_py_exists H); [|done]. cbn [negb].
  pose proof (allocate_port_spec paused) as Hspec.
  destruct (allocate_port paused) as [p|e]; simpl.
  2:{ by destruct (is_Exception e). }
  destruct (spawn H) as [process_pid|e]; simpl.
  2:{ by destruct (is_Exception e). }
  destruct Hspec as (_ & Hfree & Hlow). split; [|split; [|split]].
  - by rewrite lookup_insert_eq.
  - intros k Hk. by rewrite lookup_insert_ne.
  - intros k b Hk Hb Heq. rewrite lookup_insert_ne in Hb by done.
    apply Hfree. apply elem_of_used_ports. by exists k, b.
  - intros ->. subst paused. cbn [fold_left] in *.
    destruct (decide (p ≤ port info)%Z) as [|Hgt]; [done|]. exfalso.
    assert (Hused : port info ∈ used_ports (delete project_id (serve rs))).
    { apply Hlow. pose proof (Hr _ _ Hp). lia. }
    apply elem_of_used_ports in Hused as (j & b & Hj & Hb).
    apply lookup_delete_Some in Hj as [Hne Hj].
    apply Hne. by eapply Hd.
Qed.

(** The second of three projects is restarted, and a fourth project is
    started during the sleep: it takes the port that the stop has set
    free, and the restarted project moves to the next free one. *)
Lemma restart_backend_outcome_witness :
  let run := restart_backend (ready 505) "beta"
               (λ rb, fold_left handle [Start (ready 504) "delta"] rb)
               three_started in
  run.1 = Ok (BASE_PORT + 3)%Z
  ∧ port_of run.2 "beta" = Some (BASE_PORT + 3)%Z
  ∧ port_of run.2 "delta" = Some (BASE_PORT + 1)%Z.
Proof.
  assert (Hp : three_started !! "beta"%string
               = Some {| pid := 502; port := BASE_PORT + 1;
                         status := "running"; started_at := 0;
                         workspace_path := workspace_of "beta" |})
    by (vm_compute; reflexivity).
  pose proof (restart_backend_outcome
                [Start (ready 501) "alpha"; Start (ready 502) "beta";
                 Start (ready 503) "gamma"] [Start (ready 504) "delta"]
                (ready 505) "beta" _ Hp) as Hout.
  fold three_started in Hout. cbv zeta in Hout. cbv zeta.
  destruct (restart_backend (ready 505) "beta"
              (λ rb, fold_left handle [Start (ready 504) "delta"] rb)
              three_started) as [[q|e] rb'] eqn:Hr.
  - destruct Hout as (Hq & Hrest & _).
    assert (Hq' : q = (BASE_PORT + 3)%Z)
      by (vm_compute in Hr; by injection Hr as <- _).
    subst q. split; [done|]. split; [exact Hq|].
    unfold port_of. cbn [snd]. rewrite Hrest by done.
    vm_compute. reflexivity.
  - exfalso. vm_compute in Hr. discriminate Hr.
Defined.

End BackendManagerMore.

(** ** Preview builder: plain asset paths and staged contents *)

Section PreviewMore.
Import Py Preview.

Lemma walk_resolve (fs : tree) cur comps q :
  walk fs cur comps = Some q →
  q = fold_left (λ cur c, if decide (c = dotdot) then removelast cur
                          else cur ++ [c]) comps cur.
Proof.
  revert cur. induction comps as [|c comps IH]; intros cur; simpl.
  - by intros [= <-].
  - destruct (is_dir_at fs cur); [|done]. case_decide; apply IH.
Qed.

Lemma resolve_plain (cur comps : list str) :
  dotdot ∉ comps →
  fold_left (λ cur c, if decide (c = dotdot) then removelast cur
                      else cur ++ [c]) comps cur
  = cur ++ comps.
Proof.
  revert cur. induction comps as [|c comps IH]; intros cur Hno; simpl.
  - by rewrite app_nil_r.
  - apply not_elem_of_cons in Hno as [Hc Hno].
    rewrite decide_False by done. rewrite IH by done.
    by rewrite <- app_assoc.
Qed.

Lemma join_app_prefix (sep : str) (a b : list str) :
  a ≠ [] → ∃ t, join sep (a ++ b) = join sep a ++ t.
Proof.
  induction a as [|x a IH]; [done|]. intros _.
  destruct a as [|y a].
  - destruct b as [|z b]; simpl; [exists []; by rewrite app_nil_r|].
    by eexists.
  - destruct IH as [t Ht]; [done|].
    change (join sep ((x :: y :: a) ++ b))
      with (x ++ sep ++ join sep ((y :: a) ++ b)).
    rewrite Ht. exists t.
    change (join sep (x :: y :: a)) with (x ++ sep ++ join sep (y :: a)).
    by rewrite <- !app_assoc.
Qed.

(** X5.  On a file system without symbolic links, a request for a
    relative asset path without a [..] component is never refused as a
    traversal: it is answered with status 404 or with a regular file
    that lies inside the assets folder of the build, with the media
    type of its extension. *)
Theorem serve_preview_assets_plain_path (t : tree)
    (BUILD_CACHE : gmap string (list str)) (project_id : string)
    (filepath : str) (dist_dir : list str) :
  BUILD_CACHE !! project_id = Some dist_dir →
  startswith (lit "/") filepath = false →
  dotdot ∉ parts filepath →
  match serve_preview_assets (plain t) BUILD_CACHE project_id filepath with
  | Ok rsp =>
      served rsp = resolve (dist_dir ++ [lit "assets"]) ++ parts filepath
      ∧ inside (resolve (dist_dir ++ [lit "assets"])) (served rsp)
      ∧ is_file_at t (served rsp) = true
      ∧ media_type rsp = media_type_of filepath
  | Raise e => e = HTTPException 404 (lit "Asset not found")
  end.
Proof.
  intros Hcache Hrel Hplain. unfold serve_preview_assets. rewrite Hcache.
  unfold joinpath. rewrite Hrel.
  set (assets_dir := dist_dir ++ [lit "assets"]).
  assert (Hres : resolve (assets_dir ++ parts filepath)
                 = resolve assets_dir ++ parts filepath).
  { unfold resolve. rewrite fold_left_app. by apply resolve_plain. }
  cbn [plain path_exists path_is_file path_resolve bind].
  destruct (exists_in t _) eqn:Hex; cbn [negb]; [|done].
  destruct (is_file_in t _) eqn:Hfile; cbn [negb]; [|done].
  assert (Hne : resolve assets_dir ≠ []).
  { unfold resolve, assets_dir. rewrite fold_left_app. cbn [fold_left].
    destruct (decide (lit "assets" = dotdot)) as [Heq|_];
      [vm_compute in Heq; discriminate Heq|].
    by destruct (fold_left _ dist_dir []). }
  rewrite Hres.
  destruct (join_app_prefix (lit "/") (resolve assets_dir) (parts filepath) Hne)
    as [u Hu].
  unfold path_str. rewrite Hu, app_assoc, startswith_app. cbn [negb].
  cbn [served media_type]. split; [done|]. split; [by eexists|].
  split; [|done].
  unfold is_file_in in Hfile.
  destruct (walk t [] (assets_dir ++ parts filepath)) as [q|] eqn:Hw;
    [|done].
  apply walk_resolve in Hw. fold (resolve (assets_dir ++ parts filepath)) in Hw.
  rewrite Hres in Hw. by subst q.
Qed.

Lemma serve_preview_assets_plain_path_witness :
  serve_preview_assets with_sibling {[ "p1"%string := dist ]} "p1"
    (lit "index-4f3a.js")
  = Ok {| served := dist ++ [lit "assets"; lit "index-4f3a.js"];
          media_type := "application/javascript" |}
  ∧ serve_preview_assets with_sibling {[ "p1"%string := dist ]} "p1"
      (lit "missing.css")
    = Raise (HTTPException 404 (lit "Asset not found")).
Proof.
  split; [vm_compute; reflexivity|]. unfold with_sibling.
  match goal with
  | |- serve_preview_assets (plain ?t) _ _ _ = _ =>
      pose proof (serve_preview_assets_plain_path t
                    {[ "p1"%string := dist ]} "p1" (lit "missing.css") dist
                    (lookup_singleton_eq _ _) eq_refl) as Hout;
      destruct (serve_preview_assets (plain t) {[ "p1"%string := dist ]} "p1"
                  (lit "missing.css")) as [rsp|e] eqn:Hr;
        [vm_compute in Hr; discriminate Hr|]
  end.
  f_equal. apply Hout. vm_compute.
  intros Hin%list_elem_of_In. simpl in Hin.
  destruct Hin as [Hin|[]]. discriminate Hin.
Defined.

(** Where the assets folder holds a symbolic link, a path without a
    [..] component is refused all the same: the resolved place of the
    link is compared, not the path. *)
Definition with_link : filesystem :=
  {| path_exists := λ p, Ok (bool_decide (p = dist ++ [lit "assets"; lit "logo.svg"]));
     path_is_file := λ p, Ok (bool_decide (p = dist ++ [lit "assets"; lit "logo.svg"]));
     path_resolve := λ p,
       if decide (p = dist ++ [lit "assets"; lit "logo.svg"])
       then Ok [lit "srv"; lit "shared"; lit "logo.svg"]
       else Ok p |}.

Example serve_preview_assets_link_refused :
  serve_preview_assets with_link {[ "p1"%string := dist ]} "p1"
    (lit "logo.svg")
  = Raise (HTTPException 403 (lit "Invalid asset path")).
Proof. vm_compute. reflexivity. Qed.







End PreviewMore.

(** ** Code validator: missing packages and the healing call *)

Section HealingFacts.
Import Py PyText CodeValidator Healing.

(** The package that an import name stands for. *)
Definition package_of (import_name : str) : str :=
  default import_name (dict_get import_name PYTHON_IMPORT_TO_PACKAGE).

(** What the loop of [get_missing_packages] adds for one import. *)
Definition missing_of (installed_packages : list str) (import_name : str)
  : option str :=
  if bool_decide (import_name ∈ _STANDARD_LIBRARY_MODULES) then None
  else if bool_decide (lower (package_of import_name)
                       ∈ lower <$> installed_packages) then None
       else Some (package_of import_name).

Lemma get_missing_packages_fold (imports inst acc : list str) :
  fold_left
    (λ missing import_name,
       if bool_decide (import_name ∈ _STANDARD_LIBRARY_MODULES) then missing
       else
         let package_name :=
           default import_name
             (dict_get import_name PYTHON_IMPORT_TO_PACKAGE) in
         if bool_decide (lower package_name ∈ inst) then missing
         else missing ++ [package_name])
    imports acc
  = acc ++ omap (λ i,
                   if bool_decide (i ∈ _STANDARD_LIBRARY_MODULES) then None
                   else if bool_decide (lower (package_of i) ∈ inst)
                        then None else Some (package_of i)) imports.
Proof.
  revert acc. induction imports as [|i imports IH]; intros acc;
    cbn [fold_left].
  - by rewrite app_nil_r.
  - rewrite IH. cbn [omap list_omap]. cbn zeta. fold (package_of i).
    destruct (bool_decide (i ∈ _STANDARD_LIBRARY_MODULES)); [done|].
    destruct (bool_decide (_ ∈ inst)); [done|].
    by rewrite <- app_assoc.
Qed.

Lemma get_missing_packages_omap (imports installed_packages : list str) :
  get_missing_packages imports installed_packages
  = omap (missing_of installed_packages) imports.
Proof.
  unfold get_missing_packages. cbn zeta.
  by rewrite get_missing_packages_fold.
Qed.

Lemma elem_of_get_missing_packages (imports installed : list str) (p : str) :
  p ∈ get_missing_packages imports installed
  ↔ ∃ i, i ∈ imports ∧ (i ∉ _STANDARD_LIBRARY_MODULES)
         ∧ p = package_of i ∧ (lower p ∉ lower <$> installed).
Proof.
  rewrite get_missing_packages_omap, list_elem_of_omap.
  unfold missing_of. split.
  - intros (i & Hi & Hm). exists i. split; [done|].
    case_bool_decide as Hstd; [done|].
    case_bool_decide as Hinst; [done|]. by injection Hm as <-.
  - intros (i & Hi & Hstd & -> & Hinst). exists i. split; [done|].
    by rewrite !bool_decide_eq_false_2.
Qed.

(** X7.  [get_missing_packages] reports the package of every import
    that is neither in its list of standard modules nor installed, and
    nothing else; a reported package is not installed under any letter
    case, and once the reported packages are installed nothing is
    reported any more. *)
Theorem get_missing_packages_spec (imports installed_packages : list str) :
  let missing := get_missing_packages imports installed_packages in
  (∀ p, p ∈ missing
        ↔ ∃ i, i ∈ imports ∧ (i ∉ _STANDARD_LIBRARY_MODULES)
               ∧ p = package_of i
               ∧ (lower p ∉ lower <$> installed_packages))
  ∧ (∀ p q, p ∈ missing → q ∈ installed_packages → lower p ≠ lower q)
  ∧ get_missing_packages imports (installed_packages ++ missing) = [].
Proof.
  cbn zeta. split; [|split].
  - apply elem_of_get_missing_packages.
  - intros p q (i & _ & _ & _ & Hp)%elem_of_get_missing_packages Hq Heq.
    apply Hp. rewrite Heq. apply list_elem_of_fmap. eauto.
  - rewrite (get_missing_packages_omap imports (_ ++ _)).
    induction imports as [|i imports IH] in |- *; [done|].
    assert (Hnone : ∀ j, j ∈ i :: imports →
              missing_of (installed_packages
                          ++ get_missing_packages (i :: imports)
                               installed_packages) j = None).
    { intros j Hj. unfold missing_of.
      case_bool_decide as Hstd; [done|].
      rewrite bool_decide_eq_true_2; [done|].
      rewrite fmap_app, elem_of_app.
      destruct (decide (lower (package_of j) ∈ lower <$> installed_packages))
        as [|Hno]; [by left|].
      right. apply list_elem_of_fmap. exists (package_of j).
      split; [done|]. apply elem_of_get_missing_packages. eauto. }
    clear IH. revert Hnone.
    generalize (installed_packages
                ++ get_missing_packages (i :: imports) installed_packages).
    generalize (i :: imports). clear. intros l.
    induction l as [|j l IH]; intros inst Hnone; [done|].
    cbn [omap list_omap]. rewrite Hnone by apply list_elem_of_here.
    apply IH. intros k Hk. apply Hnone. by apply list_elem_of_further.
Qed.

Lemma split_snoc_piece (sep : ascii) (b c : str) :
  sep ∉ c → split sep (b ++ sep :: c) = split sep b ++ [c].
Proof.
  intros Hc. induction b as [|x b IH]; simpl.
  - by rewrite Ascii.eqb_refl, split_no_sep.
  - destruct (Ascii.eqb x sep); [by rewrite IH|].
    rewrite IH. pose proof (split_nonempty sep b) as Hne.
    by destruct (split sep b).
Qed.

Lemma join_split (sep : ascii) (s : str) : join [sep] (split sep s) = s.
Proof.
  induction s as [|c s IH]; [done|]. simpl.
  pose proof (split_nonempty sep s) as Hne.
  destruct (Ascii.eqb_spec c sep) as [->|Hc].
  - destruct (split sep s) as [|w ws]; [done|].
    change (join [sep] ([] :: w :: ws)) with (sep :: join [sep] (w :: ws)).
    by rewrite IH.
  - destruct (split sep s) as [|w ws]; [done|].
    destruct ws as [|w' ws]; simpl in *; by rewrite <- IH.
Qed.

(** X8.  Where the model answers with the text [reply],
    [auto_heal_code] returns it stripped of surrounding white space.  A
    reply that opens with a code fence loses its first and its last
    line: a reply made of a fence line, a body and a closing fence gives
    the body, stripped, and a fenced reply of one line gives the empty
    text. *)
Theorem auto_heal_code_unwraps_fence
    (create : str → str → result (option str)) (exn_text : exn → str)
    (broken_code : str) (validation_errors : list ValidationError)
    (language : string) (reply : str) :
  (∀ system prompt, create system prompt = Ok (Some reply)) →
  let healed :=
    auto_heal_code create exn_text broken_code validation_errors language in
  (startswith fence reply = false → healed = Ok (strip reply))
  ∧ (∀ lang body,
       newline ∉ lang →
       reply = fence ++ lang ++ newline :: body ++ newline :: fence →
       healed = Ok (strip body))
  ∧ (startswith fence reply = true → newline ∉ reply → healed = Ok []).
Proof.
  intros Hcreate. cbn zeta. unfold auto_heal_code. cbn zeta.
  rewrite Hcreate. cbn [bind try_except]. split; [|split].
  - by intros ->.
  - intros lang body Hlang ->.
    rewrite startswith_app.
    assert (Hfence : newline ∉ fence ++ lang).
    { rewrite elem_of_app. intros [Hin|Hin]; [|done].
      apply list_elem_of_In in Hin. simpl in Hin.
      repeat (destruct Hin as [Hin|Hin]; [discriminate Hin|]). done. }
    rewrite app_assoc, split_app_sep by done.
    rewrite split_snoc_piece.
    2:{ intros Hin%list_elem_of_In. simpl in Hin.
        repeat (destruct Hin as [Hin|Hin]; [discriminate Hin|]). done. }
    unfold inner. cbn [tail]. rewrite removelast_last, join_split. done.
  - intros -> Hnl. by rewrite split_no_sep.
Qed.

Definition fenced_reply : str :=
  lit "```typescript
export function Home() { return null; }
```".

Lemma auto_heal_code_unwraps_fence_witness :
  auto_heal_code (λ _ _, Ok (Some fenced_reply)) exn_message
    (lit "export function Home() { return null;") [] "typescript"
  = Ok (lit "export function Home() { return null; }").
Proof.
  pose proof (auto_heal_code_unwraps_fence (λ _ _, Ok (Some fenced_reply))
                exn_message (lit "export function Home() { return null;") []
                "typescript" fenced_reply (λ _ _, eq_refl)) as (_ & Hbody & _).
  rewrite (Hbody (lit "typescript")
             (lit "export function Home() { return null; }")).
  - reflexivity.
  - intros Hin%list_elem_of_In. vm_compute in Hin.
    repeat (destruct Hin as [Hin|Hin]; [discriminate Hin|]). exact Hin.
  - reflexivity.
Defined.

End HealingFacts.

(** ** File tools: what is stored and what is read back *)

Section FileToolsFacts.
Import Py CodeValidator AgentTools.

Lemma validate_and_heal_Ok (E : env) (validate : str → ValidationResult)
    (lang : string) (headline : str) (details : list ValidationError → str)
    (content code : str) :
  validate_and_heal E validate lang headline details content = Ok code →
  is_valid (validate code) = true
  ∧ (is_valid (validate content) = true → code = content).
Proof.
  unfold validate_and_heal.
  destruct (is_valid (validate content)) eqn:Hv.
  - by intros [= <-].
  - destruct (auto_heal_code E content _ lang) as [healed|e];
      cbn [bind try_except].
    + destruct (is_valid (validate healed)) eqn:Hh.
      * by intros [= <-].
      * done.
    + by destruct (is_Exception e).
Qed.

Lemma validate_and_heal_Raise (E : env) (validate : str → ValidationResult)
    (lang : string) (headline : str) (details : list ValidationError → str)
    (content : str) (e : exn) :
  validate_and_heal E validate lang headline details content = Raise e →
  is_Exception e = true → ∃ detail, e = HTTPException 400 detail.
Proof.
  unfold validate_and_heal.
  destruct (is_valid (validate content)); [done|].
  destruct (auto_heal_code E content _ lang) as [healed|e'];
    cbn [bind try_except].
  - destruct (is_valid (validate healed)); [done|].
    intros [= <-]. eauto.
  - destruct (is_Exception e') eqn:He'.
    + intros [= <-]. eauto.
    + intros [= <-]. congruence.
Qed.

Lemma package_steps_base (E : env) project_id file_path file_content
    language validation_result (e : exn) :
  package_steps E project_id file_path file_content language
    validation_result = Some e →
  is_Exception e = false.
Proof.
  unfold package_steps.
  destruct (if decide (language = Some "python"%string) then _ else _)
    as [e'|]; [|done].
  destruct (is_Exception e') eqn:He'; [done|]. by intros [= <-].
Qed.

(** The row that [create_file] writes. *)
Definition new_row (request : CreateFileRequest) (fid pid : string)
    (code : str) : file_row :=
  {| row_id := fid; row_project_id := pid;
     row_filepath := file_path request;
     row_content := code;
     row_language := language request |}.

Lemma insert_file_cases (E : env) (request : CreateFileRequest)
    (code : str) (db : list file_row) :
  match insert_file E request code db with
  | (Ok rsp, db') =>
      ∃ pid,
        parse_uuid E (project_id request) = Ok pid
        ∧ db' = db ++ [new_row request (uuid4 E db) pid code]
        ∧ file_id rsp = uuid4 E db
        ∧ (∀ r, r ∈ db →
                ¬ (row_project_id r = pid
                   ∧ row_filepath r = file_path request))
        ∧ success rsp = true
        ∧ rsp_file_path rsp = file_path request
  | (Raise e, db') =>
      db' = db
      ∨ (is_Exception e = false
         ∧ ∃ pid, db' = db ++ [new_row request (uuid4 E db) pid code])
  end.
Proof.
  unfold insert_file.
  destruct (parse_uuid E (project_id request)) as [pid|e]; [|by left].
  destruct (existsb _ db) eqn:Hex; [by left|].
  destruct (package_steps E _ _ _ _ _) as [e|] eqn:Hsteps.
  { right. split; [by eapply package_steps_base|]. by exists pid. }
  exists pid. split; [done|]. split; [done|]. split; [done|].
  split; [|done]. intros r Hr Hmatch.
  assert (existsb (λ r, bool_decide (row_project_id r = pid
                                     ∧ row_filepath r = file_path request))
            db = true) as Htrue; [|congruence].
  apply existsb_exists. exists r. split; [by apply list_elem_of_In|].
  by apply bool_decide_eq_true.
Qed.

(** What holds of the code that [create_file] stores. *)
Definition stored_code (E : env) (request : CreateFileRequest) (code : str)
  : Prop :=
  (language request = Some "typescript"%string →
   is_valid (validate_typescript_syntax code) = true
   ∧ (is_valid (validate_typescript_syntax (file_content request))
      = true → code = file_content request))
  ∧ (language request = Some "python"%string →
     is_valid (validate_python_syntax E code) = true
     ∧ (is_valid (validate_python_syntax E (file_content request))
        = true → code = file_content request))
  ∧ (language request ≠ Some "python"%string →
     language request ≠ Some "typescript"%string →
     code = file_content request).

Lemma create_file_body_cases (E : env) (request : CreateFileRequest)
    (db : list file_row) :
  match create_file_body E request db with
  | (Ok rsp, db') =>
      ∃ pid code,
        parse_uuid E (project_id request) = Ok pid
        ∧ db' = db ++ [new_row request (file_id rsp) pid code]
        ∧ (∀ r, r ∈ db →
                ¬ (row_project_id r = pid
                   ∧ row_filepath r = file_path request))
        ∧ stored_code E request code
        ∧ success rsp = true
        ∧ rsp_file_path rsp = file_path request
        ∧ get_db_connection E = Ok ()
        ∧ close_connection E = Ok ()
  | (Raise e, db') =>
      db' = db
      ∨ ((is_Exception e = false ∨ close_connection E = Raise e)
         ∧ ∃ pid code,
             stored_code E request code
             ∧ db' = db ++ [new_row request (uuid4 E db) pid code])
  end.
Proof.
  unfold create_file_body.
  destruct (if decide (language request = Some "python"%string)
            then _ else _) as [code|e0] eqn:Hval; [|by left].
  assert (Hcode : stored_code E request code).
  { unfold stored_code.
    destruct (decide (language request = Some "python"%string)) as [Hpy|Hpy].
    - apply validate_and_heal_Ok in Hval.
      split; [rewrite Hpy; done|]. split; [done|]. done.
    - destruct (decide (language request = Some "typescript"%string))
        as [Hts|Hts].
      + apply validate_and_heal_Ok in Hval. split; [done|]. split; done.
      + injection Hval as <-. split; [done|]. split; done. }
  destruct (_ <-! _; _) as [[]|e1] eqn:Hdb; [|by left].
  assert (Hconn : get_db_connection E = Ok ()).
  { unfold bind in Hdb.
    destruct (if decide (file_type request = _ ∧ _) then _ else _)
      as [[]|]; [|done].
    by destruct (get_db_connection E) as [[]|]. }
  pose proof (insert_file_cases E request code db) as Hins.
  unfold finally_close.
  destruct (insert_file E request code db) as [[rsp|e] db'].
  - destruct Hins as (pid & Hpid & -> & Hfid & Hfresh & Hs & Hp).
    destruct (close_connection E) as [[]|e] eqn:Hclose.
    + exists pid, code. by rewrite Hfid.
    + right. cbn [snd]. split; [by right|]. by exists pid, code.
  - destruct (close_connection E) as [[]|e'] eqn:Hclose; cbn [snd].
    + destruct Hins as [->|[He (pid & ->)]]; [by left|].
      right. split; [by left|]. by exists pid, code.
    + destruct Hins as [->|[He (pid & ->)]]; [by left|].
      right. split; [by right|]. by exists pid, code.
Qed.

(** X9.  When [create_file] returns, exactly one row was added, for a
    path the project did not have; its content passed the validation of
    its language, and it is the content of the request when that was
    valid or when the language is neither python nor typescript, in
    which case nothing is validated.  When [create_file] raises, every
    [Exception] it raises has status 500, also the one for a file that
    exists already; the table is as it was, or it holds the new row all
    the same, which happens only when closing the connection raised or
    when a package step ended with an exception that is not an
    [Exception]. *)
Theorem create_file_outcome (E : env) (request : CreateFileRequest)
    (db : list file_row) :
  match create_file E request db with
  | (Ok rsp, db') =>
      ∃ pid code,
        parse_uuid E (project_id request) = Ok pid
        ∧ db' = db ++ [{| row_id := file_id rsp; row_project_id := pid;
                          row_filepath := file_path request;
                          row_content := code;
                          row_language := language request |}]
        ∧ (∀ r, r ∈ db →
                ¬ (row_project_id r = pid
                   ∧ row_filepath r = file_path request))
        ∧ (language request = Some "typescript"%string →
           is_valid (validate_typescript_syntax code) = true
           ∧ (is_valid (validate_typescript_syntax (file_content request))
              = true → code = file_content request))
        ∧ (language request = Some "python"%string →
           is_valid (validate_python_syntax E code) = true
           ∧ (is_valid (validate_python_syntax E (file_content request))
              = true → code = file_content request))
        ∧ (language request ≠ Some "python"%string →
           language request ≠ Some "typescript"%string →
           code = file_content request)
        ∧ success rsp = true
        ∧ rsp_file_path rsp = file_path request
        ∧ close_connection E = Ok ()
  | (Raise e, db') =>
      (is_Exception e = true → ∃ detail, e = HTTPException 500 detail)
      ∧ (db' = db
         ∨ ((is_Exception e = false ∨ ∃ e', close_connection E = Raise e')
            ∧ ∃ pid code,
                db' = db ++ [{| row_id := uuid4 E db; row_project_id := pid;
                                row_filepath := file_path request;
                                row_content := code;
                                row_language := language request |}]))
  end.
Proof.
  unfold create_file.
  pose proof (create_file_body_cases E request db) as Hbody.
  destruct (create_file_body E request db) as [[rsp|e] db'];
    cbn [try_except].
  - destruct Hbody as (pid & code & Hpid & -> & Hfresh & Hcode & Hs & Hp
                       & _ & Hclose).
    destruct Hcode as (Hts & Hpy & Hother). by exists pid, code.
  - destruct (is_Exception e) eqn:He.
    + split; [eauto|]. destruct Hbody as [->|[Hwhy Hrow]]; [by left|].
      right. destruct Hrow as (pid & code & _ & ->).
      split; [|by exists pid, code].
      destruct Hwhy as [Hbase|Hclose]; [congruence|]. right. eauto.
    + split; [intros; congruence|].
      destruct Hbody as [->|[Hwhy Hrow]]; [by left|].
      right. destruct Hrow as (pid & code & _ & ->).
      split; [by left|]. by exists pid, code.
Qed.

(** Closing the connection can undo the answer, not the row: with a
    connection whose [close] raises, the valid file of the request is
    stored and [create_file] raises status 500. *)
Definition closing_fails : env :=
  {| validate_python_syntax := validate_python_syntax unhealing_env;
     auto_heal_code := auto_heal_code unhealing_env;
     http_exception_str := http_exception_str unhealing_env;
     workspace_exists := workspace_exists unhealing_env;
     create_backend_workspace := create_backend_workspace unhealing_env;
     get_db_connection := Ok ();
     close_connection := Raise (OtherError (lit "connection is closed"));
     parse_uuid := parse_uuid unhealing_env;
     uuid4 := uuid4 unhealing_env;
     python_package_step := python_package_step unhealing_env;
     npm_package_step := npm_package_step unhealing_env |}.

Example create_file_row_without_answer :
  ∃ row,
    create_file closing_fails
      {| project_id := "7f2c1d9e-51aa-4c0b-9a57-0d4f6f0e2b11";
         file_path := lit "notes.txt";
         file_content := lit "hello";
         language := None;
         file_type := None |} []
    = (Raise (HTTPException 500
                (lit "File creation failed: connection is closed")),
       [row])
    ∧ row_content row = lit "hello".
Proof. eexists. split; vm_compute; reflexivity. Qed.

End FileToolsFacts.

Section UpdateFileFacts.
Import Py CodeValidator AgentTools FileTools.





(** X11.  What [create_file] stores is what [read_files] gives back:
    after a [create_file] that returned, [read_files] on the path of the
    request finds the row that was added. *)
Theorem read_files_after_create_file (E : env) (request : CreateFileRequest)
    (db db' : list file_row) (rsp : CreateFileResponse)
    (order_by : list file_row → list file_row) :
  AgentTools.file_path request ≠ [] →
  create_file E request db = (Ok rsp, db') →
  ∃ row,
    db' = db ++ [row]
    ∧ row_id row = file_id rsp
    ∧ read_files E order_by (AgentTools.project_id request) (Some (AgentTools.file_path request))
        db'
      = Ok (JObj [("success", JBool true); ("file", file_dict row)]%string).
Proof.
  intros Hpath Hcreate.
  pose proof (create_file_body_cases E request db) as Hout.
  unfold create_file in Hcreate.
  destruct (create_file_body E request db) as [[r|e] d];
    cbn [try_except] in Hcreate.
  2:{ by destruct (is_Exception e). }
  injection Hcreate as -> ->.
  destruct Hout as (pid & code & Hpid & -> & Hfresh & _ & _ & _ & Hconn
                    & Hclose).
  eexists. split; [done|]. split; [done|].
  unfold read_files, read_stored. rewrite Hconn, Hclose, Hpid. cbn [bind].
  destruct (AgentTools.file_path request) as [|c path] eqn:Hp; [done|].
  rewrite <- Hp in *.
  match goal with
  | |- context [list_find ?P (db ++ [?row])] =>
      assert (Hfind : list_find P (db ++ [row]) = Some (length db, row))
  end.
  { apply list_find_Some. split; [|split].
    - by rewrite lookup_app_r, Nat.sub_diag by lia.
    - unfold matches. apply bool_decide_eq_true. unfold new_row. by rewrite Hp.
    - intros j y Hj Hlt Hm. rewrite lookup_app_l in Hj by done.
      apply (Hfresh y); [by eapply list_elem_of_lookup_2|].
      unfold matches in Hm. by apply bool_decide_eq_true in Hm. }
  by rewrite Hfind.
Qed.

Definition home_request : CreateFileRequest :=
  {| AgentTools.project_id := "7f2c1d9e-51aa-4c0b-9a57-0d4f6f0e2b11";
     AgentTools.file_path := lit "frontend/src/pages/Home.tsx";
     AgentTools.file_content := lit "export function Home() { return null; }";
     AgentTools.language := Some "typescript"%string;
     AgentTools.file_type := Some "page"%string |}.

Lemma read_files_after_create_file_witness :
  ∃ row,
    row_content row = lit "export function Home() { return null; }"
    ∧ read_files unhealing_env id "7f2c1d9e-51aa-4c0b-9a57-0d4f6f0e2b11"
        (Some (lit "frontend/src/pages/Home.tsx")) [row]
      = Ok (JObj [("success", JBool true); ("file", file_dict row)]%string).
Proof.
  destruct (create_file unhealing_env home_request []) as [[rsp|e] db']
    eqn:Hcreate; [|exfalso; vm_compute in Hcreate; discriminate Hcreate].
  destruct (read_files_after_create_file unhealing_env home_request [] db'
              rsp id) as (row & -> & _ & Hread);
    [vm_compute; discriminate|exact Hcreate|].
  exists row. split; [|exact Hread].
  vm_compute in Hcreate. injection Hcreate as _ <-. reflexivity.
Defined.

End UpdateFileFacts.

(** ** Package manager *)

Section PackageManagerFacts.
Import Py PackageManager.

Lemma install_with_outcome run exn_text command cwd pkgs :
  match install_with run exn_text command cwd pkgs with
  | Ok r =>
      (ok r = true ∧ installed r = pkgs ∧ failed r = [])
      ∨ (ok r = false ∧ installed r = [] ∧ failed r = pkgs)
  | Raise e => is_Exception e = false
  end.
Proof.
  unfold install_with.
  destruct (run (command ++ pkgs) cwd) as [r|e]; cbn [bind try_except].
  - case_decide; cbn; auto.
  - destruct (is_Exception e) eqn:He; cbn; auto.
Qed.

(** X12.  [install_packages_endpoint] installs all of the packages or
    none: it answers either with every package of the request reported
    as installed, or with every one reported as failed, and an
    [Exception] of the installer is turned into the second answer.  An
    empty list of packages is answered with success before the package
    manager is looked at, so also for a manager that does not exist; with
    packages, a manager other than pip and npm gives status 400. *)
Theorem install_packages_endpoint_all_or_nothing
    (run : list str → str → result completed) (exn_text : exn → str)
    (request : InstallPackagesRequest) :
  match install_packages_endpoint run exn_text request with
  | Ok rsp =>
      (packages request = []
       ∧ rsp = {| success := true; installed_packages := [];
                  failed_packages := []; message := NoPackages;
                  details := None |})
      ∨ (packages request ≠ []
         ∧ (package_manager request = lit "pip"
            ∨ package_manager request = lit "npm")
         ∧ ((success rsp = true
             ∧ installed_packages rsp = packages request
             ∧ failed_packages rsp = []
             ∧ message rsp = InstalledCount (length (packages request)))
            ∨ (success rsp = false
               ∧ installed_packages rsp = []
               ∧ failed_packages rsp = packages request
               ∧ message rsp = FailedCount (length (packages request)))))
  | Raise e =>
      packages request ≠ []
      ∧ ((package_manager request ≠ lit "pip"
          ∧ package_manager request ≠ lit "npm"
          ∧ e = HTTPException 400
                  (lit "Invalid package manager: "
                   ++ package_manager request))
         ∨ is_Exception e = false)
  end.
Proof.
  unfold install_packages_endpoint.
  destruct (packages request) as [|p ps] eqn:Hp; [by left|].
  rewrite <- Hp.
  assert (Hne : packages request ≠ []) by by rewrite Hp.
  assert (Hgen : ∀ command cwd,
            package_manager request = lit "pip"
            ∨ package_manager request = lit "npm" →
            match
              (result <-! install_with run exn_text command cwd
                            (packages request);
               Ok {| success := ok result;
                     installed_packages := installed result;
                     failed_packages := failed result;
                     message := if ok result
                                then InstalledCount (length (installed result))
                                else FailedCount (length (failed result));
                     details := Some (result_details result) |})
            with
            | Ok rsp =>
                (packages request = [] ∧ rsp = {| success := true;
                    installed_packages := []; failed_packages := [];
                    message := NoPackages; details := None |})
                ∨ (packages request ≠ []
                   ∧ (package_manager request = lit "pip"
                      ∨ package_manager request = lit "npm")
                   ∧ ((success rsp = true
                       ∧ installed_packages rsp = packages request
                       ∧ failed_packages rsp = []
                       ∧ message rsp
                         = InstalledCount (length (packages request)))
                      ∨ (success rsp = false
                         ∧ installed_packages rsp = []
                         ∧ failed_packages rsp = packages request
                         ∧ message rsp
                           = FailedCount (length (packages request)))))
            | Raise e =>
                packages request ≠ []
                ∧ ((package_manager request ≠ lit "pip"
                    ∧ package_manager request ≠ lit "npm"
                    ∧ e = HTTPException 400
                            (lit "Invalid package manager: "
                             ++ package_manager request))
                   ∨ is_Exception e = false)
            end).
  { intros command cwd Hpm.
    pose proof (install_with_outcome run exn_text command cwd
                  (packages request)) as Hout.
    destruct (install_with run exn_text command cwd (packages request))
      as [r|e]; cbn [bind].
    - right. split; [done|]. split; [done|]. cbn.
      destruct Hout as [(-> & -> & ->)|(-> & -> & ->)]; [left|right]; done.
    - split; [done|]. by right. }
  destruct (decide (package_manager request = lit "pip")) as [Hpip|Hpip].
  { apply Hgen. by left. }
  destruct (decide (package_manager request = lit "npm")) as [Hnpm|Hnpm].
  { apply Hgen. by right. }
  cbn [bind]. split; [done|]. left. done.
Qed.

End PackageManagerFacts.

(** ** Preview builder: the packages of a project *)

Section PreviewPackagesFacts.
Import Py PyText PreviewPackages.





Lemma assoc_put_eq {V} (k : string) (v : V) d : assoc k (put k v d) = Some v.
Proof.
  induction d as [|[k' v'] d IH]; simpl.
  - by rewrite String.eqb_refl.
  - destruct (String.eqb k k') eqn:Hk; simpl.
    + by rewrite String.eqb_refl.
    + by rewrite Hk.
Qed.

Lemma assoc_put_ne {V} (k k' : string) (v : V) d :
  k' ≠ k → assoc k' (put k v d) = assoc k' d.
Proof.
  intros Hne. induction d as [|[k0 v0] d IH]; simpl.
  - by rewrite (proj2 (String.eqb_neq k' k)).
  - destruct (String.eqb_spec k k0) as [->|Hk]; simpl.
    + by rewrite !(proj2 (String.eqb_neq k' k0)).
    + destruct (String.eqb k' k0); [done|apply IH].
Qed.

Lemma put_same {V} (k : string) (v : V) d :
  assoc k d = Some v → put k v d = d.
Proof.
  induction d as [|[k' v'] d IH]; simpl; [done|].
  destruct (String.eqb_spec k k') as [->|Hk].
  - by intros [= ->].
  - intros H. by rewrite IH.
Qed.

Definition latest : json := JStr (lit "latest").

(** The dependencies after the loop, key by key. *)
Definition added_to (deps : list (string * json)) (packages : list str)
    (k : string) : option json :=
  match assoc k deps with
  | Some v => Some v
  | None =>
      if bool_decide (k ∈ string_of_list_ascii <$> packages)
      then Some latest else None
  end.

Lemma add_dependency_loop (packages : list str) (d deps : list (string * json)) :
  assoc "dependencies" d = Some (JObj deps) →
  ∃ d' deps',
    for_each add_dependency packages (JObj d) = Ok (JObj d')
    ∧ assoc "dependencies" d' = Some (JObj deps')
    ∧ (∀ k, k ≠ "dependencies"%string → assoc k d' = assoc k d)
    ∧ (∀ k, assoc k deps' = added_to deps packages k).
Proof.
  revert d deps. induction packages as [|p packages IH]; intros d deps Hd.
  - exists d, deps. split; [done|]. split; [done|]. split; [done|].
    intros k. unfold added_to. by destruct (assoc k deps).
  - cbn [for_each]. unfold add_dependency at 1, getitem at 1.
    change (string_of_list_ascii (lit "dependencies"))
      with "dependencies"%string.
    rewrite Hd. cbn [bind text_in].
    destruct (assoc (string_of_list_ascii p) deps) as [v|] eqn:Hp.
    + rewrite bool_decide_eq_true_2 by eauto. cbn [bind].
      destruct (IH d deps Hd) as (d' & deps' & Hloop & Hd' & Hother & Hdeps).
      exists d', deps'. split; [done|]. split; [done|]. split; [done|].
      intros k. rewrite Hdeps. unfold added_to.
      destruct (assoc k deps) eqn:Hk; [done|].
      rewrite fmap_cons. destruct (decide (k = string_of_list_ascii p))
        as [->|Hne]; [congruence|].
      by rewrite (bool_decide_ext
                    (k ∈ string_of_list_ascii p
                         :: (string_of_list_ascii <$> packages))
                    (k ∈ string_of_list_ascii <$> packages))
        by (rewrite elem_of_cons; naive_solver).
    + rewrite bool_decide_eq_false_2 by (intros [? ?]; congruence).
      cbn [bind setitem].
      change (string_of_list_ascii (lit "dependencies"))
        with "dependencies"%string.
      destruct (IH (put "dependencies" (JObj (put (string_of_list_ascii p)
                                                latest deps)) d)
                  (put (string_of_list_ascii p) latest deps))
        as (d' & deps' & Hloop & Hd' & Hother & Hdeps);
        [apply assoc_put_eq|].
      exists d', deps'. split; [done|]. split; [done|]. split.
      * intros k Hk. rewrite Hother by done. by apply assoc_put_ne.
      * intros k. rewrite Hdeps. unfold added_to. rewrite fmap_cons.
        destruct (decide (k = string_of_list_ascii p)) as [->|Hne].
        -- rewrite assoc_put_eq, Hp.
           by rewrite bool_decide_eq_true_2 by apply list_elem_of_here.
        -- rewrite assoc_put_ne by done.
           destruct (assoc k deps); [done|].
           by rewrite (bool_decide_ext
                         (k ∈ string_of_list_ascii p
                              :: (string_of_list_ascii <$> packages))
                         (k ∈ string_of_list_ascii <$> packages))
             by (rewrite elem_of_cons; naive_solver).
Qed.

Lemma add_dependency_loop_present (packages : list str)
    (d deps : list (string * json)) :
  assoc "dependencies" d = Some (JObj deps) →
  (∀ p, p ∈ packages → is_Some (assoc (string_of_list_ascii p) deps)) →
  for_each add_dependency packages (JObj d) = Ok (JObj d).
Proof.
  intros Hd. induction packages as [|p packages IH]; intros Hall; [done|].
  cbn [for_each]. unfold add_dependency at 1, getitem at 1.
  change (string_of_list_ascii (lit "dependencies"))
    with "dependencies"%string.
  rewrite Hd. cbn [bind text_in].
  rewrite bool_decide_eq_true_2 by (apply Hall, list_elem_of_here).
  cbn [bind]. apply IH. intros q Hq. by apply Hall, list_elem_of_further.
Qed.

(** X14.  On a [package.json] that is a dict whose dependencies, if it
    has any, are a dict, [update_project_package_json] keeps every
    dependency that is there with its version, adds each new package
    with the version [latest], and leaves the other entries of the file
    alone; a second run with the same packages writes the same file. *)
Theorem update_project_package_json_adds (d deps : list (string * json))
    (packages : list str) :
  assoc "dependencies" d = Some (JObj deps)
  ∨ (assoc "dependencies" d = None ∧ deps = []) →
  ∃ d' deps',
    update_project_package_json (Some (JObj d)) packages
    = Ok (Some (JObj d'))
    ∧ assoc "dependencies" d' = Some (JObj deps')
    ∧ (∀ k, k ≠ "dependencies"%string → assoc k d' = assoc k d)
    ∧ (∀ k, assoc k deps'
            = match assoc k deps with
              | Some v => Some v
              | None =>
                  if bool_decide (k ∈ string_of_list_ascii <$> packages)
                  then Some (JStr (lit "latest")) else None
              end)
    ∧ update_project_package_json (Some (JObj d')) packages
      = Ok (Some (JObj d')).
Proof.
  intros Hd.
  assert (Hstart : ∃ d0,
            update_project_package_json (Some (JObj d)) packages
            = (package_data <-! for_each add_dependency packages (JObj d0);
               Ok (Some package_data))
            ∧ assoc "dependencies" d0 = Some (JObj deps)
            ∧ ∀ k, k ≠ "dependencies"%string → assoc k d0 = assoc k d).
  { unfold update_project_package_json. cbn [text_in bind setitem].
    change (string_of_list_ascii (lit "dependencies"))
      with "dependencies"%string.
    destruct Hd as [Hd|[Hd ->]].
    - rewrite bool_decide_eq_true_2 by eauto. by exists d.
    - rewrite bool_decide_eq_false_2 by (intros [? ?]; congruence).
      eexists. split; [done|]. split; [apply assoc_put_eq|].
      intros k Hk. by apply assoc_put_ne. }
  destruct Hstart as (d0 & Hstart & Hd0 & Hother0).
  destruct (add_dependency_loop packages d0 deps Hd0)
    as (d' & deps' & Hloop & Hd' & Hother & Hdeps).
  exists d', deps'. split; [|split; [done|split; [|split; [done|]]]].
  - by rewrite Hstart, Hloop.
  - intros k Hk. by rewrite Hother, Hother0.
  - unfold update_project_package_json. cbn [text_in bind].
    change (string_of_list_ascii (lit "dependencies"))
      with "dependencies"%string.
    rewrite bool_decide_eq_true_2 by eauto. cbn [bind].
    rewrite (add_dependency_loop_present packages d' deps' Hd'); [done|].
    intros p Hp. rewrite Hdeps. unfold added_to.
    destruct (assoc (string_of_list_ascii p) deps); [eauto|].
    rewrite bool_decide_eq_true_2; [eauto|].
    apply list_elem_of_fmap. eauto.
Qed.

Definition sample_package_json : list (string * json) :=
  [("name", JStr (lit "preview-app"));
   ("dependencies", JObj [("react", JStr (lit "^18.3.1"))])]%string.

Lemma update_project_package_json_adds_witness :
  assoc "dependencies" sample_package_json
  = Some (JObj [("react", JStr (lit "^18.3.1"))]%string)
  ∧ ∃ d' deps',
      update_project_package_json (Some (JObj sample_package_json))
        [lit "axios"; lit "react"]
      = Ok (Some (JObj d'))
      ∧ assoc "dependencies" d' = Some (JObj deps')
      ∧ assoc "react" deps' = Some (JStr (lit "^18.3.1"))
      ∧ assoc "axios" deps' = Some (JStr (lit "latest"))
      ∧ assoc "lodash" deps' = None.
Proof.
  split; [reflexivity|].
  destruct (update_project_package_json_adds sample_package_json
              [("react", JStr (lit "^18.3.1"))]%string
              [lit "axios"; lit "react"] (or_introl eq_refl))
    as (d' & deps' & Hrun & Hd' & _ & Hdeps & _).
  exists d', deps'. split; [exact Hrun|]. split; [exact Hd'|].
  split; [|split]; rewrite Hdeps; vm_compute; reflexivity.
Defined.

End PreviewPackagesFacts.

(** ** The dialog that the tool loop builds *)

Section HistoryFacts.
Import Py Orchestrator.

(** The chat protocol: after an assistant message with tool calls, the
    next messages are the tool messages that answer these calls, one for
    each call and in their order, with the id and the name of the call;
    no other message comes before all of them are answered.  [expect]
    reads one message with the calls [pending] still to be answered. *)
Definition expect (pending : option (list (str * str))) (m : message)
  : option (list (str * str)) :=
  match pending, m with
  | Some [], UserMessage _ => Some []
  | Some [], AssistantMessage _ tcs =>
      Some ((λ tc, (tc_id tc, tc_name tc)) <$> tcs)
  | Some (call :: pending), ToolMessage tool_call_id name _ =>
      if decide (call = (tool_call_id, name)) then Some pending else None
  | _, _ => None
  end.

Definition pending_after (h : list message) : option (list (str * str)) :=
  fold_left expect h (Some []).

Definition answered (h : list message) : Prop := pending_after h = Some [].

(** The tool messages for [done]. *)
Definition answers (done : list tool_call) (ms : list message) : Prop :=
  Forall2 (λ tc m, ∃ c, m = ToolMessage (tc_id tc) (tc_name tc) c) done ms.

Lemma report_result_history name args res ok st st' :
  report_result name args res ok st = Ok st' →
  conversation_history st' = conversation_history st.
Proof.
  unfold report_result. destruct (truthy ok); [by intros [= <-]|].
  destruct (result_get res _ _); simpl; [by intros [= <-]|done].
Qed.

Lemma try_tool_call_history E tc st :
  match try_tool_call E tc st with
  | (st', None) =>
      ∃ c, conversation_history st'
           = conversation_history st ++ [ToolMessage (tc_id tc) (tc_name tc) c]
  | (st', Some _) => conversation_history st' = conversation_history st
  end.
Proof.
  unfold try_tool_call.
  destruct (json_loads E _); [|done].
  destruct (execute_tool _ _ _ _); [|done].
  destruct (result_get _ _ _); [|done].
  destruct (report_result _ _ _ _ _) as [st'|] eqn:Hr; [|done].
  apply report_result_history in Hr. cbn [conversation_history yield] in Hr.
  destruct (json_dumps E _); simpl; [|done].
  rewrite Hr. eauto.
Qed.

Lemma handle_failure_history E tc msg st :
  match handle_failure E tc msg st with
  | (st', None) =>
      ∃ c, conversation_history st'
           = conversation_history st ++ [ToolMessage (tc_id tc) (tc_name tc) c]
  | (st', Some _) => conversation_history st' = conversation_history st
  end.
Proof. unfold handle_failure. destruct (json_dumps E _); simpl; eauto. Qed.

Lemma run_tool_call_history E tc st :
  match run_tool_call E tc st with
  | (st', None) =>
      ∃ c, conversation_history st'
           = conversation_history st ++ [ToolMessage (tc_id tc) (tc_name tc) c]
  | (st', Some _) => conversation_history st' = conversation_history st
  end.
Proof.
  unfold run_tool_call.
  pose proof (try_tool_call_history E tc st) as H.
  destruct (try_tool_call E tc st) as [st' [e|]]; [|done].
  pose proof (handle_failure_history E tc) as Hf.
  destruct e; cbn [is_Exception];
    try (match goal with
         | |- context [handle_failure E tc ?m st'] =>
             specialize (Hf m st');
             destruct (handle_failure E tc m st') as [st'' [e'|]];
             [congruence|];
             destruct Hf as [c Hf]; exists c; congruence
         end).
  exact H.
Qed.

(** The calls are answered in their order; an exception that leaves the
    loop leaves the calls from the interrupted one on without answer. *)
Lemma run_tool_calls_history E tcs st :
  ∃ done rest ms,
    tcs = done ++ rest
    ∧ answers done ms
    ∧ conversation_history (run_tool_calls E tcs st).1
      = conversation_history st ++ ms
    ∧ match (run_tool_calls E tcs st).2 with
      | None => rest = []
      | Some _ => rest ≠ []
      end.
Proof.
  revert st. induction tcs as [|tc tcs IH]; intros st; cbn [run_tool_calls].
  { exists [], [], []. split; [done|]. split; [constructor|].
    by rewrite app_nil_r. }
  pose proof (run_tool_call_history E tc st) as H.
  destruct (run_tool_call E tc st) as [st' [e|]].
  - exists [], (tc :: tcs), []. split; [done|]. split; [constructor|].
    cbn [fst snd]. by rewrite app_nil_r.
  - destruct H as [c Hc].
    destruct (IH st') as (done & rest & ms & -> & Hans & Hh & Hend).
    exists (tc :: done), rest, (ToolMessage (tc_id tc) (tc_name tc) c :: ms).
    split; [done|]. split; [constructor; eauto|].
    split; [|done]. rewrite Hh, Hc. by rewrite <- app_assoc.
Qed.

Lemma pending_after_app h ms :
  pending_after (h ++ ms) = fold_left expect ms (pending_after h).
Proof. unfold pending_after. by rewrite fold_left_app. Qed.

Lemma expect_answers done rest ms :
  answers done ms →
  fold_left expect ms
    (Some ((λ tc, (tc_id tc, tc_name tc)) <$> (done ++ rest)))
  = Some ((λ tc, (tc_id tc, tc_name tc)) <$> rest).
Proof.
  induction 1 as [|tc m done ms [c ->] _ IH]; [done|].
  cbn [app fmap list_fmap fold_left expect].
  by rewrite decide_True.
Qed.

(** What the loop keeps of the dialog: the messages it was started with
    stay, and the dialog follows the protocol, with calls left without
    answer only when an exception ended the run. *)
Lemma tool_loop_history E sp max fuel it st :
  answered (conversation_history st) →
  let r := tool_loop E sp max fuel it st in
  conversation_history st `prefix_of` conversation_history (final r)
  ∧ match ended r with
    | Raised _ => is_Some (pending_after (conversation_history (final r)))
    | _ => answered (conversation_history (final r))
    end.
Proof.
  revert it st. induction fuel as [|fuel IH]; intros it st Hst; cbn zeta.
  { by simpl. }
  cbn [tool_loop]. case_decide as Hlt; [|by simpl].
  destruct (chat E sp (conversation_history st)) as [m|e].
  2:{ simpl. split; [done|]. rewrite Hst. eauto. }
  assert (Hy : conversation_history
                 (yield_text (default [] (content m)) (count_call st))
               = conversation_history st).
  { unfold yield_text. by case_decide. }
  destruct (tool_calls m) as [|tc tcs] eqn:Htcs.
  { cbn [final ended append_history conversation_history]. rewrite Hy.
    split; [by apply prefix_app_r|].
    unfold answered. rewrite pending_after_app, Hst. done. }
  match goal with
  | |- context [run_tool_calls E (tc :: tcs) ?s] =>
      destruct (run_tool_calls_history E (tc :: tcs) s)
        as (done & rest & ms & Hsplit & Hans & Hh & Hend);
      destruct (run_tool_calls E (tc :: tcs) s) as [st1 [e|]] eqn:Hrun
  end; cbn [fst snd] in Hh, Hend;
    cbn [conversation_history append_history yield] in Hh;
    rewrite Hy in Hh.
  - cbn [final ended]. rewrite Hh, <- app_assoc.
    split; [by apply prefix_app_r|].
    rewrite !pending_after_app, Hst. cbn [app fold_left expect].
    rewrite Hsplit, (expect_answers _ _ _ Hans). eauto.
  - subst rest. rewrite app_nil_r in Hsplit.
    assert (Hst1 : answered (conversation_history (yield Newline st1))).
    { cbn [conversation_history yield]. unfold answered.
      rewrite Hh, !pending_after_app, Hst. cbn [app fold_left expect].
      rewrite Hsplit.
      rewrite <- (app_nil_r done) at 1.
      by rewrite (expect_answers _ _ _ Hans). }
    destruct (IH (it + 1) (yield Newline st1) Hst1) as [Hpre Hrest].
    split; [|exact Hrest].
    etrans; [|exact Hpre]. cbn [conversation_history yield].
    rewrite Hh, <- app_assoc. by apply prefix_app_r.
Qed.

(** X15.  From a dialog in which every tool call is answered,
    [_stream_with_tools] builds a dialog of the same kind: the messages
    it was started with and the message of the user stay in front, and
    unless an exception ends the run, each assistant message with tool
    calls is followed by one tool message for each of its calls, in
    their order and with their ids and names, also for the calls that
    failed.  When an exception ends the run the dialog is a beginning of
    such a dialog, in which calls may be left without answer. *)
Theorem stream_with_tools_answers_every_call (E : env)
    (user_message system_prompt : str) (max_iterations : nat)
    (history : list message) :
  answered history →
  let r := stream_with_tools E user_message system_prompt max_iterations
             history in
  (history ++ [UserMessage user_message])
    `prefix_of` conversation_history (final r)
  ∧ match ended r with
    | Raised _ => is_Some (pending_after (conversation_history (final r)))
    | _ => answered (conversation_history (final r))
    end.
Proof.
  intros Hh. unfold stream_with_tools.
  match goal with
  | |- context [tool_loop E ?sp ?m ?f 0 ?s] =>
      pose proof (tool_loop_history E sp m f 0 s) as Hloop;
      set (r := tool_loop E sp m f 0 s) in *
  end.
  cbn zeta in Hloop. cbn [conversation_history] in Hloop.
  destruct Hloop as [Hpre Hend].
  { unfold answered. by rewrite pending_after_app, Hh. }
  destruct (ended r) eqn:Hr; cbn zeta.
  1,2: case_decide; cbn [final ended yield conversation_history];
       rewrite ?Hr; done.
  by rewrite Hr.
Qed.

(** A tool that raises [SystemExit], which no handler of the loop
    catches: the first of two calls is interrupted. *)
Definition two_calls_then_exit : env :=
  {| tools := {| call := λ _ _, Raise (BaseOnly "SystemExit");
                 exn_text := λ _, [];
                 format_exc := λ _, [] |};
     project := "p";
     chat := λ _ _,
       Ok {| content := None;
             tool_calls := [list_tasks_call; list_tasks_call] |};
     json_loads := λ _, Ok (JObj []);
     json_dumps := λ _, Ok (lit "{...}") |}.

Lemma stream_with_tools_answers_every_call_witness :
  answered [UserMessage (lit "hello"); AssistantMessage (lit "hi") []]
  ∧ answered (conversation_history
                (final (stream_with_tools four_tools_then_text
                          (lit "list my tasks") [] 5
                          [UserMessage (lit "hello");
                           AssistantMessage (lit "hi") []])))
  ∧ pending_after (conversation_history
                     (final (stream_with_tools two_calls_then_exit
                               (lit "list my tasks") [] 5 [])))
    = Some [(lit "call_1", lit "list_tasks"); (lit "call_1", lit "list_tasks")].
Proof.
  assert (Hh : answered [UserMessage (lit "hello");
                         AssistantMessage (lit "hi") []])
    by (vm_compute; reflexivity).
  split; [exact Hh|]. split.
  - pose proof (stream_with_tools_answers_every_call
                  four_tools_then_text (lit "list my tasks") [] 5
                  [UserMessage (lit "hello");
                   AssistantMessage (lit "hi") []] Hh) as H.
    cbv zeta in H. destruct H as [_ H].
    vm_compute in H. vm_compute. exact H.
  - vm_compute. reflexivity.
Defined.

End HistoryFacts.

(** ** The tools offered to the model and the branches of [execute_tool] *)

Section RegistryFacts.
Import Py Orchestrator ToolRegistry ToolBinding.

Lemma string_of_lit (s : string) : string_of_list_ascii (lit s) = s.
Proof. apply string_of_list_ascii_of_string. Qed.

Lemma execute_tool_unknown (E : tool_env) (project_id : string)
    (tool_name : str) (parameters : json) :
  assoc (string_of_list_ascii tool_name) branches = None →
  execute_tool E project_id tool_name parameters
  = Ok (unknown_tool_dict tool_name).
Proof.
  intros H. unfold execute_tool, execute_tool_body. by rewrite H.
Qed.

(** The tools of the registry that have no branch, and the branches
    that the registry does not offer. *)
Definition without_branch : list string :=
  ["get_project_stats"; "get_file_tree"; "list_integrations"]%string.

Definition not_offered : list string :=
  ["trigger_build"; "get_open_errors"; "resolve_error"]%string.

(** X16.  Each tool of the registry is found under its name by
    [get_tool_by_name].  Of the tools the registry offers to the model,
    [get_project_stats], [get_file_tree] and [list_integrations] have no
    branch in [execute_tool]: a call of one of them is answered with the
    dict for an unknown tool, whatever its parameters are.  Every other
    tool of the registry has a branch, and the branches the registry
    does not offer are [trigger_build], [get_open_errors] and
    [resolve_error]. *)
Theorem offered_tools_and_branches :
  (∀ t, t ∈ get_all_tools → get_tool_by_name (name t) = Some t)
  ∧ (∀ t, t ∈ get_all_tools →
          if bool_decide (name t ∈ without_branch)
          then ∀ (E : tool_env) (project_id : string) (parameters : json),
                 execute_tool E project_id (lit (name t)) parameters
                 = Ok (unknown_tool_dict (lit (name t)))
          else is_Some (assoc (name t) branches))
  ∧ filter (λ n, n ∉ name <$> get_all_tools) registered_tools = not_offered.
Proof.
  split; [|split].
  - apply Forall_forall. unfold get_all_tools.
    repeat (apply Forall_cons; split; [vm_compute; reflexivity|]).
    by apply Forall_nil.
  - apply Forall_forall. unfold get_all_tools.
    repeat (apply Forall_cons; split;
            [first [ by (vm_compute; eauto)
                   | (intros E project_id parameters;
                      apply execute_tool_unknown; vm_compute; reflexivity) ]
            |]).
    by apply Forall_nil.
  - vm_compute. reflexivity.
Qed.

(** The keyword arguments a branch gives, by name. *)
Definition keywords_of (b : branch) : list string :=
  (if project_arg b then ["project_id"%string] else []) ++ (fst <$> reads b).

Lemma read_all_dict (d : list (string * json)) (keys : list (string * json)) :
  read_all (JObj d) keys
  = Ok ((λ kd : string * json, (kd.1, default kd.2 (assoc kd.1 d))) <$> keys).
Proof.
  induction keys as [|[k dflt] keys IH]; [done|].
  cbn [read_all]. rewrite IH. done.
Qed.

Lemma keyword_arguments_names (project_id : string) (b : branch)
    (d : list (string * json)) :
  fst <$> keyword_arguments project_id b
            ((λ kd : string * json, (kd.1, default kd.2 (assoc kd.1 d)))
               <$> reads b)
  = keywords_of b.
Proof.
  unfold keyword_arguments, keywords_of.
  destruct (project_arg b); cbn [app fmap list_fmap fst];
    rewrite <- list_fmap_compose; done.
Qed.

(** On a dict of parameters, the branch of a tool behind the bindings
    either stops at the binding or does what it does without them. *)
Lemma execute_tool_bound (E : tool_env) (project_id : string)
    (tool_name : str) (b : branch) (d : list (string * json)) :
  assoc (string_of_list_ascii tool_name) branches = Some b →
  execute_tool (bound E) project_id tool_name (JObj d)
  = match binding_error (endpoint b) (keywords_of b) with
    | Some e =>
        if is_Exception e then Ok (failure_dict (bound E) e) else Raise e
    | None => execute_tool E project_id tool_name (JObj d)
    end.
Proof.
  intros Hb. unfold execute_tool, execute_tool_body. rewrite Hb.
  rewrite !read_all_dict. cbn [bind].
  unfold bound at 1. cbn [call].
  rewrite keyword_arguments_names.
  destruct (binding_error (endpoint b) (keywords_of b)) as [e|]; [|done].
  cbn [bind try_except]. by destruct (is_Exception e).
Qed.

(** The tools whose branch never reaches the body of its endpoint, with
    the exception that stops it. *)
Definition never_reached : list (string * exn) :=
  [ ("list_tasks", unexpected_keyword "list_tasks" "status");
    ("delete_task", unexpected_keyword "delete_task" "project_id");
    ("read_files", unexpected_keyword "read_files" "file_paths");
    ("search_code", validation_error "SearchCodeRequest" "keywords");
    ("delete_file", import_error ai_agent_tools "DeleteFileRequest");
    ("get_sql_schema", unexpected_keyword "get_sql_schema" "env");
    ("read_logs", unexpected_keyword "read_logs" "env");
    ("test_endpoint", validation_error "TestEndpointRequest" "endpoint_path");
    ("troubleshoot", validation_error "TroubleshootRequest" "error_message");
    ("visualize_data", validation_error "VisualizeDataRequest" "data_keys");
    ("resolve_error", import_error ai_agent_tools "resolve_error")
  ]%string.

(** X17.  With the imports, the request models and the signatures of
    the source, eleven branches of [execute_tool] never reach the body of
    their endpoint: for every dict of parameters the call is answered
    with the dict of a failed execution, for a keyword the endpoint does
    not take ([list_tasks], [delete_task], [read_files],
    [get_sql_schema], [read_logs]), a required field the branch never
    gives to the request model ([search_code], [test_endpoint],
    [troubleshoot], [visualize_data]) or a name the module does not
    define ([delete_file], [resolve_error]).  Every other branch reaches
    its endpoint. *)
Theorem execute_tool_never_reaches_endpoint :
  (∀ tool e, (tool, e) ∈ never_reached →
     is_Exception e = true
     ∧ ∀ (E : tool_env) (project_id : string) (d : list (string * json)),
         execute_tool (bound E) project_id (lit tool) (JObj d)
         = Ok (failure_dict E e))
  ∧ (∀ tool, tool ∈ filter (λ n, n ∉ never_reached.*1) registered_tools →
       ∀ (E : tool_env) (project_id : string) (d : list (string * json)),
         execute_tool (bound E) project_id (lit tool) (JObj d)
         = execute_tool E project_id (lit tool) (JObj d)).
Proof.
  split.
  - intros tool e. revert tool e.
    assert (H : Forall (λ te : string * exn,
                is_Exception te.2 = true
                ∧ ∀ E project_id d,
                    execute_tool (bound E) project_id (lit te.1) (JObj d)
                    = Ok (failure_dict E te.2)) never_reached).
    { unfold never_reached.
      repeat (apply Forall_cons; split;
              [split; [reflexivity|];
               intros E project_id d; cbn [fst snd];
               erewrite execute_tool_bound by (vm_compute; reflexivity);
               vm_compute; reflexivity|]).
      by apply Forall_nil. }
    intros tool e Hin. by apply (proj1 (Forall_forall _ _) H (tool, e)).
  - refine (proj1 (Forall_forall
                     (λ tool : string,
                        ∀ (E : tool_env) (project_id : string)
                          (d : list (string * json)),
                          execute_tool (bound E) project_id (lit tool) (JObj d)
                          = execute_tool E project_id (lit tool) (JObj d))
                     _) _).
    assert (Hl : filter (λ n, n ∉ never_reached.*1) registered_tools
                 = ["create_task"; "update_task"; "add_task_comment";
                    "create_file"; "update_file"; "run_migration";
                    "run_sql_query"; "run_python_script";
                    "enable_integration"; "install_packages";
                    "request_data"; "trigger_build";
                    "get_open_errors"]%string)
      by (vm_compute; reflexivity).
    rewrite Hl.
    repeat (apply Forall_cons; split;
            [intros E project_id d;
             erewrite execute_tool_bound by (vm_compute; reflexivity);
             vm_compute; reflexivity|]).
    by apply Forall_nil.
Qed.

(** The required properties of a tool of the registry that its branch
    does not read. *)
Definition unread_required (t : tool) : list string :=
  match assoc (name t) branches with
  | Some b => filter (λ k, k ∉ fst <$> reads b) (required t)
  | None => []
  end.

Lemma read_all_agree (d d' : list (string * json))
    (keys : list (string * json)) :
  (∀ k, k ∈ fst <$> keys → assoc k d = assoc k d') →
  read_all (JObj d) keys = read_all (JObj d') keys.
Proof.
  intros H. rewrite !read_all_dict. f_equal.
  apply list_fmap_ext. intros i [k dflt] Hi. cbn [fst snd].
  rewrite (H k); [done|].
  apply list_elem_of_fmap. exists (k, dflt). split; [done|].
  by eapply list_elem_of_lookup_2.
Qed.

(** X18.  [execute_tool] looks at the parameters only under the keys its
    branch reads: two dicts of parameters that agree on these keys give
    the same result.  Six tools of the registry require a property that
    their branch does not read, so that the value the model gives never
    reaches the endpoint: [file_id] of [update_file] and of
    [delete_file], [query_type] of [run_sql_query], [script] of
    [run_python_script], [endpoint_path] and [method] of
    [test_endpoint], and [error_message] of [troubleshoot]. *)
Theorem execute_tool_ignores_unread_parameters (E : tool_env)
    (project_id : string) (tool_name : str) (d d' : list (string * json)) :
  (∀ b k, assoc (string_of_list_ascii tool_name) branches = Some b →
          k ∈ fst <$> reads b → assoc k d = assoc k d') →
  execute_tool E project_id tool_name (JObj d)
  = execute_tool E project_id tool_name (JObj d')
  ∧ omap (λ t, match unread_required t with
               | [] => None
               | unread => Some (name t, unread)
               end) get_all_tools
    = [("update_file", ["file_id"]); ("delete_file", ["file_id"]);
       ("run_sql_query", ["query_type"]); ("run_python_script", ["script"]);
       ("test_endpoint", ["endpoint_path"; "method"]);
       ("troubleshoot", ["error_message"])]%string.
Proof.
  intros H. split; [|vm_compute; reflexivity].
  unfold execute_tool, execute_tool_body.
  destruct (assoc (string_of_list_ascii tool_name) branches) as [b|] eqn:Hb;
    [|done].
  by rewrite (read_all_agree d d' (reads b)) by eauto.
Qed.

(** A script given under the key of the registry and under the key the
    branch reads. *)
Definition echo_code : tool_env :=
  {| call := λ _ arguments,
       Ok (Plain (default JNull (assoc "code" arguments)));
     exn_text := λ _, [];
     format_exc := λ _, [] |}.

Lemma execute_tool_ignores_unread_parameters_witness :
  execute_tool echo_code "p" (lit "run_python_script")
    (JObj [("script", JStr (lit "print(1)"))]%string)
  = execute_tool echo_code "p" (lit "run_python_script") (JObj [])
  ∧ execute_tool echo_code "p" (lit "run_python_script") (JObj [])
    = Ok (JObj [("success", JBool true); ("output", JNull)]%string).
Proof.
  split; [|vm_compute; reflexivity].
  refine (proj1 (execute_tool_ignores_unread_parameters echo_code "p"
                   (lit "run_python_script")
                   [("script", JStr (lit "print(1)"))]%string [] _)).
  intros b k Hb Hk.
  assert (Hc : assoc (string_of_list_ascii (lit "run_python_script")) branches
               = Some {| endpoint := "run_python_script"; project_arg := true;
                         reads := [("code", JNull)];
                         returns := one "output" "output" |})
    by (vm_compute; reflexivity).
  rewrite Hc in Hb. injection Hb as <-.
  cbn [reads fmap list_fmap fst] in Hk.
  apply list_elem_of_singleton in Hk. subst k. reflexivity.
Defined.

End RegistryFacts.

(** ** What an update of the stored context leaves alone *)

Section ContextMemoryFacts.
Import Py ContextLoader ContextMemory.

Lemma merge_list_key_absent k0 f old c c' k :
  merge_list_key k0 f old c = Ok c' → c !! k = None → c' !! k = None.
Proof.
  unfold merge_list_key. intros H Hk.
  destruct (c !! k0) as [new|] eqn:Hnew; [|by injection H as <-].
  destruct (old !! k0) as [o|]; [|by injection H as <-].
  destruct o, new; try done. injection H as <-.
  rewrite lookup_insert_ne; [done|]. intros ->. congruence.
Qed.

Lemma merge_memory_absent old c c' k :
  merge_memory old c = Ok c' → c !! k = None → c' !! k = None.
Proof.
  unfold merge_memory. intros H Hk.
  destruct (c !! "ai_memory"%string) as [new|] eqn:Hnew;
    [|by injection H as <-].
  destruct (old !! "ai_memory"%string) as [o|]; [|by injection H as <-].
  destruct o, new; try done. injection H as <-.
  rewrite lookup_insert_ne; [done|]. intros <-. congruence.
Qed.

(** A merge changes the stored dict under the given keys only, and
    removes no key. *)
Lemma merge_into_frame old c new :
  merge_into old c = Ok new →
  (∀ k, c !! k = None → new !! k = old !! k)
  ∧ (∀ k, is_Some (old !! k) → is_Some (new !! k)).
Proof.
  unfold merge_into. intros H.
  destruct (merge_list_key "files_generated" union_list old c)
    as [c1|] eqn:E1; [|done]. cbn [bind] in H.
  destruct (merge_list_key "tasks_completed" union_list old c1)
    as [c2|] eqn:E2; [|done]. cbn [bind] in H.
  destruct (merge_list_key "recent_errors" concat_last_10 old c2)
    as [c3|] eqn:E3; [|done]. cbn [bind] in H.
  destruct (merge_memory old c3) as [c4|] eqn:E4; [|done]. cbn [bind] in H.
  injection H as <-. split.
  - intros k Hk. rewrite lookup_union.
    rewrite (merge_memory_absent _ _ _ k E4); [by rewrite (left_id_L None _)|].
    eapply merge_list_key_absent; [exact E3|].
    eapply merge_list_key_absent; [exact E2|].
    eapply merge_list_key_absent; [exact E1|]. done.
  - intros k [v Hv]. rewrite lookup_union, Hv.
    destruct (c4 !! k); simpl; eauto.
Qed.

(** X19.  [update_memory] writes the row of its project and no other.
    With [merge] on a project that has a well-formed row, it returns,
    every key the call does not give keeps the value that was stored,
    also a key that is none of the six, and no stored key is lost.
    After [reset_memory] a merging update stores what an update with
    [merge] false stores: the given fields alone. *)
Theorem update_memory_frame (project_id : string) (u : update)
    (agent_context : gmap string (gmap string value))
    (old : gmap string value) :
  agent_context !! project_id = Some old →
  well_formed old →
  (∃ new,
     update_memory true project_id u true agent_context
     = Ok (<[project_id := new]> agent_context)
     ∧ (∀ k, build_update_data u !! k = None → new !! k = old !! k)
     ∧ (∀ k, is_Some (old !! k) → is_Some (new !! k)))
  ∧ (∀ merge table,
       update_memory true project_id u merge agent_context = Ok table →
       ∀ other, other ≠ project_id → table !! other = agent_context !! other)
  ∧ (∃ emptied,
       reset_memory true project_id agent_context = Ok emptied
       ∧ emptied !! project_id = None
       ∧ update_memory true project_id u true emptied
         = update_memory true project_id u false agent_context
       ∧ update_memory true project_id u false agent_context
         = Ok (<[project_id := build_update_data u]> agent_context)).
Proof.
  intros Hrow Hwf. split; [|split].
  - destruct (merge_into_spec old u Hwf) as (new & Hnew & _).
    exists new. split.
    { unfold update_memory. simpl. by rewrite Hrow, Hnew. }
    by apply merge_into_frame.
  - intros merge table. unfold update_memory. cbn [negb].
    destruct (if merge then _ else _) as [c|]; [|done]. cbn [bind].
    intros [= <-] other Hne. by rewrite lookup_insert_ne.
  - exists (delete project_id agent_context). split; [done|].
    split; [apply lookup_delete_eq|].
    unfold update_memory. cbn [negb]. rewrite lookup_delete_eq. cbn [bind].
    split; [|done]. f_equal. apply insert_delete_eq.
Qed.

(** An update that gives the phase alone. *)
Definition phase_only : update :=
  {| current_phase := Some (lit "testing"); current_task := None;
     files_generated := None; tasks_completed := None;
     recent_errors := None; ai_memory := None |}.

Lemma update_memory_frame_witness :
  ∃ new,
    update_memory true "p" phase_only true {[ "p"%string := old_context ]}
    = Ok (<["p"%string := new]> {[ "p"%string := old_context ]})
    ∧ new !! "files_generated"%string
      = Some (VList [lit "a.py"; lit "b.py"]).
Proof.
  destruct (update_memory_frame "p" phase_only {[ "p"%string := old_context ]}
              old_context (lookup_singleton_eq _ _) old_context_well_formed)
    as [(new & Hnew & Hkeep & _) _].
  exists new. split; [exact Hnew|].
  rewrite Hkeep; [|vm_compute; reflexivity].
  vm_compute. reflexivity.
Defined.

End ContextMemoryFacts.

(** ** Error recovery *)

Section RecoveryFacts.
Import Py Orchestrator Recovery.

Definition is_failure (c : recovery_chunk) : bool :=
  match c with FixAttemptFailed _ _ => true | _ => false end.

(** The number of failed attempts that were reported. *)
Definition failures (l : list recovery_chunk) : nat :=
  length (List.filter is_failure l).

Lemma failures_app l k : failures (l ++ k) = failures l + failures k.
Proof. unfold failures. by rewrite List.filter_app, length_app. Qed.

Lemma failures_one c : failures [c] = if is_failure c then 1 else 0.
Proof. unfold failures. simpl. by destruct (is_failure c). Qed.

Lemma failures_from_tools (l : list chunk) : failures (FromTools <$> l) = 0.
Proof. induction l as [|c l IH]; [done|exact IH]. Qed.

(** What the loop keeps: each attempt is one run of the tool loop, with
    at most five calls of the model, and each attempt that ends by an
    [Exception] is reported; the loop ends with all attempts used only
    when the bound is reached. *)
Lemma retry_loop_invariant E prompt max fuel rc ec st :
  let r := retry_loop E prompt max fuel rc ec st in
  calls r + 5 * rc ≤ calls st + 5 * attempts r
  ∧ rc ≤ attempts r
  ∧ (rc ≤ max → attempts r ≤ max)
  ∧ failures (chunks r) + rc
    + match outcome_of r with GaveUp => 0 | _ => 1 end
    = failures (chunks st) + attempts r
  ∧ match outcome_of r with
    | Fixed => ∃ l, chunks r = l ++ [FixAttemptCompleted]
    | GaveUp => max ≤ rc + fuel → rc ≤ max → attempts r = max
    | Escaped e => is_Exception e = false
    end.
Proof.
  revert rc ec st. induction fuel as [|fuel IH]; intros rc ec st; cbn zeta.
  { cbn [retry_loop calls attempts chunks outcome_of].
    repeat split; lia. }
  cbn [retry_loop]. case_decide as Hlt.
  2:{ cbn [calls attempts chunks outcome_of]. repeat split; lia. }
  set (r := stream_with_tools E ec prompt default_max_iterations (dialog st)).
  pose proof (stream_with_tools_calls_bounded E ec prompt
                default_max_iterations (dialog st)) as Hcalls.
  fold r in Hcalls. unfold default_max_iterations in Hcalls.
  set (yielded := (if decide (1 < rc + 1)
                   then chunks st ++ [RetryAttempt (rc + 1) max]
                   else chunks st)
                  ++ (FromTools <$> Orchestrator.yielded (final r))).
  assert (Hy : failures yielded = failures (chunks st)).
  { unfold yielded. rewrite failures_app, failures_from_tools.
    case_decide; rewrite ?failures_app, ?failures_one; simpl; lia. }
  destruct (ended r) as [| |e].
  1,2: cbn [calls attempts chunks outcome_of];
       rewrite failures_app, failures_one, Hy; simpl;
       (repeat split; [lia ..|eauto]).
  destruct (is_Exception e) eqn:He.
  - cbn [dialog calls attempts chunks outcome_of].
    match goal with
    | |- context [retry_loop E prompt max fuel (rc + 1) ?ec' ?st'] =>
        specialize (IH (rc + 1) ec' st');
        set (res := retry_loop E prompt max fuel (rc + 1) ec' st') in *
    end.
    cbn zeta in IH. cbn [calls attempts chunks outcome_of] in IH.
    rewrite failures_app, failures_one, Hy in IH. cbn [is_failure] in IH.
    destruct IH as (H1 & H2 & H3 & H4 & H5).
    repeat split; [lia ..|].
    destruct (outcome_of res); [done| |done]. lia.
  - cbn [calls attempts chunks outcome_of]. rewrite Hy.
    repeat split; [lia ..|done].
Qed.

(** X20.  [recover_from_error] makes at most [max_retries] attempts,
    each a run of the tool loop with its bound of five, so the model is
    called at most five times [max_retries] times.  The fix is taken as
    made as soon as one run ends without an exception: the attempts
    before it each reported their failure, and the last chunks are the
    two of the success.  Otherwise all [max_retries] attempts were made
    and each reported its failure, and the last chunks say that the error
    could not be fixed; with [max_retries] zero this is all that is done.
    Only an exception that is no [Exception], or one raised while the
    context is dumped, before the first attempt, leaves the
    generator. *)
Theorem recover_from_error_bounded (E : env) (debugging_prompt : str)
    (dumps : list (string * json) → result str) (error_message : str)
    (stack_trace : option str) (context : option (list (string * json)))
    (max_retries : nat) (history : list message) :
  let r := recover_from_error E debugging_prompt dumps error_message
             stack_trace context max_retries history in
  calls r ≤ 5 * max_retries
  ∧ attempts r ≤ max_retries
  ∧ match outcome_of r with
    | Fixed =>
        failures (chunks r) + 1 = attempts r
        ∧ ∃ l, chunks r = l ++ [FixAttemptCompleted; Recovered]
    | GaveUp =>
        attempts r = max_retries
        ∧ failures (chunks r) = max_retries
        ∧ ∃ l, chunks r = l ++ [CouldNotFix max_retries; ManualIntervention]
    | Escaped e =>
        is_Exception e = false ∨ (attempts r = 0 ∧ calls r = 0)
    end.
Proof.
  unfold recover_from_error.
  destruct (match context with
            | Some (kv :: d) => _
            | _ => Ok None
            end) as [context_text|e].
  2:{ cbn zeta. cbn [calls attempts outcome_of]. repeat split; [lia ..|].
      by right. }
  match goal with
  | |- context [retry_loop E ?p ?m ?f 0 ?ec ?st] =>
      pose proof (retry_loop_invariant E p m f 0 ec st) as Hloop;
      set (st' := retry_loop E p m f 0 ec st) in *
  end.
  cbn zeta in Hloop. cbn [calls chunks] in Hloop.
  change (failures [Activated; ErrorIs error_message]) with 0 in Hloop.
  destruct Hloop as (H1 & _ & H3 & H4 & H5).
  specialize (H3 (Nat.le_0_l _)).
  destruct (outcome_of st') eqn:Hout; cbn zeta;
    cbn [calls attempts chunks outcome_of]; rewrite ?Hout.
  - split; [lia|]. split; [lia|]. rewrite failures_app, failures_one. simpl.
    split; [lia|]. destruct H5 as [l ->]. exists l.
    by rewrite <- app_assoc.
  - specialize (H5 ltac:(lia) ltac:(lia)).
    split; [lia|]. split; [lia|].
    change [CouldNotFix max_retries; ManualIntervention]
      with ([CouldNotFix max_retries] ++ [ManualIntervention]).
    rewrite !failures_app, !failures_one. simpl.
    split; [done|]. split; [lia|]. eauto.
  - split; [lia|]. split; [lia|]. by left.
Qed.

End RecoveryFacts.

(** ** The auto-healing loop *)

Section AutoHealingFacts.
Import Py Orchestrator AutoHealing.

Lemma execute_tool_returns_dict (E : tool_env) (project_id : string)
    (tool_name : str) (parameters : json) (v : json) :
  execute_tool E project_id tool_name parameters = Ok v → ∃ d, v = JObj d.
Proof.
  unfold execute_tool, execute_tool_body, try_except.
  destruct (assoc (string_of_list_ascii tool_name) branches) as [b|];
    [|intros [= <-]; eauto].
  destruct (read_all parameters (reads b)) as [args|e]; cbn [bind].
  2:{ destruct (is_Exception e); [intros [= <-]; eauto|done]. }
  destruct (call E (endpoint b) _) as [r|e]; cbn [bind].
  2:{ destruct (is_Exception e); [intros [= <-]; eauto|done]. }
  destruct (eval_fields r (returns b)) as [d|e]; cbn [bind].
  - intros [= <-]. eauto.
  - destruct (is_Exception e); [intros [= <-]; eauto|done].
Qed.

Lemma execute_tool_raises_base (E : tool_env) (project_id : string)
    (tool_name : str) (parameters : json) (e : exn) :
  execute_tool E project_id tool_name parameters = Raise e →
  is_Exception e = false.
Proof.
  unfold execute_tool, try_except.
  destruct (execute_tool_body E project_id tool_name parameters) as [v|e'];
    [done|].
  destruct (is_Exception e') eqn:He; [done|]. by intros [= <-].
Qed.

(** An endpoint [get_open_errors] that returns a dict, as the one of the
    source does, or raises an [Exception]. *)
Definition open_errors_as_dict (E : tool_env) : Prop :=
  ∀ arguments,
    (∃ v, call E "get_open_errors" arguments = Ok (Plain v))
    ∨ (∃ e, call E "get_open_errors" arguments = Raise e
            ∧ is_Exception e = true).

(** The tool [get_open_errors] then answers with a dict that has no
    entry [errors]. *)
Lemma get_open_errors_fails (E : tool_env) (project_id : string) :
  open_errors_as_dict E →
  ∃ d, execute_tool E project_id (lit "get_open_errors") (JObj []) = Ok (JObj d)
       ∧ assoc "errors" d = None.
Proof.
  intros H. unfold execute_tool, execute_tool_body.
  change (assoc (string_of_list_ascii (lit "get_open_errors")) branches)
    with (Some {| endpoint := "get_open_errors"; project_arg := true;
                  reads := [];
                  returns := [("success", Const (JBool true));
                              ("has_errors", Attr "has_errors");
                              ("errors", DictOfEachIn "errors")]%string |}).
  cbn [reads read_all bind endpoint returns].
  destruct (H (keyword_arguments project_id
                 {| endpoint := "get_open_errors"; project_arg := true;
                    reads := [];
                    returns := [("success", Const (JBool true));
                                ("has_errors", Attr "has_errors");
                                ("errors", DictOfEachIn "errors")]%string |}
                 [])) as [[v ->]|(e & -> & He)].
  - cbn [bind eval_fields eval_field getattr try_except no_attribute
           is_Exception]. eauto.
  - cbn [bind try_except]. rewrite He. eauto.
Qed.

(** The first turn of the loop is the last. *)
Lemma attempts_loop_first_turn (E : heal_env) (attempt : nat)
    (attempts : list nat) (chunks : list heal_chunk) :
  open_errors_as_dict (tools E) →
  let begun := chunks ++ [AttemptLine attempt max_attempts; Building] in
  attempts_loop E (attempt :: attempts) chunks
  = (begun ++ [BuildTriggered] ++ [Checking] ++ [NoErrorsFound], None)
  ∨ (∃ err, attempts_loop E (attempt :: attempts) chunks
            = (begun ++ [BuildTriggerFailed err], None))
  ∨ (∃ e, is_Exception e = false
          ∧ attempts_loop E (attempt :: attempts) chunks = (begun, Some e)).
Proof.
  intros H. cbn zeta. cbn [attempts_loop].
  set (begun := chunks ++ [AttemptLine attempt max_attempts; Building]).
  unfold trigger, execute.
  destruct (execute_tool (tools E) (project E) (lit "trigger_build") (JObj []))
    as [build_result|e] eqn:Hbuild; cbn [bind].
  2:{ pose proof (execute_tool_raises_base _ _ _ _ _ Hbuild) as He.
      rewrite He. right. right. by exists e. }
  destruct (execute_tool_returns_dict _ _ _ _ _ Hbuild) as [d ->].
  cbn [get bind].
  destruct (truthy (default JNull (assoc "success"%string d))).
  2:{ right. left. eauto. }
  unfold check, execute.
  destruct (get_open_errors_fails (tools E) (project E) H) as (d' & -> & Hd').
  cbn [bind get]. rewrite Hd'. cbn [default check_errors truthy negb].
  left. by rewrite <- !app_assoc.
Qed.

(** X21.  With an endpoint [get_open_errors] that returns a dict, as
    the one of the source does, the auto-healing loop never heals: the
    tool fails on the attributes the branch reads from the dict, its
    answer has no errors, and the loop takes this for a project without
    errors.  The loop makes one attempt and ends after the build was
    triggered, with the chunk that says no errors were found, or with the
    chunk that says the build could not be triggered; no file is read or
    updated and the model is not asked for a fix.  Only an exception that
    is no [Exception], raised by a tool, leaves the generator. *)
Theorem auto_healing_loop_never_fixes (E : heal_env) :
  open_errors_as_dict (tools E) →
  match auto_healing_loop E with
  | (chunks, None) =>
      chunks = [Starting; AttemptLine 1 3; Building; BuildTriggered;
                Checking; NoErrorsFound; Complete]
      ∨ ∃ err, chunks = [Starting; AttemptLine 1 3; Building;
                         BuildTriggerFailed err; Complete]
  | (chunks, Some e) =>
      is_Exception e = false
      ∧ chunks = [Starting; AttemptLine 1 3; Building]
  end.
Proof.
  intros H. unfold auto_healing_loop.
  change (seq 1 max_attempts) with [1; 2; 3].
  destruct (attempts_loop_first_turn E 1 [2; 3] [Starting] H)
    as [->|[[err ->]|(e & He & ->)]].
  - by left.
  - right. by exists err.
  - done.
Qed.

(** An endpoint that reports an open error. *)
Definition one_open_error : heal_env :=
  {| tools :=
       {| call := λ _ _,
            Ok (Plain (JObj [("success", JBool true);
                             ("has_errors", JBool true);
                             ("count", JNum 1);
                             ("errors",
                              JList [JObj [("id", JStr (lit "e1"));
                                           ("file_path",
                                            JStr (lit "frontend/src/pages/Home.tsx"));
                                           ("message",
                                            JStr (lit "Unexpected token"))]])
                            ]%string));
          exn_text := λ e, exn_message e;
          format_exc := λ _, [] |};
     project := "p";
     create := λ _ _, Ok (Some (lit "fixed"));
     format := λ _, [] |}.

Lemma auto_healing_loop_never_fixes_witness :
  open_errors_as_dict (tools one_open_error)
  ∧ auto_healing_loop one_open_error
    = ([Starting; AttemptLine 1 3; Building; BuildTriggered; Checking;
        NoErrorsFound; Complete], None).
Proof.
  assert (H : open_errors_as_dict (tools one_open_error))
    by (intros arguments; left; eauto).
  split; [exact H|].
  pose proof (auto_healing_loop_never_fixes one_open_error H) as Hloop.
  destruct (auto_healing_loop one_open_error) as [chunks [e|]] eqn:Hrun.
  - exfalso. vm_compute in Hrun. discriminate Hrun.
  - destruct Hloop as [->|[err ->]]; [reflexivity|].
    exfalso. vm_compute in Hrun. discriminate Hrun.
Defined.

End AutoHealingFacts.

(** ** The packages of a created file *)

Section FilePackagesFacts.
Import Py PyText CodeValidator Healing FilePackages.

Lemma mapped_imports_package_of (imports : list str) :
  mapped_imports imports = package_of <$> imports.
Proof. done. Qed.

(** X22.  For a Python file whose validation found imports,
    [create_file] hands the package of every import to
    [install_packages_in_project], those of the standard library
    included: the list is not passed through [get_missing_packages],
    which would leave them out and which reports nothing that is not in
    the list.  The packages are written to [pyproject.toml] whatever the
    installer does, [package.json] is not touched, the detector of
    imports is not asked, and only an exception that is no [Exception]
    leaves the step. *)
Theorem create_file_installs_every_import (C : collaborators)
    (request : AgentTools.CreateFileRequest) (v : ValidationResult)
    (m : manifests) :
  AgentTools.language request = Some "python"%string →
  imports v ≠ [] →
  let packages := mapped_imports (imports v) in
  let out := install_detected_packages C request (Some v) m in
  pyproject out.1
  = (λ content, Preview.update_project_pyproject content packages)
      <$> pyproject m
  ∧ package_json out.1 = package_json m
  ∧ (∀ e, out.2 = Some e → is_Exception e = false)
  ∧ (∀ i, i ∈ imports v → package_of i ∈ packages)
  ∧ (∀ i, i ∈ imports v → i ∈ _STANDARD_LIBRARY_MODULES →
          ∀ installed, package_of i ∉ get_missing_packages [i] installed)
  ∧ (∀ installed p, p ∈ get_missing_packages (imports v) installed →
                    p ∈ packages).
Proof.
  intros Hlang Himports. cbn zeta.
  split; [|split; [|split; [|split; [|split]]]].
  1-3: unfold install_detected_packages; rewrite decide_True by done;
       unfold install_python_packages;
       destruct (imports v) as [|imp imps] eqn:Hi; [done|];
       change (mapped_imports (imp :: imps))
         with (package_of imp :: mapped_imports imps);
       cbv iota beta;
       destruct (PreviewPackages.install_packages_in_project (pyproject m)
                   (uv_exists C) (run C) (FilePackages.exn_text C)
                   (package_of imp :: mapped_imports imps))
         as [text [r|e]] eqn:Hinstall;
       pose proof (f_equal fst Hinstall) as Htext; cbn [fst] in Htext;
       unfold PreviewPackages.install_packages_in_project in Htext;
       destruct (negb (uv_exists C)); cbn [fst] in Htext; subst text.
  all: try (destruct (is_Exception e) eqn:He).
  all: try done.
  - intros e' [= <-]. done.
  - intros e' [= <-]. done.
  - intros i Hi. rewrite mapped_imports_package_of.
    apply list_elem_of_fmap. eauto.
  - intros i Hi Hstd installed Hin.
    apply elem_of_get_missing_packages in Hin
      as (i' & Hi' & Hnot & _). apply list_elem_of_singleton in Hi'.
    by subst i'.
  - intros installed p Hin.
    apply elem_of_get_missing_packages in Hin as (i & Hi & _ & -> & _).
    rewrite mapped_imports_package_of. apply list_elem_of_fmap. eauto.
Qed.

(** A module that imports [os] and [requests]. *)
Definition imports_os : ValidationResult :=
  {| is_valid := true; errors := []; warnings := [];
     imports := [lit "os"; lit "requests"] |}.

Definition api_file : AgentTools.CreateFileRequest :=
  {| AgentTools.project_id := "p";
     AgentTools.file_path := lit "backend/app/apis/fetch/__init__.py";
     AgentTools.file_content := lit "import os
import requests
";
     AgentTools.language := Some "python"%string;
     AgentTools.file_type := Some "api"%string |}.

Definition no_uv : collaborators :=
  {| detect_python_imports := λ _, Ok [];
     detect_npm_imports := λ _, Ok [];
     uv_exists := false;
     run := λ _, Raise (OtherError []);
     FilePackages.exn_text := λ _, [] |}.

Lemma create_file_installs_every_import_witness :
  pyproject
    (install_detected_packages no_uv api_file (Some imports_os)
       {| pyproject := Some sample_manifest; package_json := None |}).1
  = Some (lit "[project]
name = 'riff-backend'

[dependency-groups]
" ++ lit "app = ["
      ++ join (lit ", ")
           (Preview.quoted <$> [lit "fastapi"; lit "httpx"; lit "os";
                                lit "python-dotenv"; lit "requests"])
      ++ lit "]
dev = []").
Proof.
  destruct (create_file_installs_every_import no_uv api_file imports_os
              {| pyproject := Some sample_manifest; package_json := None |}
              eq_refl ltac:(discriminate)) as (Hpy & _).
  cbv zeta in Hpy. rewrite Hpy. vm_compute. reflexivity.
Defined.

End FilePackagesFacts.
